(** * The I/O kernel data plane (iokernel/dpdk.c)

    A shallow embedding of the packet dispatcher of [iokernel/dpdk.c]:
    the shared-memory mbuf pool constructor, the receive preamble, the
    per-burst classification and forwarding of ingress packets, the client
    registry with its MAC hash table, and the control-channel command loop.

    C integers are [Z] with the wrap-around of their width written out,
    pointers are [Z] addresses into explicit stores, and the globals of the
    translation unit are the fields of one state record that every function
    threads through a state-and-error monad.  Calls into DPDK, libc and the
    LRPC channels are modelled by their interface contracts and leave an
    event in a trace, so that frees, reference count updates and channel
    sends can be counted. *)

From Stdlib Require Import ZArith List Lia.
From stdpp Require Import base option list gmap strings.

Local Open Scope Z_scope.

(** ** Constants of the translation unit *)

Definition PKT_BURST_SIZE : Z := 32.
Definition CONTROL_BURST_SIZE : Z := 8.
Definition MAC_TO_PROC_ENTRIES : Z := 128.

(** Modelled from the spec: [IOKERNEL_MAX_PROC], the length of the
    [clients] array, is defined in [defs.h], which is not among the
    sources; the spec gives 128 as the maximum number of clients.  The
    functions below never mention it: the capacity of the array is the
    length of the list that models it. *)
Definition IOKERNEL_MAX_PROC : Z := 128.

(** Modelled from the spec: the command tags of the two control channels
    and of the ingress channel come from the iokernel headers, which are
    not among the sources.  Only their being distinct matters. *)
Definition DATAPLANE_ADD_CLIENT : Z := 0.
Definition DATAPLANE_REMOVE_CLIENT : Z := 1.
Definition CONTROL_PLANE_REMOVE_CLIENT : Z := 0.
Definition RX_NET_RECV : Z := 0.

(** [rte_mbuf.h]: the receive offload flags for the IP checksum. *)
Definition PKT_RX_IP_CKSUM_BAD : Z := Z.shiftl 1 4.
Definition PKT_RX_IP_CKSUM_GOOD : Z := Z.shiftl 1 7.
Definition PKT_RX_IP_CKSUM_MASK : Z :=
  Z.lor (Z.shiftl 1 4) (Z.shiftl 1 7).

(** [rte_ether.h]: the group bit of the first octet. *)
Definition ETHER_GROUP_ADDR : Z := 1.

Definition wrap16 (x : Z) : Z := x mod 2 ^ 16.
Definition wrap32 (x : Z) : Z := x mod 2 ^ 32.
Definition wrap64 (x : Z) : Z := x mod 2 ^ 64.
(** Conversion to [int16_t], the type of the second argument of
    [rte_mbuf_refcnt_update]. *)
Definition to_int16 (x : Z) : Z := (x + 2 ^ 15) mod 2 ^ 16 - 2 ^ 15.

(** ** Data model *)

(** [struct ether_addr]: six octets. *)
Abbreviation ether_addr := (Z * Z * Z * Z * Z * Z)%type.

Definition is_unicast_ether_addr (ea : ether_addr) : bool :=
  let '(b0, _, _, _, _, _) := ea in
  Z.land b0 ETHER_GROUP_ADDR =? 0.

Definition is_broadcast_ether_addr (ea : ether_addr) : bool :=
  let '(b0, b1, b2, b3, b4, b5) := ea in
  (b0 =? 255) && (b1 =? 255) && (b2 =? 255) &&
  (b3 =? 255) && (b4 =? 255) && (b5 =? 255).

Inductive checksum_type := CHECKSUM_TYPE_NEEDED | CHECKSUM_TYPE_UNNECESSARY.

(** [struct rx_net_hdr], the preamble written in front of a packet. *)
Record rx_net_hdr := {
  len : Z;
  rss_hash : Z;
  csum_type : checksum_type;
  csum : Z
}.

(** Modelled from the spec: [struct rx_net_hdr] is declared in
    [iokernel/queue.h], which is not among the sources; its four fields
    are taken as 32-bit words. *)
Definition sizeof_rx_net_hdr : Z := 16.

(** The fields of [struct rte_mbuf] that the data plane reads or writes.
    [d_addr] is the destination address of the Ethernet header at the
    start of the frame, [preambles] the receive preambles that were
    written into the headroom in front of the frame, the latest first. *)
Record rte_mbuf := {
  buf_addr : Z;
  data_off : Z;
  data_len : Z;
  pkt_len : Z;
  ol_flags : Z;
  refcnt : Z;
  d_addr : ether_addr;
  preambles : list rx_net_hdr;
  in_pool : bool
}.

(** Modelled from the spec: the sending end of an LRPC channel
    ([base/lrpc.h] is not among the sources) is a bounded queue of
    (command, payload) records. *)
Record lrpc_chan_out := {
  chan_size : Z;
  chan_msgs : list (Z * Z)
}.

(** [struct thread] and [struct proc], owned by the control plane. *)
Record thread := { rxq : lrpc_chan_out }.

Record proc := {
  mac : ether_addr;
  thread_count : Z;
  threads : list thread
}.

(** The DPDK hash table behind [mac_to_proc]: at most [hash_entries]
    keys, each with one data pointer. *)
Record rte_hash := {
  hash_entries : Z;
  hash_table : gmap ether_addr Z
}.

Inductive chan_id :=
| ChanRxq (p : Z) (t : Z)
| ChanDataToControl.

Inductive log_level := LOG_ERR | LOG_WARN | LOG_DEBUG.

(** What the data plane does to the world outside its own variables. *)
Inductive event :=
| EvLog (lvl : log_level) (msg : string)
| EvFree (buf : Z)
| EvRefcntUpdate (buf : Z) (value : Z)
| EvSend (c : chan_id) (cmd payload : Z) (ok : bool).

(** The globals of [dpdk.c] together with the memory they point into. *)
Record dp_state := {
  clients : list Z;
  nr_clients : Z;
  mac_to_proc : rte_hash;
  lrpc_control_to_data : list (Z * Z);
  lrpc_data_to_control : lrpc_chan_out;
  ingress_mbuf_region_base : Z;
  procs : gmap Z proc;
  mbufs : gmap Z rte_mbuf;
  nic_rx_queue : list Z;
  rand_src : nat → Z;
  rand_pos : nat;
  trace : list event
}.

Definition set_clients (v : list Z) (s : dp_state) : dp_state :=
  {| clients := v; nr_clients := nr_clients s;
     mac_to_proc := mac_to_proc s;
     lrpc_control_to_data := lrpc_control_to_data s;
     lrpc_data_to_control := lrpc_data_to_control s;
     ingress_mbuf_region_base := ingress_mbuf_region_base s;
     procs := procs s; mbufs := mbufs s; nic_rx_queue := nic_rx_queue s;
     rand_src := rand_src s; rand_pos := rand_pos s; trace := trace s |}.

Definition set_nr_clients (v : Z) (s : dp_state) : dp_state :=
  {| clients := clients s; nr_clients := v;
     mac_to_proc := mac_to_proc s;
     lrpc_control_to_data := lrpc_control_to_data s;
     lrpc_data_to_control := lrpc_data_to_control s;
     ingress_mbuf_region_base := ingress_mbuf_region_base s;
     procs := procs s; mbufs := mbufs s; nic_rx_queue := nic_rx_queue s;
     rand_src := rand_src s; rand_pos := rand_pos s; trace := trace s |}.

Definition set_mac_to_proc (v : rte_hash) (s : dp_state) : dp_state :=
  {| clients := clients s; nr_clients := nr_clients s;
     mac_to_proc := v;
     lrpc_control_to_data := lrpc_control_to_data s;
     lrpc_data_to_control := lrpc_data_to_control s;
     ingress_mbuf_region_base := ingress_mbuf_region_base s;
     procs := procs s; mbufs := mbufs s; nic_rx_queue := nic_rx_queue s;
     rand_src := rand_src s; rand_pos := rand_pos s; trace := trace s |}.

Definition set_lrpc_control_to_data (v : list (Z * Z)) (s : dp_state)
  : dp_state :=
  {| clients := clients s; nr_clients := nr_clients s;
     mac_to_proc := mac_to_proc s;
     lrpc_control_to_data := v;
     lrpc_data_to_control := lrpc_data_to_control s;
     ingress_mbuf_region_base := ingress_mbuf_region_base s;
     procs := procs s; mbufs := mbufs s; nic_rx_queue := nic_rx_queue s;
     rand_src := rand_src s; rand_pos := rand_pos s; trace := trace s |}.

Definition set_lrpc_data_to_control (v : lrpc_chan_out) (s : dp_state)
  : dp_state :=
  {| clients := clients s; nr_clients := nr_clients s;
     mac_to_proc := mac_to_proc s;
     lrpc_control_to_data := lrpc_control_to_data s;
     lrpc_data_to_control := v;
     ingress_mbuf_region_base := ingress_mbuf_region_base s;
     procs := procs s; mbufs := mbufs s; nic_rx_queue := nic_rx_queue s;
     rand_src := rand_src s; rand_pos := rand_pos s; trace := trace s |}.

Definition set_procs (v : gmap Z proc) (s : dp_state) : dp_state :=
  {| clients := clients s; nr_clients := nr_clients s;
     mac_to_proc := mac_to_proc s;
     lrpc_control_to_data := lrpc_control_to_data s;
     lrpc_data_to_control := lrpc_data_to_control s;
     ingress_mbuf_region_base := ingress_mbuf_region_base s;
     procs := v; mbufs := mbufs s; nic_rx_queue := nic_rx_queue s;
     rand_src := rand_src s; rand_pos := rand_pos s; trace := trace s |}.

Definition set_mbufs (v : gmap Z rte_mbuf) (s : dp_state) : dp_state :=
  {| clients := clients s; nr_clients := nr_clients s;
     mac_to_proc := mac_to_proc s;
     lrpc_control_to_data := lrpc_control_to_data s;
     lrpc_data_to_control := lrpc_data_to_control s;
     ingress_mbuf_region_base := ingress_mbuf_region_base s;
     procs := procs s; mbufs := v; nic_rx_queue := nic_rx_queue s;
     rand_src := rand_src s; rand_pos := rand_pos s; trace := trace s |}.

Definition set_nic_rx_queue (v : list Z) (s : dp_state) : dp_state :=
  {| clients := clients s; nr_clients := nr_clients s;
     mac_to_proc := mac_to_proc s;
     lrpc_control_to_data := lrpc_control_to_data s;
     lrpc_data_to_control := lrpc_data_to_control s;
     ingress_mbuf_region_base := ingress_mbuf_region_base s;
     procs := procs s; mbufs := mbufs s; nic_rx_queue := v;
     rand_src := rand_src s; rand_pos := rand_pos s; trace := trace s |}.

Definition set_rand_pos (v : nat) (s : dp_state) : dp_state :=
  {| clients := clients s; nr_clients := nr_clients s;
     mac_to_proc := mac_to_proc s;
     lrpc_control_to_data := lrpc_control_to_data s;
     lrpc_data_to_control := lrpc_data_to_control s;
     ingress_mbuf_region_base := ingress_mbuf_region_base s;
     procs := procs s; mbufs := mbufs s; nic_rx_queue := nic_rx_queue s;
     rand_src := rand_src s; rand_pos := v; trace := trace s |}.

Definition set_trace (v : list event) (s : dp_state) : dp_state :=
  {| clients := clients s; nr_clients := nr_clients s;
     mac_to_proc := mac_to_proc s;
     lrpc_control_to_data := lrpc_control_to_data s;
     lrpc_data_to_control := lrpc_data_to_control s;
     ingress_mbuf_region_base := ingress_mbuf_region_base s;
     procs := procs s; mbufs := mbufs s; nic_rx_queue := nic_rx_queue s;
     rand_src := rand_src s; rand_pos := rand_pos s; trace := v |}.

(** ** The state-and-error monad *)

(** A C function either returns, or its behaviour is undefined (an
    out-of-bounds access, a dangling pointer, a division by zero, a failed
    assertion); [OutOfFuel] is the model's own, for the one loop that is
    not structurally bounded. *)
Inductive err := UndefinedBehaviour | OutOfFuel.

Inductive result (A : Type) :=
| Ok (a : A)
| Err (e : err).
Arguments Ok {A} a.
Arguments Err {A} e.

Definition M (A : Type) : Type := dp_state → result (A * dp_state).

Definition ret {A} (a : A) : M A := λ s, Ok (a, s).

Definition bind {A B} (m : M A) (k : A → M B) : M B :=
  λ s, match m s with
       | Ok (a, s') => k a s'
       | Err e => Err e
       end.

Definition undefined {A} : M A := λ _, Err UndefinedBehaviour.
Definition out_of_fuel {A} : M A := λ _, Err OutOfFuel.
Definition gets {A} (f : dp_state → A) : M A := λ s, Ok (f s, s).
Definition modify (f : dp_state → dp_state) : M unit := λ s, Ok (tt, f s).

Notation "'do' x <- m ; k" := (bind m (λ x, k))
  (at level 10, x name, m at level 100, k at level 200).
Notation "m >> k" := (bind m (λ _, k))
  (at level 100, k at level 200, right associativity).

Definition emit (e : event) : M unit :=
  modify (λ s, set_trace (trace s ++ [e]) s).

Definition log_err (msg : string) : M unit := emit (EvLog LOG_ERR msg).
Definition log_warn (msg : string) : M unit := emit (EvLog LOG_WARN msg).
Definition log_debug (msg : string) : M unit := emit (EvLog LOG_DEBUG msg).

(** Dereferencing a pointer that is not live is undefined. *)
Definition load_proc (p : Z) : M proc :=
  do ps <- gets procs;
  match ps !! p with
  | Some pr => ret pr
  | None => undefined
  end.

Definition load_mbuf (buf : Z) : M rte_mbuf :=
  do ms <- gets mbufs;
  match ms !! buf with
  | Some m => ret m
  | None => undefined
  end.

Definition store_mbuf (buf : Z) (m : rte_mbuf) : M unit :=
  modify (λ s, set_mbufs (<[buf := m]> (mbufs s)) s).

(** [rand()]: the next value of the generator, in [0, RAND_MAX]. *)
Definition RAND_MAX : Z := 2147483647.

Definition rand : M Z :=
  do src <- gets rand_src;
  do pos <- gets rand_pos;
  modify (set_rand_pos (S pos)) >>
  ret (src pos mod (RAND_MAX + 1)).

(** C array indexing: an index outside the array is undefined. *)
Definition array_get (l : list Z) (i : Z) : option Z :=
  if i <? 0 then None else l !! Z.to_nat i.

Definition array_set (l : list Z) (i : Z) (v : Z) : option (list Z) :=
  if (0 <=? i) && (i <? Z.of_nat (length l))
  then Some (<[Z.to_nat i := v]> l)
  else None.

(** ** The interfaces the data plane calls into *)

(** [rte_hash_lookup_data]: the data stored under the key, or nothing
    (a negative return value) when the key is absent. *)
Definition rte_hash_lookup_data (h : rte_hash) (key : ether_addr)
  : option Z :=
  hash_table h !! key.

Definition ENOENT : Z := 2.
Definition ENOSPC : Z := 28.

(** [rte_hash_add_key_data]: a key that is present gets its data
    replaced; a new key is stored when there is room, and refused with
    [-ENOSPC] otherwise. *)
Definition rte_hash_add_key_data (h : rte_hash) (key : ether_addr)
    (data : Z) : Z * rte_hash :=
  match hash_table h !! key with
  | Some _ =>
      (0, {| hash_entries := hash_entries h;
             hash_table := <[key := data]> (hash_table h) |})
  | None =>
      if Z.of_nat (size (hash_table h)) <? hash_entries h
      then (0, {| hash_entries := hash_entries h;
                  hash_table := <[key := data]> (hash_table h) |})
      else (- ENOSPC, h)
  end.

(** [rte_hash_del_key]: removes the key, or returns [-ENOENT]. *)
Definition rte_hash_del_key (h : rte_hash) (key : ether_addr)
  : Z * rte_hash :=
  match hash_table h !! key with
  | Some _ =>
      (0, {| hash_entries := hash_entries h;
             hash_table := delete key (hash_table h) |})
  | None => (- ENOENT, h)
  end.

(** Modelled from the spec: [lrpc_send] ([base/lrpc.h] is not among the
    sources) is a non-blocking push that fails when the channel is
    full. *)
Definition lrpc_send (c : lrpc_chan_out) (cmd payload : Z)
  : bool * lrpc_chan_out :=
  if Z.of_nat (length (chan_msgs c)) <? chan_size c
  then (true, {| chan_size := chan_size c;
                 chan_msgs := chan_msgs c ++ [(cmd, payload)] |})
  else (false, c).

(** Modelled from the spec: [lrpc_recv] on the inbound control channel
    pops the oldest pending message, if there is one. *)
Definition lrpc_recv : M (option (Z * Z)) :=
  do q <- gets lrpc_control_to_data;
  match q with
  | [] => ret None
  | msg :: q' => modify (set_lrpc_control_to_data q') >> ret (Some msg)
  end.

(** [rte_pktmbuf_prepend]: NULL when the headroom is too small, else the
    data start moves back by [n] bytes. *)
Definition rte_pktmbuf_prepend (buf : Z) (n : Z) : M (option Z) :=
  do m <- load_mbuf buf;
  if data_off m <? n then ret None
  else
    let m' := {| buf_addr := buf_addr m;
                 data_off := data_off m - n;
                 data_len := wrap16 (data_len m + n);
                 pkt_len := wrap32 (pkt_len m + n);
                 ol_flags := ol_flags m;
                 refcnt := refcnt m;
                 d_addr := d_addr m;
                 preambles := preambles m;
                 in_pool := in_pool m |} in
    store_mbuf buf m' >> ret (Some (buf_addr m' + data_off m')).

Definition write_preamble (hdr : rx_net_hdr) (m : rte_mbuf) : rte_mbuf :=
  {| buf_addr := buf_addr m; data_off := data_off m;
     data_len := data_len m; pkt_len := pkt_len m;
     ol_flags := ol_flags m; refcnt := refcnt m; d_addr := d_addr m;
     preambles := hdr :: preambles m; in_pool := in_pool m |}.

Definition set_refcnt (r : Z) (pooled : bool) (m : rte_mbuf) : rte_mbuf :=
  {| buf_addr := buf_addr m; data_off := data_off m;
     data_len := data_len m; pkt_len := pkt_len m;
     ol_flags := ol_flags m; refcnt := r; d_addr := d_addr m;
     preambles := preambles m; in_pool := pooled |}.

(** [rte_pktmbuf_free] of a single-segment mbuf: the last reference
    returns the buffer to its pool, any other is dropped. *)
Definition rte_pktmbuf_free (buf : Z) : M unit :=
  do m <- load_mbuf buf;
  emit (EvFree buf) >>
  if refcnt m =? 1 then store_mbuf buf (set_refcnt 1 true m)
  else
    let r := wrap16 (refcnt m - 1) in
    if r =? 0 then store_mbuf buf (set_refcnt 1 true m)
    else store_mbuf buf (set_refcnt r (in_pool m) m).

(** [rte_mbuf_refcnt_update]: adds a signed 16-bit value to the count. *)
Definition rte_mbuf_refcnt_update (buf : Z) (value : Z) : M unit :=
  do m <- load_mbuf buf;
  emit (EvRefcntUpdate buf value) >>
  store_mbuf buf (set_refcnt (wrap16 (refcnt m + value)) (in_pool m) m).

(** [rte_eth_rx_burst]: up to [nb_pkts] buffers off the receive ring. *)
Definition rte_eth_rx_burst (nb_pkts : Z) : M (list Z) :=
  do q <- gets nic_rx_queue;
  modify (set_nic_rx_queue (drop (Z.to_nat nb_pkts) q)) >>
  ret (take (Z.to_nat nb_pkts) q).

(** ** The receive path *)

(** [dpdk_prepend_rx_preamble], returning the address of the preamble. *)
Definition dpdk_prepend_rx_preamble (buf : Z) : M Z :=
  do r <- rte_pktmbuf_prepend buf sizeof_rx_net_hdr;
  match r with
  | None => undefined
  | Some net_hdr =>
      do m <- load_mbuf buf;
      let masked_ol_flags := Z.land (ol_flags m) PKT_RX_IP_CKSUM_MASK in
      let hdr :=
        {| len := wrap32 (wrap64 (pkt_len m - sizeof_rx_net_hdr));
           rss_hash := 0;
           csum_type := if masked_ol_flags =? PKT_RX_IP_CKSUM_GOOD
                        then CHECKSUM_TYPE_UNNECESSARY
                        else CHECKSUM_TYPE_NEEDED;
           csum := 0 |} in
      store_mbuf buf (write_preamble hdr m) >>
      ret net_hdr
  end.

Definition set_rxq (q : lrpc_chan_out) (i : nat) (pr : proc) : proc :=
  {| mac := mac pr; thread_count := thread_count pr;
     threads := <[i := {| rxq := q |}]> (threads pr) |}.

(** The thread that [rand() % p->thread_count] picks. *)
Definition choose_thread (r : Z) (count : Z) : option Z :=
  if count =? 0 then None else Some (Z.rem r count).

(** [dpdk_enqueue_to_runtime]. *)
Definition dpdk_enqueue_to_runtime (net_hdr : Z) (p : Z) : M bool :=
  do pr <- load_proc p;
  do r <- rand;
  match choose_thread r (thread_count pr) with
  | None => undefined
  | Some i =>
      match (if i <? 0 then None else threads pr !! Z.to_nat i) with
      | None => undefined
      | Some t =>
          do base <- gets ingress_mbuf_region_base;
          let shmptr := net_hdr - base in
          let '(ok, q) := lrpc_send (rxq t) RX_NET_RECV shmptr in
          modify (λ s, set_procs
                         (<[p := set_rxq q (Z.to_nat i) pr]> (procs s)) s) >>
          emit (EvSend (ChanRxq p i) RX_NET_RECV shmptr ok) >>
          ret ok
      end
  end.

(** The loop [for (j = 0; j < nr_clients; j++)] of the broadcast branch,
    [j] and [n_sent] being [uint16_t]; it returns [n_sent]. *)
Fixpoint broadcast_loop (fuel : nat) (net_hdr : Z) (j n_sent : Z) : M Z :=
  match fuel with
  | O => out_of_fuel
  | S fuel' =>
      do nr <- gets nr_clients;
      if j <? nr then
        do cs <- gets clients;
        match array_get cs j with
        | None => undefined
        | Some p =>
            do success <- dpdk_enqueue_to_runtime net_hdr p;
            if success : bool then
              broadcast_loop fuel' net_hdr (wrap16 (j + 1))
                             (wrap16 (n_sent + 1))
            else
              log_warn "dpdk: failed to enqueue broadcast packet to runtime" >>
              broadcast_loop fuel' net_hdr (wrap16 (j + 1)) n_sent
        end
      else ret n_sent
  end.

(** The body of the loop of [dpdk_rx_burst], for the buffer [buf]. *)
Definition rx_packet (buf : Z) : M unit :=
  do m <- load_mbuf buf;
  let ptr_dst_addr := d_addr m in
  log_debug "dpdk: rx packet with MAC" >>
  if is_unicast_ether_addr ptr_dst_addr then
    do h <- gets mac_to_proc;
    match rte_hash_lookup_data h ptr_dst_addr with
    | None =>
        log_warn "dpdk: received packet for unregistered MAC" >>
        rte_pktmbuf_free buf
    | Some p =>
        do net_hdr <- dpdk_prepend_rx_preamble buf;
        do ok <- dpdk_enqueue_to_runtime net_hdr p;
        if ok : bool then ret tt
        else
          log_warn "dpdk: failed to enqueue unicast packet to runtime" >>
          rte_pktmbuf_free buf
    end
  else
    do nr <- gets nr_clients;
    if is_broadcast_ether_addr ptr_dst_addr && (0 <? nr) then
      do net_hdr <- dpdk_prepend_rx_preamble buf;
      do n_sent <- broadcast_loop (S (Z.to_nat nr)) net_hdr 0 0;
      if n_sent =? 0 then rte_pktmbuf_free buf
      else rte_mbuf_refcnt_update buf (to_int16 (n_sent - 1))
    else
      log_warn "dpdk: unhandled packet with MAC" >>
      rte_pktmbuf_free buf.

Fixpoint rx_packets (bufs : list Z) : M unit :=
  match bufs with
  | [] => ret tt
  | buf :: bufs' => rx_packet buf >> rx_packets bufs'
  end.

(** [dpdk_rx_burst]. *)
Definition dpdk_rx_burst (port : Z) : M unit :=
  do bufs <- rte_eth_rx_burst PKT_BURST_SIZE;
  (if 0 <? Z.of_nat (length bufs)
   then log_debug "dpdk: received packets on port"
   else ret tt) >>
  rx_packets bufs.

(** ** The client registry *)

(** [dpdk_add_client]. *)
Definition dpdk_add_client (p : Z) : M unit :=
  do nr <- gets nr_clients;
  do cs <- gets clients;
  match array_set cs nr p with
  | None => undefined
  | Some cs' =>
      modify (set_clients cs') >>
      modify (set_nr_clients (nr + 1)) >>
      do pr <- load_proc p;
      do h <- gets mac_to_proc;
      let '(r, h') := rte_hash_add_key_data h (mac pr) p in
      modify (set_mac_to_proc h') >>
      if r <? 0
      then log_err "dpdk: failed to add MAC to hash table in add_client"
      else ret tt
  end.

(** The search loop of [dpdk_remove_client]; it returns [i]. *)
Fixpoint find_client (fuel : nat) (p : Z) (i : Z) : M Z :=
  match fuel with
  | O => out_of_fuel
  | S fuel' =>
      do nr <- gets nr_clients;
      if i <? nr then
        do cs <- gets clients;
        match array_get cs i with
        | None => undefined
        | Some c => if c =? p then ret i else find_client fuel' p (i + 1)
        end
      else ret i
  end.

(** [dpdk_remove_client]. *)
Definition dpdk_remove_client (p : Z) : M unit :=
  do nr <- gets nr_clients;
  do i <- find_client (S (Z.to_nat nr)) p 0;
  if i =? nr then log_warn "WARN"
  else
    do cs <- gets clients;
    match array_get cs (nr - 1) with
    | None => undefined
    | Some last =>
        match array_set cs i last with
        | None => undefined
        | Some cs' =>
            modify (set_clients cs') >>
            modify (set_nr_clients (nr - 1)) >>
            do pr <- load_proc p;
            do h <- gets mac_to_proc;
            let '(r, h') := rte_hash_del_key h (mac pr) in
            modify (set_mac_to_proc h') >>
            (if r <? 0
             then log_err
               "dpdk: failed to remove MAC from hash table in remove client"
             else ret tt) >>
            do c <- gets lrpc_data_to_control;
            let '(ok, c') := lrpc_send c CONTROL_PLANE_REMOVE_CLIENT p in
            modify (set_lrpc_data_to_control c') >>
            emit (EvSend ChanDataToControl CONTROL_PLANE_REMOVE_CLIENT p ok) >>
            if ok : bool then ret tt
            else log_err "dpdk: failed to inform control of client removal"
        end
    end.

(** ** The control channel *)

(** The [while] loop of [dpdk_rx_control_lrpcs]: [lrpc_recv] is the left
    operand of [&&], so it runs before [n_rx] is compared with the burst
    size. *)
Fixpoint rx_control_loop (fuel : nat) (n_rx : Z) : M unit :=
  match fuel with
  | O => out_of_fuel
  | S fuel' =>
      do r <- lrpc_recv;
      match r with
      | None => ret tt
      | Some (cmd, payload) =>
          if n_rx <? CONTROL_BURST_SIZE then
            let p := payload in
            (if cmd =? DATAPLANE_ADD_CLIENT then dpdk_add_client p
             else if cmd =? DATAPLANE_REMOVE_CLIENT then dpdk_remove_client p
             else log_err "dpdk: received unrecognized command") >>
            rx_control_loop fuel' (wrap16 (n_rx + 1))
          else ret tt
      end
  end.

(** [dpdk_rx_control_lrpcs]. *)
Definition dpdk_rx_control_lrpcs : M unit :=
  rx_control_loop (S (Z.to_nat CONTROL_BURST_SIZE)) 0.

(** One turn of the loop of [dpdk_loop]. *)
Definition dpdk_loop_turn (port : Z) : M unit :=
  dpdk_rx_burst port >> dpdk_rx_control_lrpcs.

(** ** The mbuf pool in shared memory *)

Module Pool.

(** [struct rte_mempool]: its address and the three [uint32_t] sizes
    that [rte_mempool_create_empty] computes for one element. *)
Record rte_mempool := {
  mp_addr : Z;
  header_size : Z;
  elt_size : Z;
  trailer_size : Z
}.

(** The calls that leave [dpdk_pktmbuf_pool_create_in_shm]. *)
Inductive pool_event :=
| PoolLogErr (msg : string)
| MempoolCreateEmpty (n elt_sz cache_size private_data_size socket_id : Z)
| MempoolSetOps (mp : Z)
| PktmbufPoolInit (mp data_room_size priv_size : Z)
| MemMapShm (size pg_size : Z) (res : option Z)
| MempoolPopulateVirt (mp shbuf len pg_size free_cb_opaque : Z) (r : Z)
| MempoolObjIter (mp : Z)
| MemUnmapShm (shbuf : Z)
| MempoolFree (mp : Z).

(** What DPDK and the operating system answer: the pool that
    [rte_mempool_create_empty] returns (or NULL), the return value of
    [rte_mempool_set_ops_byname], the address from [mem_map_shm] (or
    MAP_FAILED), and the return value of [rte_mempool_populate_virt]. *)
Record pool_env := {
  create_empty_result : option rte_mempool;
  set_ops_ret : Z;
  map_shm_result : option Z;
  populate_ret : Z
}.

(** What the constructor leaves behind: its return value, the global
    [ingress_mbuf_region] (base, len) when it was written, and the calls
    it made, in order. *)
Record pool_outcome := {
  pool_ret : option rte_mempool;
  ingress_mbuf_region : option (Z * Z);
  pool_trace : list pool_event
}.

Definition sizeof_rte_mbuf : Z := 128.
Definition sizeof_rte_pktmbuf_pool_private : Z := 4.
Definition RTE_MBUF_PRIV_ALIGN : Z := 8.
Definition PGSIZE_2MB : Z := Z.shiftl 1 21.

(** [RTE_ALIGN] on a [uint16_t]. *)
Definition RTE_ALIGN16 (v align : Z) : Z :=
  wrap16 (Z.land (v + (align - 1)) (Z.lnot (align - 1))).

(** [RTE_ALIGN_CEIL] on a [size_t]. *)
Definition RTE_ALIGN_CEIL (v align : Z) : Z :=
  wrap64 (Z.land (wrap64 (v + (align - 1))) (wrap64 (Z.lnot (align - 1)))).

(** [rte_bsf32]: the index of the least significant set bit. *)
Definition rte_bsf32 (v : Z) : Z := Z.log2 (Z.land v (- v)).

(** [rte_mempool_xmem_size] of [rte_mempool.c]: the bytes needed to store
    [elt_num] elements of [total_elt_sz] bytes in pages of
    [2 ^ pg_shift] bytes, no element crossing a page boundary. *)
Definition rte_mempool_xmem_size (elt_num total_elt_sz pg_shift : Z) : Z :=
  if total_elt_sz =? 0 then 0
  else if pg_shift =? 0 then wrap64 (total_elt_sz * elt_num)
  else
    let pg_sz := wrap64 (Z.shiftl 1 pg_shift) in
    let obj_per_page := pg_sz / total_elt_sz in
    if obj_per_page =? 0
    then wrap64 (RTE_ALIGN_CEIL total_elt_sz pg_sz * elt_num)
    else
      let pg_num := wrap64 (elt_num + obj_per_page - 1) / obj_per_page in
      wrap64 (Z.shiftl pg_num pg_shift).

Section Create.

(** [INGRESS_MBUF_SHM_SIZE] and [INGRESS_MBUF_SHM_KEY] are defined in
    [iokernel/shm.h], which is not among the sources. *)
Variable INGRESS_MBUF_SHM_SIZE : Z.

(** The three exits of the function, one per label. *)
Definition fail (name : string) (region : option (Z * Z))
    (tr : list pool_event) : pool_outcome :=
  {| pool_ret := None;
     ingress_mbuf_region := region;
     pool_trace := tr ++ [PoolLogErr "dpdk: couldn't create pktmbuf pool"] |}.

Definition fail_free_mempool (name : string) (mp : rte_mempool)
    (region : option (Z * Z)) (tr : list pool_event) : pool_outcome :=
  fail name region (tr ++ [MempoolFree (mp_addr mp)]).

Definition fail_unmap_memory (name : string) (shbuf : Z) (mp : rte_mempool)
    (region : option (Z * Z)) (tr : list pool_event) : pool_outcome :=
  fail_free_mempool name mp region (tr ++ [MemUnmapShm shbuf]).

(** [dpdk_pktmbuf_pool_create_in_shm]. *)
Definition dpdk_pktmbuf_pool_create_in_shm (env : pool_env) (name : string)
    (n cache_size priv_size data_room_size socket_id : Z) : pool_outcome :=
  if negb (RTE_ALIGN16 priv_size RTE_MBUF_PRIV_ALIGN =? priv_size) then
    fail name None [PoolLogErr "dpdk: mbuf priv_size is not aligned"]
  else
    let elt_sz := wrap32 (sizeof_rte_mbuf + priv_size + data_room_size) in
    let tr1 := [MempoolCreateEmpty n elt_sz cache_size
                  sizeof_rte_pktmbuf_pool_private socket_id] in
    match create_empty_result env with
    | None => fail name None tr1
    | Some mp =>
        let tr2 := tr1 ++ [MempoolSetOps (mp_addr mp)] in
        if negb (set_ops_ret env =? 0) then
          fail_free_mempool name mp None
            (tr2 ++ [PoolLogErr "dpdk: error setting mempool handler"])
        else
          let tr3 :=
            tr2 ++ [PktmbufPoolInit (mp_addr mp) data_room_size priv_size] in
          let total_elt_sz :=
            wrap32 (header_size mp + elt_size mp + trailer_size mp) in
          let pg_size := PGSIZE_2MB in
          let pg_shift := rte_bsf32 pg_size in
          let len := rte_mempool_xmem_size n total_elt_sz pg_shift in
          if INGRESS_MBUF_SHM_SIZE <? len then
            fail_free_mempool name mp None
              (tr3 ++ [PoolLogErr
                 "dpdk: shared memory is too small for number of mbufs"])
          else
            let tr4 :=
              tr3 ++ [MemMapShm INGRESS_MBUF_SHM_SIZE pg_size
                        (map_shm_result env)] in
            match map_shm_result env with
            | None =>
                fail_free_mempool name mp None
                  (tr4 ++ [PoolLogErr "dpdk: mem_map_shm failed"])
            | Some shbuf =>
                let region := Some (shbuf, len) in
                let tr5 :=
                  tr4 ++ [MempoolPopulateVirt (mp_addr mp) shbuf len pg_size
                            shbuf (populate_ret env)] in
                if populate_ret env <? 0 then
                  fail_unmap_memory name shbuf mp region
                    (tr5 ++ [PoolLogErr "dpdk: error populating mempool"])
                else
                  {| pool_ret := Some mp;
                     ingress_mbuf_region := region;
                     pool_trace := tr5 ++ [MempoolObjIter (mp_addr mp)] |}
            end
    end.

End Create.

(** The size of one element of the pool, header and trailer included. *)
Definition total_elt_sz (mp : rte_mempool) : Z :=
  header_size mp + elt_size mp + trailer_size mp.

Definition is_map_shm (e : pool_event) : bool :=
  match e with MemMapShm _ _ _ => true | _ => false end.

Definition is_unmap_shm (e : pool_event) : bool :=
  match e with MemUnmapShm _ => true | _ => false end.

Definition is_mempool_free (e : pool_event) : bool :=
  match e with MempoolFree _ => true | _ => false end.

(** A pool of mbufs with the default data room, and answers of DPDK and
    the operating system under which the mapping succeeds and the
    population of the pool fails. *)
Definition example_pool : rte_mempool :=
  {| mp_addr := 8192; header_size := 64; elt_size := 2304;
     trailer_size := 0 |}.

Definition populate_fails : pool_env :=
  {| create_empty_result := Some example_pool; set_ops_ret := 0;
     map_shm_result := Some 1073741824; populate_ret := -12 |}.

End Pool.

(** ** Vocabulary of the properties *)

Definition is_free_of (buf : Z) (e : event) : bool :=
  match e with EvFree b => b =? buf | _ => false end.

Definition is_refcnt_update_of (buf : Z) (e : event) : bool :=
  match e with EvRefcntUpdate b _ => b =? buf | _ => false end.

Definition is_send (e : event) : bool :=
  match e with EvSend _ _ _ _ => true | _ => false end.

Definition is_send_ok (e : event) : bool :=
  match e with EvSend _ _ _ ok => ok | _ => false end.

Definition is_warning (e : event) : bool :=
  match e with EvLog LOG_WARN _ => true | _ => false end.

Definition count_events (f : event → bool) (evs : list event) : Z :=
  Z.of_nat (length (List.filter f evs)).

(** The registered clients: the first [nr_clients] slots of the array. *)
Definition client_list (s : dp_state) : list Z :=
  take (Z.to_nat (nr_clients s)) (clients s).

Definition registered (s : dp_state) (p : Z) : bool :=
  existsb (Z.eqb p) (client_list s).

(** How many slots of the client list hold [p]. *)
Definition registrations (s : dp_state) (p : Z) : nat :=
  count_occ Z.eq_dec (client_list s) p.

(** The hardware addresses of the registered clients. *)
Definition client_macs (s : dp_state) : list ether_addr :=
  omap (λ p, mac <$> procs s !! p) (client_list s).

(** The count is within the array. *)
Definition dp_bounds (s : dp_state) : bool :=
  (0 <=? nr_clients s) && (nr_clients s <=? Z.of_nat (length (clients s))).

(** The array has the length the declaration gives it. *)
Definition dp_array (s : dp_state) : bool :=
  Z.of_nat (length (clients s)) =? IOKERNEL_MAX_PROC.

(** A process descriptor with at least one thread, all of them there. *)
Definition proc_ok (pr : proc) : bool :=
  (1 <=? thread_count pr) &&
  (thread_count pr <=? Z.of_nat (length (threads pr))).

(** Every registered client points to such a descriptor. *)
Definition clients_live (s : dp_state) : bool :=
  forallb (λ p, match procs s !! p with
                | Some pr => proc_ok pr
                | None => false
                end) (client_list s).

(** The headroom of the buffer has room for one preamble, and the packet
    length stays a [uint32_t] when the preamble is counted in. *)
Definition preamble_space_reserved (m : rte_mbuf) : bool :=
  (sizeof_rx_net_hdr <=? data_off m) &&
  (0 <=? pkt_len m) && (pkt_len m + sizeof_rx_net_hdr <? 2 ^ 32).

(** The preamble that [dpdk_prepend_rx_preamble] computes for a buffer
    with packet length [pkt_len m] and offload flags [ol_flags m], and the
    buffer with that preamble in front of its data. *)
Definition preamble_of (m : rte_mbuf) : rx_net_hdr :=
  {| len := pkt_len m; rss_hash := 0;
     csum_type :=
       if Z.land (ol_flags m) PKT_RX_IP_CKSUM_MASK =? PKT_RX_IP_CKSUM_GOOD
       then CHECKSUM_TYPE_UNNECESSARY else CHECKSUM_TYPE_NEEDED;
     csum := 0 |}.

Definition with_preamble (m : rte_mbuf) : rte_mbuf :=
  {| buf_addr := buf_addr m;
     data_off := data_off m - sizeof_rx_net_hdr;
     data_len := wrap16 (data_len m + sizeof_rx_net_hdr);
     pkt_len := pkt_len m + sizeof_rx_net_hdr;
     ol_flags := ol_flags m; refcnt := refcnt m; d_addr := d_addr m;
     preambles := preamble_of m :: preambles m;
     in_pool := in_pool m |}.

(** The value the next call of [rand()] returns. *)
Definition next_rand (s : dp_state) : Z :=
  rand_src s (rand_pos s) mod (RAND_MAX + 1).

(** The channel is full: a send on it fails. *)
Definition chan_full (c : lrpc_chan_out) : bool :=
  chan_size c <=? Z.of_nat (length (chan_msgs c)).

(** The ingress channel that the next enqueue to [p] goes to is full. *)
Definition next_rxq_full (s : dp_state) (p : Z) : bool :=
  match procs s !! p with
  | Some pr =>
      match choose_thread (next_rand s) (thread_count pr) with
      | Some i =>
          match (if i <? 0 then None else threads pr !! Z.to_nat i) with
          | Some t => chan_full (rxq t)
          | None => false
          end
      | None => false
      end
  | None => false
  end.

(** The three ways in which [rx_packet] drops a frame with destination
    address [d_addr m]. *)
Inductive dropped (s : dp_state) (m : rte_mbuf) : Prop :=
| drop_unregistered :
    is_unicast_ether_addr (d_addr m) = true →
    rte_hash_lookup_data (mac_to_proc s) (d_addr m) = None →
    dropped s m
| drop_enqueue_failed (p : Z) :
    is_unicast_ether_addr (d_addr m) = true →
    rte_hash_lookup_data (mac_to_proc s) (d_addr m) = Some p →
    preamble_space_reserved m = true →
    next_rxq_full s p = true →
    dropped s m
| drop_unhandled :
    is_unicast_ether_addr (d_addr m) = false →
    is_broadcast_ether_addr (d_addr m) = false →
    dropped s m.

(** The commands of the control plane, and the states a sequence of them
    leads through. *)
Inductive op :=
| AddClient (p : Z)
| RemoveClient (p : Z).

Definition apply_op (o : op) : M unit :=
  match o with
  | AddClient p => dpdk_add_client p
  | RemoveClient p => dpdk_remove_client p
  end.

Fixpoint run_ops (ops : list op) (s : dp_state) : result (list dp_state) :=
  match ops with
  | [] => Ok []
  | o :: ops' =>
      match apply_op o s with
      | Ok (_, s') =>
          match run_ops ops' s' with
          | Ok l => Ok (s' :: l)
          | Err e => Err e
          end
      | Err e => Err e
      end
  end.

(** The keys of the hash table are the addresses of the client list. *)
Definition registry_consistent (s : dp_state) : Prop :=
  dom (hash_table (mac_to_proc s)) =@{gset ether_addr}
  list_to_set (client_macs s).

(** An [AddClient] is admissible when the array has a free slot, the
    process is live, no registered client has its address, and the hash
    table has room; a [RemoveClient] always is. *)
Definition op_admissible (s : dp_state) (o : op) : bool :=
  match o with
  | AddClient p =>
      (nr_clients s <? Z.of_nat (length (clients s))) &&
      match procs s !! p with
      | Some pr =>
          bool_decide (mac pr ∉ client_macs s) &&
          (Z.of_nat (size (hash_table (mac_to_proc s)))
             <? hash_entries (mac_to_proc s))
      | None => false
      end
  | RemoveClient _ => true
  end.

(** A sequence of commands is admissible when each of them is, in the
    state the commands before it lead to. *)
Fixpoint admissible (ops : list op) (s : dp_state) : bool :=
  match ops with
  | [] => true
  | o :: ops' =>
      op_admissible s o &&
      match apply_op o s with
      | Ok (_, s') => admissible ops' s'
      | Err _ => true
      end
  end.

(** The invariant of the registry: the count is within the array, every
    registered client is live, no two share an address, and the table
    holds exactly their addresses. *)
Definition registry_inv (s : dp_state) : Prop :=
  dp_bounds s = true ∧
  Forall (λ p, is_Some (procs s !! p)) (client_list s) ∧
  NoDup (client_macs s) ∧
  registry_consistent s.

(** The globals of the data plane are the same in both states: only the
    process descriptors, the buffers, the random generator and the trace
    may differ. *)
Definition same_globals (s s' : dp_state) : Prop :=
  clients s' = clients s ∧
  nr_clients s' = nr_clients s ∧
  mac_to_proc s' = mac_to_proc s ∧
  lrpc_control_to_data s' = lrpc_control_to_data s ∧
  lrpc_data_to_control s' = lrpc_data_to_control s ∧
  ingress_mbuf_region_base s' = ingress_mbuf_region_base s ∧
  nic_rx_queue s' = nic_rx_queue s ∧
  rand_src s' = rand_src s.

(** ** Example states *)

Definition broadcast_mac : ether_addr := (255, 255, 255, 255, 255, 255).

Definition empty_chan (size : Z) : lrpc_chan_out :=
  {| chan_size := size; chan_msgs := [] |}.

(** A process with two threads whose ingress channels hold [size]
    messages. *)
Definition example_proc (a : ether_addr) (size : Z) : proc :=
  {| mac := a; thread_count := 2;
     threads := [ {| rxq := empty_chan size |};
                  {| rxq := empty_chan size |} ] |}.

(** A buffer as the receive ring delivers it: one reference, the default
    headroom of 128 bytes, a frame of 64 bytes. *)
Definition example_mbuf (dst : ether_addr) (flags : Z) : rte_mbuf :=
  {| buf_addr := 4096; data_off := 128; data_len := 64; pkt_len := 64;
     ol_flags := flags; refcnt := 1; d_addr := dst; preambles := [];
     in_pool := false |}.

(** Three processes at the addresses 1000, 2000 and 3000, with the
    unicast hardware addresses [mac_of 1], [mac_of 2] and [mac_of 3]. *)
Definition mac_of (n : Z) : ether_addr := (2, 0, 0, 0, 0, n).

Definition example_procs : gmap Z proc :=
  {[ 1000 := example_proc (mac_of 1) 4;
     2000 := example_proc (mac_of 2) 4;
     3000 := example_proc (mac_of 3) 4 ]}.

(** One process whose ingress channels have no room at all. *)
Definition full_procs : gmap Z proc :=
  {[ 1000 := example_proc (mac_of 1) 0 ]}.

(** The state after [dpdk_init]: no client, an empty table. *)
Definition dp_init (ps : gmap Z proc) (ms : gmap Z rte_mbuf)
    (cmds : list (Z * Z)) : dp_state :=
  {| clients := replicate (Z.to_nat IOKERNEL_MAX_PROC) 0;
     nr_clients := 0;
     mac_to_proc := {| hash_entries := MAC_TO_PROC_ENTRIES;
                       hash_table := ∅ |};
     lrpc_control_to_data := cmds;
     lrpc_data_to_control := empty_chan 8;
     ingress_mbuf_region_base := 0;
     procs := ps; mbufs := ms; nic_rx_queue := [];
     rand_src := λ _, 0; rand_pos := 0%nat; trace := [] |}.

(** The three processes registered, and one broadcast frame in buffer 1
    whose IP checksum the driver reports as good. *)
Definition three_clients_broadcast : dp_state :=
  {| clients := [1000; 2000; 3000]
                ++ replicate (Z.to_nat IOKERNEL_MAX_PROC - 3) 0;
     nr_clients := 3;
     mac_to_proc :=
       {| hash_entries := MAC_TO_PROC_ENTRIES;
          hash_table := {[ mac_of 1 := 1000; mac_of 2 := 2000;
                           mac_of 3 := 3000 ]} |};
     lrpc_control_to_data := [];
     lrpc_data_to_control := empty_chan 8;
     ingress_mbuf_region_base := 0;
     procs := example_procs;
     mbufs := {[ 1 := example_mbuf broadcast_mac PKT_RX_IP_CKSUM_GOOD ]};
     nic_rx_queue := [];
     rand_src := λ n, Z.of_nat n; rand_pos := 0%nat; trace := [] |}.

(** Two processes that were given the same hardware address. *)
Definition twin_procs : gmap Z proc :=
  {[ 1000 := example_proc (mac_of 1) 4;
     2000 := example_proc (mac_of 1) 4 ]}.

(** Twenty live processes at the addresses 1000, 2000, ..., 20000, and
    one [DATAPLANE_ADD_CLIENT] command for each of them, in that order. *)
Definition twenty_procs : gmap Z proc :=
  list_to_map (map (λ i, (1000 * i, example_proc (mac_of i) 4)) (seqZ 1 20)).

Definition twenty_adds : list (Z * Z) :=
  map (λ i, (DATAPLANE_ADD_CLIENT, 1000 * i)) (seqZ 1 20).

(** The state a sequence of commands leads to, when all of them return. *)
Definition after_ops (ops : list op) (s : dp_state) : dp_state :=
  match run_ops ops s with
  | Ok l => List.last l s
  | Err _ => s
  end.

(** A state whose table was created for a single key and holds it. *)
Definition full_table_state : dp_state :=
  set_mac_to_proc
    {| hash_entries := 1; hash_table := {[ mac_of 2 := 2000 ]} |}
    (after_ops [AddClient 2000] (dp_init example_procs ∅ [])).

(** The state above, with no room left in the outbound channel. *)
Definition outbound_full_state : dp_state :=
  set_lrpc_data_to_control (empty_chan 0)
    (after_ops [AddClient 1000; AddClient 2000]
       (dp_init example_procs ∅ [])).

(** The process, the command and the payload of a send on an ingress
    channel. *)
Definition rxq_send (e : event) : option (Z * Z * Z) :=
  match e with
  | EvSend (ChanRxq p _) cmd payload _ => Some (p, cmd, payload)
  | _ => None
  end.

(** A buffer whose headroom is too small for the preamble. *)
Definition cramped_mbuf (dst : ether_addr) : rte_mbuf :=
  {| buf_addr := 4096; data_off := 8; data_len := 64; pkt_len := 64;
     ol_flags := 0; refcnt := 1; d_addr := dst; preambles := [];
     in_pool := false |}.

(** Forty buffers on the receive ring, each with a unicast frame for an
    address that nobody registered. *)
Definition burst_state : dp_state :=
  set_nic_rx_queue (seqZ 1 40)
    (dp_init example_procs
       (list_to_map (map (λ i, (i, example_mbuf (mac_of 9) 0)) (seqZ 1 40)))
       []).

(** The three processes registered, and one unicast frame for the second
    of them in buffer 1. *)
Definition unicast_state : dp_state :=
  set_mbufs {[ 1 := example_mbuf (mac_of 2) PKT_RX_IP_CKSUM_GOOD ]}
    three_clients_broadcast.

(** What the body of the loop of [dpdk_rx_control_lrpcs] does with one
    message, and the same for a list of messages, one after the other. *)
Definition dispatch_command (msg : Z * Z) : M unit :=
  if msg.1 =? DATAPLANE_ADD_CLIENT then dpdk_add_client msg.2
  else if msg.1 =? DATAPLANE_REMOVE_CLIENT then dpdk_remove_client msg.2
  else log_err "dpdk: received unrecognized command".

Fixpoint dispatch_all (msgs : list (Z * Z)) : M unit :=
  match msgs with
  | [] => ret tt
  | msg :: msgs' => dispatch_command msg >> dispatch_all msgs'
  end.

(** A result with its state transformed. *)
Definition on_state {A} (f : dp_state → dp_state)
    (r : result (A * dp_state)) : result (A * dp_state) :=
  match r with
  | Ok (a, s) => Ok (a, f s)
  | Err e => Err e
  end.

(** [n] turns of the loop of [dpdk_loop]. *)
Fixpoint dpdk_loop_turns (n : nat) (port : Z) : M unit :=
  match n with
  | O => ret tt
  | S n' => dpdk_loop_turn port >> dpdk_loop_turns n' port
  end.

(** Two commands that the data plane does not know. *)
Definition unknown_commands : list (Z * Z) := [(7, 0); (9, 5)].

(** A command that is neither of the two the data plane knows. *)
Definition unknown_command (msg : Z * Z) : bool :=
  negb (msg.1 =? DATAPLANE_ADD_CLIENT) &&
  negb (msg.1 =? DATAPLANE_REMOVE_CLIENT).

(** ** Rewriting the headers of a frame *)

(** The two header rewriters work on the bytes of a buffer, from its
    data pointer ([rte_pktmbuf_mtod]) to the end of the buffer.  A byte
    is a [Z] below 256; an access past the end of the buffer is
    undefined and gives nothing. *)
Definition is_byte (b : Z) : bool := (0 <=? b) && (b <? 256).

Definition read_bytes (off n : nat) (d : list Z) : option (list Z) :=
  if (off + n <=? length d)%nat then Some (take n (drop off d)) else None.

Definition write_bytes (off : nat) (bs d : list Z) : option (list Z) :=
  if (off + length bs <=? length d)%nat
  then Some (take off d ++ bs ++ drop (off + length bs) d)
  else None.

(** Integer fields are read and written in the byte order of the host,
    which is little-endian on the x86-64 machines the I/O kernel runs
    on. *)
Fixpoint le_decode (bs : list Z) : Z :=
  match bs with
  | [] => 0
  | b :: r => b + 256 * le_decode r
  end.

Fixpoint le_encode (n : nat) (v : Z) : list Z :=
  match n with
  | O => []
  | S k => v mod 256 :: le_encode k (v / 256)
  end.

Definition load_le (n off : nat) (d : list Z) : option Z :=
  le_decode <$> read_bytes off n d.

Definition store_le (n off : nat) (v : Z) (d : list Z)
  : option (list Z) :=
  write_bytes off (le_encode n v) d.

(** [rte_cpu_to_be_16] on a little-endian host exchanges the two
    bytes. *)
Definition rte_cpu_to_be_16 (x : Z) : Z :=
  Z.lor (Z.shiftl (Z.land x 0xff) 8) (Z.land (Z.shiftr x 8) 0xff).

(** The layout of [struct ether_hdr] and [struct ipv4_hdr], both
    packed, as DPDK declares them. *)
Definition ETHER_ADDR_LEN : nat := 6.
Definition ETHER_TYPE_IPv4 : Z := 0x0800.
Definition offsetof_d_addr : nat := 0.
Definition offsetof_s_addr : nat := 6.
Definition offsetof_ether_type : nat := 12.
Definition sizeof_ether_hdr : nat := 14.
Definition offsetof_src_addr : nat := 12.
Definition offsetof_dst_addr : nat := 16.

(** [ether_addr_copy (from, to)] inside one buffer. *)
Definition ether_addr_copy (from to : nat) (d : list Z)
  : option (list Z) :=
  a ← read_bytes from ETHER_ADDR_LEN d;
  write_bytes to a d.

(** [dpdk_swap_ether_src_dest]: the source address goes to a local, the
    destination is copied over the source, the local over the
    destination. *)
Definition dpdk_swap_ether_src_dest (d : list Z) : option (list Z) :=
  src_addr ← read_bytes offsetof_s_addr ETHER_ADDR_LEN d;
  d1 ← ether_addr_copy offsetof_d_addr offsetof_s_addr d;
  write_bytes offsetof_d_addr src_addr d1.

(** [dpdk_swap_ip_src_dest]: the new bytes of the buffer, and the ether
    type that the warning prints when the frame is not IPv4. *)
Definition dpdk_swap_ip_src_dest (d : list Z)
  : option (list Z * option Z) :=
  ether_type ← load_le 2 offsetof_ether_type d;
  if negb (ether_type =? rte_cpu_to_be_16 ETHER_TYPE_IPv4)
  then Some (d, Some ether_type)
  else
    src_addr ← load_le 4 (sizeof_ether_hdr + offsetof_src_addr) d;
    dst_addr ← load_le 4 (sizeof_ether_hdr + offsetof_dst_addr) d;
    d1 ← store_le 4 (sizeof_ether_hdr + offsetof_src_addr) dst_addr d;
    d2 ← store_le 4 (sizeof_ether_hdr + offsetof_dst_addr) src_addr d1;
    Some (d2, None).

(** An IPv4 frame with addresses 10.0.0.1 and 10.0.0.2, and an ARP
    frame. *)
Definition ipv4_frame : list Z :=
  [1; 2; 3; 4; 5; 6] ++ [7; 8; 9; 10; 11; 12] ++ [8; 0]
  ++ [69; 0; 0; 20; 0; 0; 0; 0; 64; 17; 0; 0]
  ++ [10; 0; 0; 1] ++ [10; 0; 0; 2] ++ [222; 173].

Definition arp_frame : list Z :=
  [255; 255; 255; 255; 255; 255] ++ [7; 8; 9; 10; 11; 12] ++ [8; 6]
  ++ [0; 1; 8; 0; 6; 4; 0; 1].

(** ** Bringing the data plane up *)

Module Init.

Definition RX_RING_SIZE : Z := 128.
Definition TX_RING_SIZE : Z := 512.
Definition NUM_MBUFS : Z := 8191.
Definition MBUF_CACHE_SIZE : Z := 250.
Definition ETHER_ADDR_LEN : Z := 6.
(** [RTE_MBUF_DEFAULT_BUF_SIZE]: the default data room and the
    headroom. *)
Definition RTE_MBUF_DEFAULT_BUF_SIZE : Z := 2048 + 128.

(** The calls that leave the initialisation, and what it prints. *)
Inductive init_event :=
| EalInit (argv : list string)
| PoolCall (e : Pool.pool_event)
| EthDevConfigure (port nb_rx_q nb_tx_q : Z)
| EthDevAdjustNbRxTxDesc (port nb_rxd nb_txd : Z)
| EthRxQueueSetup (port q nb_rxd socket_id mbuf_pool : Z)
| EthTxQueueSetup (port q nb_txd socket_id : Z)
| EthDevStart (port : Z)
| StdoutMac (port : Z) (addr : ether_addr)
| EthPromiscuousEnable (port : Z)
| Stdout (msg : string)
| LogErr (msg : string)
| HashCreate (name : string) (entries key_len init_val socket_id : Z)
| LrpcInitIn
| LrpcInitOut.

(** What DPDK, the operating system and the LRPC library answer. *)
Record init_env := {
  eal_init_ret : Z;
  eth_dev_count : Z;
  socket_id : Z;
  lcore_count : Z;
  pool : Pool.pool_env;
  dev_configure_ret : Z;
  adjust_ret : Z;
  adjusted_nb_rxd : Z;
  adjusted_nb_txd : Z;
  dev_socket_id : Z;
  rx_queue_setup_ret : Z;
  tx_queue_setup_ret : Z;
  dev_start_ret : Z;
  macaddr : ether_addr;
  hash_create_ok : bool;
  lrpc_init_in_ret : Z;
  lrpc_init_out_ret : Z
}.

(** Conversion to [int], the type of the [socket_id] parameter of
    [dpdk_pktmbuf_pool_create_in_shm] and of the field of
    [struct rte_hash_parameters], from the [unsigned] that
    [rte_socket_id] returns. *)
Definition to_int32 (x : Z) : Z := (x + 2 ^ 31) mod 2 ^ 32 - 2 ^ 31.

(** [dpdk_port_init]: the return value and the calls made, in order.
    Both loops over the queues make one turn, as [rx_rings] and
    [tx_rings] are 1.  The [int] that [rte_eth_dev_socket_id] returns is
    passed to the [unsigned int] parameter of the two queue set-ups, so
    it arrives there converted: -1 as 4294967295. *)
Definition dpdk_port_init (env : init_env) (port mbuf_pool : Z)
  : Z * list init_event :=
  let rx_rings := 1 in
  let tx_rings := 1 in
  if eth_dev_count env <=? port then (-1, [])
  else
    let tr1 := [EthDevConfigure port rx_rings tx_rings] in
    let retval := dev_configure_ret env in
    if negb (retval =? 0) then (retval, tr1)
    else
      let tr2 :=
        tr1 ++ [EthDevAdjustNbRxTxDesc port RX_RING_SIZE TX_RING_SIZE] in
      let retval := adjust_ret env in
      if negb (retval =? 0) then (retval, tr2)
      else
        let nb_rxd := adjusted_nb_rxd env in
        let nb_txd := adjusted_nb_txd env in
        let tr3 :=
          tr2 ++ [EthRxQueueSetup port 0 nb_rxd
                    (wrap32 (dev_socket_id env)) mbuf_pool] in
        let retval := rx_queue_setup_ret env in
        if retval <? 0 then (retval, tr3)
        else
          let tr4 :=
            tr3 ++ [EthTxQueueSetup port 0 nb_txd
                      (wrap32 (dev_socket_id env))] in
          let retval := tx_queue_setup_ret env in
          if retval <? 0 then (retval, tr4)
          else
            let tr5 := tr4 ++ [EthDevStart port] in
            let retval := dev_start_ret env in
            if retval <? 0 then (retval, tr5)
            else
              (0, tr5 ++ [StdoutMac port (macaddr env);
                          EthPromiscuousEnable port]).

(** [dpdk_init_control_comm]. *)
Definition dpdk_init_control_comm (env : init_env) : Z * list init_event :=
  if lrpc_init_in_ret env <? 0 then
    (-1, [LrpcInitIn;
          LogErr "dpdk: initializing LRPC from control plane failed"])
  else if lrpc_init_out_ret env <? 0 then
    (-1, [LrpcInitIn; LrpcInitOut;
          LogErr "dpdk: initializing LRPC to control plane failed"])
  else (0, [LrpcInitIn; LrpcInitOut]).

(** [rte_hash_create]: an empty table for [entries] keys, or NULL. *)
Definition rte_hash_create (env : init_env) (entries : Z)
  : option rte_hash :=
  if hash_create_ok env
  then Some {| hash_entries := entries; hash_table := ∅ |}
  else None.

(** [dpdk_init] either returns or leaves the process through
    [rte_exit]. *)
Inductive init_outcome :=
| Returned (ret : Z)
| Exited (msg : string).

(** The outcome, the globals the initialisation has written, and the
    calls it made. *)
Record init_result := {
  init_ret : init_outcome;
  init_mac_to_proc : option rte_hash;
  init_ingress_mbuf_region : option (Z * Z);
  init_trace : list init_event
}.

Section Boot.

Variable INGRESS_MBUF_SHM_SIZE : Z.

Definition rte_exit (msg : string) (h : option rte_hash)
    (region : option (Z * Z)) (tr : list init_event) : init_result :=
  {| init_ret := Exited msg; init_mac_to_proc := h;
     init_ingress_mbuf_region := region; init_trace := tr |}.

(** [dpdk_init]. *)
Definition dpdk_init (env : init_env) (port : Z) : init_result :=
  let argv := ["./iokerneld"; "-l"; "2"; "--socket-mem=128"]%string in
  let tr0 := [EalInit argv] in
  if eal_init_ret env <? 0 then
    rte_exit "Error with EAL initialization" None None tr0
  else
    let nb_ports := eth_dev_count env in
    if nb_ports <? 1 then
      rte_exit "Error: no available ports" None None tr0
    else
      let out :=
        Pool.dpdk_pktmbuf_pool_create_in_shm INGRESS_MBUF_SHM_SIZE
          (pool env) "MBUF_POOL" (wrap32 (NUM_MBUFS * nb_ports))
          MBUF_CACHE_SIZE 0 RTE_MBUF_DEFAULT_BUF_SIZE
          (to_int32 (socket_id env)) in
      let region := Pool.ingress_mbuf_region out in
      let tr1 := tr0 ++ (PoolCall <$> Pool.pool_trace out) in
      match Pool.pool_ret out with
      | None => rte_exit "Cannot create mbuf pool" None region tr1
      | Some mbuf_pool =>
          let '(r, trp) :=
            dpdk_port_init env port (Pool.mp_addr mbuf_pool) in
          let tr2 := tr1 ++ trp in
          if negb (r =? 0) then
            rte_exit "Cannot init port" None region tr2
          else
            let tr3 :=
              if 1 <? lcore_count env
              then tr2 ++ [Stdout
                     "WARNING: Too many lcores enabled. Only 1 used."]
              else tr2 in
            let tr4 :=
              tr3 ++ [HashCreate "mac_to_proc_hash_table"
                        MAC_TO_PROC_ENTRIES ETHER_ADDR_LEN 0
                        (to_int32 (socket_id env))] in
            match rte_hash_create env MAC_TO_PROC_ENTRIES with
            | None =>
                rte_exit "Failed to create MAC to proc hash table"
                  None region tr4
            | Some h =>
                let '(r, trc) := dpdk_init_control_comm env in
                let tr5 := tr4 ++ trc in
                if r <? 0 then
                  rte_exit
                    "Cannot initialize communication with control plane"
                    (Some h) region tr5
                else
                  {| init_ret := Returned 0;
                     init_mac_to_proc := Some h;
                     init_ingress_mbuf_region := region;
                     init_trace := tr5 |}
            end
      end.

End Boot.

Definition is_pool_call (e : init_event) : bool :=
  match e with PoolCall _ => true | _ => false end.

Definition is_port_call (e : init_event) : bool :=
  match e with
  | EthDevConfigure _ _ _ | EthDevAdjustNbRxTxDesc _ _ _
  | EthRxQueueSetup _ _ _ _ _ | EthTxQueueSetup _ _ _ _
  | EthDevStart _ | StdoutMac _ _ | EthPromiscuousEnable _ => true
  | _ => false
  end.

(** Everything [dpdk_port_init] does when nothing fails; the socket of
    the device reaches the queue set-ups as an [unsigned int]. *)
Definition port_init_calls (env : init_env) (port mbuf_pool : Z)
  : list init_event :=
  [EthDevConfigure port 1 1;
   EthDevAdjustNbRxTxDesc port RX_RING_SIZE TX_RING_SIZE;
   EthRxQueueSetup port 0 (adjusted_nb_rxd env)
     (wrap32 (dev_socket_id env)) mbuf_pool;
   EthTxQueueSetup port 0 (adjusted_nb_txd env)
     (wrap32 (dev_socket_id env));
   EthDevStart port;
   StdoutMac port (macaddr env);
   EthPromiscuousEnable port].

(** The data plane as [dpdk_init] leaves it: the statics of [dpdk.c]
    hold their initial zeros, the table is the one just created; the
    descriptors, the buffers and the pending commands belong to the
    control plane and the device. *)
Definition boot_state (h : rte_hash) (region : option (Z * Z))
    (ps : gmap Z proc) (ms : gmap Z rte_mbuf) (cmds : list (Z * Z))
    (to_control : lrpc_chan_out) : dp_state :=
  {| clients := replicate (Z.to_nat IOKERNEL_MAX_PROC) 0;
     nr_clients := 0;
     mac_to_proc := h;
     lrpc_control_to_data := cmds;
     lrpc_data_to_control := to_control;
     ingress_mbuf_region_base := default 0 (fst <$> region);
     procs := ps; mbufs := ms; nic_rx_queue := [];
     rand_src := λ _, 0; rand_pos := 0%nat; trace := [] |}.

(** One port, and every call answered with success. *)
Definition all_well : init_env :=
  {| eal_init_ret := 0; eth_dev_count := 1; socket_id := 0;
     lcore_count := 1;
     pool := {| Pool.create_empty_result := Some Pool.example_pool;
                Pool.set_ops_ret := 0;
                Pool.map_shm_result := Some 1073741824;
                Pool.populate_ret := 0 |};
     dev_configure_ret := 0; adjust_ret := 0;
     adjusted_nb_rxd := 128; adjusted_nb_txd := 512;
     dev_socket_id := 0;
     rx_queue_setup_ret := 0; tx_queue_setup_ret := 0;
     dev_start_ret := 0;
     macaddr := (2, 0, 0, 0, 0, 1);
     hash_create_ok := true;
     lrpc_init_in_ret := 0; lrpc_init_out_ret := 0 |}.

End Init.

(** * Properties *)

(** The loops are unfolded one turn at a time, where a proof asks. *)
Arguments broadcast_loop : simpl never.
Arguments find_client : simpl never.
Arguments rx_control_loop : simpl never.

(** ** Stepping through the monad *)

Ltac unfold_monad :=
  unfold log_err, log_warn, log_debug, emit, load_proc, load_mbuf,
    store_mbuf, rand, undefined, out_of_fuel, bind, gets, modify, ret in *.

Lemma same_globals_refl (s : dp_state) : same_globals s s.
Proof. repeat split. Qed.

Lemma same_globals_trans (s1 s2 s3 : dp_state) :
  same_globals s1 s2 → same_globals s2 s3 → same_globals s1 s3.
Proof.
  unfold same_globals. intros H12 H23.
  destruct H12 as (?&?&?&?&?&?&?&?), H23 as (?&?&?&?&?&?&?&?).
  repeat split; congruence.
Qed.

Lemma client_list_same (s s' : dp_state) :
  same_globals s s' → client_list s' = client_list s.
Proof.
  intros (Hc & Hn & _). unfold client_list. by rewrite Hc, Hn.
Qed.

(** ** Choosing a thread *)

Lemma next_rand_range (s : dp_state) : 0 ≤ next_rand s ≤ RAND_MAX.
Proof.
  unfold next_rand, RAND_MAX.
  pose proof (Z.mod_pos_bound (rand_src s (rand_pos s)) (2147483647 + 1)).
  lia.
Qed.

Lemma choose_thread_in_bounds (r count : Z) :
  0 ≤ r → 1 ≤ count →
  ∃ i, choose_thread r count = Some i ∧ 0 ≤ i < count.
Proof.
  intros Hr Hc. unfold choose_thread.
  destruct (Z.eqb_spec count 0) as [->|_]; [lia|].
  exists (Z.rem r count). split; [done|].
  apply Z.rem_bound_pos; lia.
Qed.

(** What one enqueue does once the thread is known: one send on that
    thread's ingress channel, which succeeds unless the channel is full;
    nothing but that channel, the generator and the trace is touched. *)
Lemma enqueue_run (s : dp_state) (net_hdr p : Z) (pr : proc) (i : Z)
    (t : thread) :
  procs s !! p = Some pr →
  choose_thread (next_rand s) (thread_count pr) = Some i →
  (if i <? 0 then None else threads pr !! Z.to_nat i) = Some t →
  ∃ s',
    dpdk_enqueue_to_runtime net_hdr p s = Ok (negb (chan_full (rxq t)), s') ∧
    same_globals s s' ∧
    mbufs s' = mbufs s ∧
    procs s' =
      <[p := set_rxq (lrpc_send (rxq t) RX_NET_RECV
                        (net_hdr - ingress_mbuf_region_base s)).2
                     (Z.to_nat i) pr]> (procs s) ∧
    rand_pos s' = S (rand_pos s) ∧
    trace s' =
      trace s ++ [EvSend (ChanRxq p i) RX_NET_RECV
                    (net_hdr - ingress_mbuf_region_base s)
                    (negb (chan_full (rxq t)))].
Proof.
  intros Hp Hi Ht.
  unfold dpdk_enqueue_to_runtime. unfold_monad. simpl. rewrite Hp.
  fold (next_rand s). rewrite Hi, Ht.
  unfold lrpc_send, chan_full.
  destruct (Z.ltb_spec (Z.of_nat (length (chan_msgs (rxq t))))
              (chan_size (rxq t))) as [Hlt|Hge];
    destruct (Z.leb_spec (chan_size (rxq t))
                (Z.of_nat (length (chan_msgs (rxq t))))); try lia;
    eexists; repeat split; reflexivity.
Qed.

(** For a descriptor with all its threads the thread is in bounds, so the
    enqueue returns. *)
Lemma enqueue_spec (s : dp_state) (net_hdr p : Z) (pr : proc) :
  procs s !! p = Some pr →
  proc_ok pr = true →
  ∃ i t s',
    dpdk_enqueue_to_runtime net_hdr p s = Ok (negb (chan_full (rxq t)), s') ∧
    0 ≤ i < thread_count pr ∧
    threads pr !! Z.to_nat i = Some t ∧
    same_globals s s' ∧
    mbufs s' = mbufs s ∧
    procs s' =
      <[p := set_rxq (lrpc_send (rxq t) RX_NET_RECV
                        (net_hdr - ingress_mbuf_region_base s)).2
                     (Z.to_nat i) pr]> (procs s) ∧
    trace s' =
      trace s ++ [EvSend (ChanRxq p i) RX_NET_RECV
                    (net_hdr - ingress_mbuf_region_base s)
                    (negb (chan_full (rxq t)))].
Proof.
  intros Hp Hok. unfold proc_ok in Hok.
  apply andb_prop in Hok as [H1 H2].
  apply Z.leb_le in H1. apply Z.leb_le in H2.
  destruct (choose_thread_in_bounds (next_rand s) (thread_count pr))
    as (i & Hi & Hrange); [apply next_rand_range | done |].
  destruct (lookup_lt_is_Some_2 (threads pr) (Z.to_nat i)) as [t Ht]; [lia|].
  destruct (enqueue_run s net_hdr p pr i t) as (s' & Hrun & ? & ? & ? & ? & ?);
    [done | done | |].
  { destruct (Z.ltb_spec i 0); [lia | done]. }
  by exists i, t, s'.
Qed.

(** C9: [dpdk_enqueue_to_runtime] picks the thread [rand() % thread_count].
    For a process with at least one thread the index lies in
    [0, thread_count), and when the descriptor has all its threads the call
    returns after one send on that thread's channel; for a process with no
    thread the modulo divides by zero, which is undefined. *)
Theorem enqueue_thread_in_bounds (s : dp_state) (net_hdr p : Z) (pr : proc) :
  procs s !! p = Some pr →
  (1 ≤ thread_count pr →
     ∃ i, choose_thread (next_rand s) (thread_count pr) = Some i ∧
          0 ≤ i < thread_count pr) ∧
  (proc_ok pr = true →
     ∃ i ok s',
       dpdk_enqueue_to_runtime net_hdr p s = Ok (ok, s') ∧
       0 ≤ i < thread_count pr ∧
       trace s' =
         trace s ++ [EvSend (ChanRxq p i) RX_NET_RECV
                       (net_hdr - ingress_mbuf_region_base s) ok]) ∧
  (thread_count pr = 0 →
     dpdk_enqueue_to_runtime net_hdr p s = Err UndefinedBehaviour).
Proof.
  intros Hp. repeat split.
  - intros H1. apply choose_thread_in_bounds; [apply next_rand_range | done].
  - intros Hok.
    destruct (enqueue_spec s net_hdr p pr Hp Hok)
      as (i & t & s' & Hrun & Hi & _ & _ & _ & _ & Htr).
    by exists i, (negb (chan_full (rxq t))), s'.
  - intros H0. unfold dpdk_enqueue_to_runtime. unfold_monad. simpl.
    rewrite Hp, H0. reflexivity.
Qed.

Lemma enqueue_thread_in_bounds_witness :
  (∃ i, choose_thread (next_rand (dp_init example_procs ∅ [])) 2 = Some i ∧
        0 ≤ i < 2) ∧
  (∃ i ok s',
     dpdk_enqueue_to_runtime 4208 1000 (dp_init example_procs ∅ [])
       = Ok (ok, s') ∧
     0 ≤ i < 2 ∧
     trace s' = [EvSend (ChanRxq 1000 i) RX_NET_RECV 4208 ok]).
Proof.
  destruct (enqueue_thread_in_bounds (dp_init example_procs ∅ []) 4208 1000
              (example_proc (mac_of 1) 4)) as (H1 & H2 & _).
  - reflexivity.
  - split; [apply H1; simpl; lia | apply H2; reflexivity].
Defined.

(** ** Adding a client *)

Lemma array_set_in_bounds (l : list Z) (i v : Z) :
  0 ≤ i < Z.of_nat (length l) →
  array_set l i v = Some (<[Z.to_nat i := v]> l).
Proof.
  intros H. unfold array_set.
  destruct (Z.leb_spec 0 i); [|lia].
  destruct (Z.ltb_spec i (Z.of_nat (length l))); [done|lia].
Qed.

Lemma array_set_out_of_bounds (l : list Z) (i v : Z) :
  Z.of_nat (length l) ≤ i → array_set l i v = None.
Proof.
  intros H. unfold array_set.
  destruct (Z.ltb_spec i (Z.of_nat (length l))); [lia|].
  by rewrite andb_false_r.
Qed.

(** What [dpdk_add_client] does when the slot is inside the array and the
    process is live. *)
Lemma add_client_spec (s : dp_state) (p : Z) (pr : proc) :
  0 ≤ nr_clients s < Z.of_nat (length (clients s)) →
  procs s !! p = Some pr →
  ∃ s',
    dpdk_add_client p s = Ok (tt, s') ∧
    clients s' = <[Z.to_nat (nr_clients s) := p]> (clients s) ∧
    nr_clients s' = nr_clients s + 1 ∧
    mac_to_proc s' = (rte_hash_add_key_data (mac_to_proc s) (mac pr) p).2 ∧
    procs s' = procs s ∧
    mbufs s' = mbufs s ∧
    lrpc_control_to_data s' = lrpc_control_to_data s ∧
    lrpc_data_to_control s' = lrpc_data_to_control s ∧
    (∀ e, e ∈ drop (length (trace s)) (trace s') → is_send e = false).
Proof.
  intros Hnr Hp. unfold dpdk_add_client. unfold_monad. simpl.
  rewrite (array_set_in_bounds _ _ _ Hnr). simpl. rewrite Hp.
  simpl.
  destruct (rte_hash_add_key_data (mac_to_proc s) (mac pr) p) as [r h'].
  simpl. destruct (r <? 0); (eexists; split; [reflexivity|]);
    repeat split; simpl.
  - intros e. rewrite drop_app_length. intros He.
    apply list_elem_of_singleton in He as ->. done.
  - intros e. rewrite drop_all. by intros ?%elem_of_nil.
Qed.

(** C8: [dpdk_add_client] checks no capacity.  As long as the registry
    holds fewer than [IOKERNEL_MAX_PROC] clients, the append writes slot
    [nr_clients] of the array, leaves the other slots and the length of
    the array alone, and the count grows by exactly one; when the registry
    is at capacity the write is outside the array, which is undefined. *)
Theorem add_client_capacity (s : dp_state) (p : Z) :
  dp_array s = true →
  (0 ≤ nr_clients s < IOKERNEL_MAX_PROC →
   is_Some (procs s !! p) →
     ∃ s', dpdk_add_client p s = Ok (tt, s') ∧
           nr_clients s' = nr_clients s + 1 ∧
           array_get (clients s') (nr_clients s) = Some p ∧
           length (clients s') = length (clients s) ∧
           ∀ j, j ≠ nr_clients s →
                array_get (clients s') j = array_get (clients s) j) ∧
  (nr_clients s = IOKERNEL_MAX_PROC →
     dpdk_add_client p s = Err UndefinedBehaviour).
Proof.
  unfold dp_array. intros Hlen%Z.eqb_eq. split.
  - intros Hnr [pr Hp].
    destruct (add_client_spec s p pr) as (s' & Hrun & Hc & Hn & _);
      [lia | done |].
    exists s'. rewrite Hc. repeat split; [done | done | | | ].
    + unfold array_get. destruct (Z.ltb_spec (nr_clients s) 0); [lia|].
      apply list_lookup_insert_eq. lia.
    + apply length_insert.
    + intros j Hj. unfold array_get. destruct (j <? 0) eqn:Hj0; [done|].
      apply Z.ltb_ge in Hj0. apply list_lookup_insert_ne. lia.
  - intros Hfull. unfold dpdk_add_client. unfold_monad. simpl.
    rewrite array_set_out_of_bounds by lia. reflexivity.
Qed.

Lemma add_client_capacity_witness :
  ∃ s', dpdk_add_client 1000 (dp_init example_procs ∅ []) = Ok (tt, s') ∧
        nr_clients s' = 1 ∧
        array_get (clients s') 0 = Some 1000 ∧
        length (clients s') = 128%nat.
Proof.
  destruct (add_client_capacity (dp_init example_procs ∅ []) 1000)
    as [Hadd _]; [reflexivity|].
  destruct Hadd as (s' & Hrun & Hn & Hget & Hlen & _).
  - simpl. unfold IOKERNEL_MAX_PROC. lia.
  - by eexists.
  - exists s'. repeat split; [done | done | done |].
    rewrite Hlen. reflexivity.
Defined.

(** ** Buffers *)

Lemma count_events_app (f : event → bool) (l1 l2 : list event) :
  count_events f (l1 ++ l2) = count_events f l1 + count_events f l2.
Proof.
  unfold count_events. rewrite List.filter_app, length_app. lia.
Qed.

Lemma count_events_nonneg (f : event → bool) (l : list event) :
  0 ≤ count_events f l.
Proof. unfold count_events. lia. Qed.

Lemma preamble_space_reserved_inv (m : rte_mbuf) :
  preamble_space_reserved m = true →
  sizeof_rx_net_hdr ≤ data_off m ∧
  0 ≤ pkt_len m ∧ pkt_len m + sizeof_rx_net_hdr < 2 ^ 32.
Proof.
  unfold preamble_space_reserved.
  intros [[H1 H2]%andb_prop H3]%andb_prop.
  apply Z.leb_le in H1, H2. apply Z.ltb_lt in H3. done.
Qed.

(** The preamble goes into the reserved headroom: the call returns the
    new start of the data and leaves the buffer as [with_preamble]
    describes it. *)
Lemma prepend_spec (s : dp_state) (buf : Z) (m : rte_mbuf) :
  mbufs s !! buf = Some m →
  preamble_space_reserved m = true →
  dpdk_prepend_rx_preamble buf s =
    Ok (buf_addr m + (data_off m - sizeof_rx_net_hdr),
        set_mbufs (<[buf := with_preamble m]> (mbufs s)) s).
Proof.
  intros Hm (Hoff & Hlo & Hhi)%preamble_space_reserved_inv.
  unfold dpdk_prepend_rx_preamble, rte_pktmbuf_prepend. unfold_monad.
  simpl. rewrite Hm.
  destruct (Z.ltb_spec (data_off m) sizeof_rx_net_hdr); [lia|].
  simpl. rewrite lookup_insert_eq. simpl.
  unfold set_mbufs. simpl. rewrite insert_insert_eq.
  unfold write_preamble, with_preamble, preamble_of. simpl.
  assert (Hsz : 0 < sizeof_rx_net_hdr) by reflexivity.
  assert (Hw : wrap32 (pkt_len m + sizeof_rx_net_hdr)
               = pkt_len m + sizeof_rx_net_hdr).
  { unfold wrap32. apply Z.mod_small. lia. }
  rewrite Hw.
  replace (pkt_len m + sizeof_rx_net_hdr - sizeof_rx_net_hdr)
    with (pkt_len m) by lia.
  assert (Hl : wrap32 (wrap64 (pkt_len m)) = pkt_len m).
  { unfold wrap32, wrap64. rewrite (Z.mod_small _ (2 ^ 64)) by lia.
    apply Z.mod_small. lia. }
  rewrite Hl. reflexivity.
Qed.

(** A prepend without enough headroom returns NULL, and the function goes
    on to write through it. *)
Lemma prepend_without_headroom (s : dp_state) (buf : Z) (m : rte_mbuf) :
  mbufs s !! buf = Some m →
  data_off m < sizeof_rx_net_hdr →
  dpdk_prepend_rx_preamble buf s = Err UndefinedBehaviour.
Proof.
  intros Hm Hoff.
  unfold dpdk_prepend_rx_preamble, rte_pktmbuf_prepend. unfold_monad.
  simpl. rewrite Hm.
  destruct (Z.ltb_spec (data_off m) sizeof_rx_net_hdr); [done|lia].
Qed.

(** Freeing a buffer: one [EvFree], and the buffer goes back to the pool
    when the reference was the only one. *)
Lemma free_spec (s : dp_state) (buf : Z) (m : rte_mbuf) :
  mbufs s !! buf = Some m →
  ∃ m',
    rte_pktmbuf_free buf s =
      Ok (tt, set_mbufs (<[buf := m']> (mbufs s))
                (set_trace (trace s ++ [EvFree buf]) s)) ∧
    preambles m' = preambles m ∧
    (refcnt m = 1 → m' = set_refcnt 1 true m).
Proof.
  intros Hm. unfold rte_pktmbuf_free. unfold_monad. simpl. rewrite Hm.
  destruct (Z.eqb_spec (refcnt m) 1) as [H1|H1]; simpl.
  - by eexists.
  - destruct (wrap16 (refcnt m - 1) =? 0); simpl; by eexists.
Qed.

Lemma refcnt_update_spec (s : dp_state) (buf value : Z) (m : rte_mbuf) :
  mbufs s !! buf = Some m →
  rte_mbuf_refcnt_update buf value s =
    Ok (tt, set_mbufs
              (<[buf := set_refcnt (wrap16 (refcnt m + value)) (in_pool m) m]>
                 (mbufs s))
              (set_trace (trace s ++ [EvRefcntUpdate buf value]) s)).
Proof.
  intros Hm. unfold rte_mbuf_refcnt_update. unfold_monad. simpl.
  by rewrite Hm.
Qed.

(** ** Dropped packets *)

Lemma broadcast_not_unicast (a : ether_addr) :
  is_broadcast_ether_addr a = true → is_unicast_ether_addr a = false.
Proof.
  destruct a as [[[[[b0 b1] b2] b3] b4] b5]. simpl.
  destruct (Z.eqb_spec b0 255) as [->|]; [|done]. done.
Qed.

Lemma set_rxq_id (pr : proc) (i : nat) (t : thread) :
  threads pr !! i = Some t → set_rxq (rxq t) i pr = pr.
Proof.
  intros Ht. destruct pr as [a n ts], t as [q]. unfold set_rxq. simpl in *.
  f_equal. by apply list_insert_id.
Qed.

Ltac free_step buf m :=
  match goal with
  | |- context [rte_pktmbuf_free buf ?s0] =>
      let m' := fresh "m'" in
      let Hfree := fresh "Hfree" in
      let Hpre := fresh "Hpre" in
      let Hpool := fresh "Hpool" in
      destruct (free_spec s0 buf m) as (m' & Hfree & Hpre & Hpool);
      [ simpl; try done; try apply lookup_insert_eq
      | rewrite Hfree; clear Hfree ]
  end.

(** C10: a broadcast frame that arrives while no client is registered
    takes the last branch of the classification: the buffer is freed once
    and a warning is logged; no preamble is written, no enqueue is
    attempted (no process descriptor changes, no random number is drawn)
    and the reference count is not updated. *)
Theorem broadcast_without_clients (s : dp_state) (buf : Z) (m : rte_mbuf) :
  mbufs s !! buf = Some m →
  is_broadcast_ether_addr (d_addr m) = true →
  nr_clients s = 0 →
  ∃ s' m',
    rx_packet buf s = Ok (tt, s') ∧
    trace s' =
      trace s ++ [EvLog LOG_DEBUG "dpdk: rx packet with MAC";
                  EvLog LOG_WARN "dpdk: unhandled packet with MAC";
                  EvFree buf] ∧
    procs s' = procs s ∧
    rand_pos s' = rand_pos s ∧
    same_globals s s' ∧
    mbufs s' !! buf = Some m' ∧
    preambles m' = preambles m.
Proof.
  intros Hm Hbc Hnr. unfold rx_packet. unfold_monad. simpl.
  rewrite Hm, (broadcast_not_unicast _ Hbc).
  simpl. rewrite Hbc, Hnr. simpl.
  free_step buf m.
  eexists _, m'. split; [reflexivity|]. simpl.
  rewrite <- !app_assoc. simpl. rewrite lookup_insert_eq.
  repeat split; done.
Qed.

Lemma broadcast_without_clients_witness :
  ∃ s' m',
    rx_packet 1 (dp_init example_procs
                   {[ 1 := example_mbuf broadcast_mac 128 ]} [])
      = Ok (tt, s') ∧
    trace s' = [EvLog LOG_DEBUG "dpdk: rx packet with MAC";
                EvLog LOG_WARN "dpdk: unhandled packet with MAC";
                EvFree 1] ∧
    procs s' = example_procs ∧
    mbufs s' !! 1 = Some m' ∧
    preambles m' = [].
Proof.
  destruct (broadcast_without_clients
              (dp_init example_procs
                 {[ 1 := example_mbuf broadcast_mac 128 ]} [])
              1 (example_mbuf broadcast_mac 128))
    as (s' & m' & Hrun & Htr & Hps & _ & _ & Hm' & Hpre);
    [reflexivity | reflexivity | reflexivity |].
  by exists s', m'.
Defined.

(** C5: a packet that [rx_packet] drops -- a unicast frame whose address
    is not in the table, a unicast frame whose one enqueue fails on a full
    channel, a frame that is neither unicast nor broadcast -- is freed
    exactly once, with one warning; no send succeeds and no ingress channel
    changes.  When the buffer had a single reference it is back in the
    pool. *)
Theorem dropped_packet_freed_once (s : dp_state) (buf : Z) (m : rte_mbuf) :
  mbufs s !! buf = Some m →
  dropped s m →
  ∃ s' evs m',
    rx_packet buf s = Ok (tt, s') ∧
    trace s' = trace s ++ evs ∧
    count_events (is_free_of buf) evs = 1 ∧
    count_events is_send_ok evs = 0 ∧
    count_events is_warning evs = 1 ∧
    procs s' = procs s ∧
    same_globals s s' ∧
    mbufs s' !! buf = Some m' ∧
    (refcnt m = 1 → in_pool m' = true).
Proof.
  intros Hm [Huni Hnone | p Huni Hsome Hroom Hfull | Huni Hbc].
  - unfold rx_packet. unfold_monad. simpl. rewrite Hm, Huni. simpl.
    rewrite Hnone. simpl.
    free_step buf m.
    eexists _, _, m'. split; [reflexivity|]. simpl.
    rewrite <- !app_assoc. simpl. rewrite lookup_insert_eq.
    split; [reflexivity|].
    unfold count_events. simpl. rewrite Z.eqb_refl.
    repeat split; try done. intros H1. by rewrite (Hpool H1).
  - unfold next_rxq_full in Hfull.
    destruct (procs s !! p) as [pr|] eqn:Hp; [|done].
    destruct (choose_thread (next_rand s) (thread_count pr)) as [i|] eqn:Hi;
      [|done].
    destruct (if i <? 0 then None else threads pr !! Z.to_nat i)
      as [t|] eqn:Ht; [|done].
    assert (Hti : threads pr !! Z.to_nat i = Some t).
    { destruct (i <? 0); [done | exact Ht]. }
    unfold rx_packet. unfold_monad. simpl. rewrite Hm, Huni. simpl.
    rewrite Hsome.
    match goal with
    | |- context [dpdk_prepend_rx_preamble buf ?s0] =>
        rewrite (prepend_spec s0 buf m Hm Hroom)
    end.
    match goal with
    | |- context [dpdk_enqueue_to_runtime ?h p ?s0] =>
        destruct (enqueue_run s0 h p pr i t Hp Hi Ht)
          as (s2 & Hrun & Hg & Hmb & Hps & Hrp & Htr)
    end.
    rewrite Hrun, Hfull. simpl.
    free_step buf (with_preamble m).
    { rewrite Hmb. simpl. apply lookup_insert_eq. }
    eexists _, _, m'. split; [reflexivity|]. simpl.
    rewrite Htr. simpl. rewrite <- !app_assoc. simpl.
    rewrite lookup_insert_eq. split; [reflexivity|].
    unfold count_events. simpl. rewrite Z.eqb_refl.
    repeat split; try apply Hg; try done.
    + by rewrite Hfull.
    + rewrite Hps. simpl. unfold lrpc_send.
      unfold chan_full in Hfull. apply Z.leb_le in Hfull.
      destruct (Z.ltb_spec (Z.of_nat (length (chan_msgs (rxq t))))
                  (chan_size (rxq t))); [lia|]. simpl.
      rewrite (set_rxq_id pr _ t Hti). by apply insert_id.
    + intros H1. by rewrite (Hpool H1).
  - unfold rx_packet. unfold_monad. simpl. rewrite Hm, Huni. simpl.
    rewrite Hbc. simpl.
    free_step buf m.
    eexists _, _, m'. split; [reflexivity|]. simpl.
    rewrite <- !app_assoc. simpl. rewrite lookup_insert_eq.
    split; [reflexivity|].
    unfold count_events. simpl. rewrite Z.eqb_refl.
    repeat split; try done. intros H1. by rewrite (Hpool H1).
Qed.

Lemma dropped_packet_freed_once_witness :
  ∃ s' evs m',
    rx_packet 1
      (after_ops [AddClient 1000]
         (dp_init full_procs {[ 1 := example_mbuf (mac_of 1) 0 ]} []))
      = Ok (tt, s') ∧
    trace s' = evs ∧
    count_events (is_free_of 1) evs = 1 ∧
    count_events is_send_ok evs = 0 ∧
    procs s' = full_procs ∧
    mbufs s' !! 1 = Some m' ∧
    in_pool m' = true.
Proof.
  destruct (dropped_packet_freed_once
              (after_ops [AddClient 1000]
                 (dp_init full_procs {[ 1 := example_mbuf (mac_of 1) 0 ]} []))
              1 (example_mbuf (mac_of 1) 0))
    as (s' & evs & m' & Hrun & Htr & Hfree & Hsend & _ & Hps & _ & Hm' & Hpool).
  - reflexivity.
  - apply (drop_enqueue_failed _ _ 1000); reflexivity.
  - exists s', evs, m'. repeat split; try done. by apply Hpool.
Defined.

(** ** The broadcast loop *)

Lemma dp_bounds_inv (s : dp_state) :
  dp_bounds s = true →
  0 ≤ nr_clients s ≤ Z.of_nat (length (clients s)).
Proof.
  unfold dp_bounds. intros [H1 H2]%andb_prop.
  apply Z.leb_le in H1, H2. lia.
Qed.

Lemma dp_bounds_same (s s' : dp_state) :
  same_globals s s' → dp_bounds s = true → dp_bounds s' = true.
Proof. intros (Hc & Hn & _). unfold dp_bounds. by rewrite Hc, Hn. Qed.

Lemma client_list_lookup (s : dp_state) (j : Z) :
  dp_bounds s = true →
  0 ≤ j < nr_clients s →
  ∃ p, array_get (clients s) j = Some p ∧
       client_list s !! Z.to_nat j = Some p.
Proof.
  intros Hb%dp_bounds_inv Hj.
  destruct (lookup_lt_is_Some_2 (clients s) (Z.to_nat j)) as [p Hp]; [lia|].
  exists p. unfold array_get, client_list.
  destruct (Z.ltb_spec j 0); [lia|]. split; [done|].
  rewrite lookup_take_lt by lia. done.
Qed.

Lemma clients_live_lookup (s : dp_state) (j : Z) :
  dp_bounds s = true →
  clients_live s = true →
  0 ≤ j < nr_clients s →
  ∃ p pr, array_get (clients s) j = Some p ∧
          procs s !! p = Some pr ∧ proc_ok pr = true.
Proof.
  intros Hb Hlive Hj.
  destruct (client_list_lookup s j Hb Hj) as (p & Hget & Hin).
  unfold clients_live in Hlive. rewrite forallb_forall in Hlive.
  specialize (Hlive p).
  destruct (procs s !! p) as [pr|] eqn:Hp.
  - exists p, pr. split; [done|]. split; [done|]. apply Hlive.
    apply list_elem_of_In. by eapply list_elem_of_lookup_2.
  - exfalso. assert (false = true); [|done]. apply Hlive.
    apply list_elem_of_In. by eapply list_elem_of_lookup_2.
Qed.

Lemma proc_ok_set_rxq (q : lrpc_chan_out) (i : nat) (pr : proc) :
  proc_ok (set_rxq q i pr) = proc_ok pr.
Proof. unfold proc_ok, set_rxq. simpl. by rewrite length_insert. Qed.

Lemma clients_live_enqueue (s s' : dp_state) (p : Z) (q : lrpc_chan_out)
    (i : nat) (pr : proc) :
  same_globals s s' →
  procs s !! p = Some pr →
  procs s' = <[p := set_rxq q i pr]> (procs s) →
  clients_live s = true → clients_live s' = true.
Proof.
  intros Hg Hp Hps Hlive. unfold clients_live in *.
  rewrite (client_list_same _ _ Hg). rewrite forallb_forall in *.
  intros c Hc. specialize (Hlive c Hc). rewrite Hps.
  destruct (decide (p = c)) as [<-|Hne].
  - rewrite lookup_insert_eq, proc_ok_set_rxq. by rewrite Hp in Hlive.
  - by rewrite lookup_insert_ne.
Qed.

Lemma wrap16_small (x : Z) : 0 ≤ x < 2 ^ 16 → wrap16 x = x.
Proof. intros H. unfold wrap16. by apply Z.mod_small. Qed.

(** The loop sends to every client from [j] on, and returns [n_sent]
    plus the number of sends that succeeded.  It leaves the globals and
    the buffers alone, and adds nothing but sends and warnings to the
    trace. *)
Lemma broadcast_loop_spec (net_hdr : Z) (fuel : nat) :
  ∀ (s : dp_state) (j n_sent : Z),
    dp_bounds s = true →
    Z.of_nat (length (clients s)) < 2 ^ 16 →
    clients_live s = true →
    0 ≤ j ≤ nr_clients s →
    nr_clients s - j < Z.of_nat fuel →
    0 ≤ n_sent ≤ j →
    ∃ s' evs,
      broadcast_loop fuel net_hdr j n_sent s
        = Ok (n_sent + count_events is_send_ok evs, s') ∧
      same_globals s s' ∧
      mbufs s' = mbufs s ∧
      trace s' = trace s ++ evs ∧
      count_events is_send evs = nr_clients s - j ∧
      Forall (λ e, is_send e || is_warning e = true) evs.
Proof.
  induction fuel as [|fuel IH]; intros s j n_sent Hb Hlen Hlive Hj Hfuel Hn.
  { lia. }
  pose proof (dp_bounds_inv s Hb) as Hnr.
  unfold broadcast_loop; fold broadcast_loop. unfold_monad. simpl.
  destruct (Z.ltb_spec j (nr_clients s)) as [Hlt|Hge].
  - destruct (clients_live_lookup s j Hb Hlive) as (p & pr & Hget & Hp & Hok);
      [lia|].
    rewrite Hget.
    destruct (enqueue_spec s net_hdr p pr Hp Hok)
      as (i & t & s1 & Hrun & Hi & Ht & Hg & Hmb & Hps & Htr).
    rewrite Hrun.
    pose proof Hg as (Hc1 & Hn1 & _).
    assert (Hb1 : dp_bounds s1 = true) by by eapply dp_bounds_same.
    assert (Hlive1 : clients_live s1 = true)
      by by eapply clients_live_enqueue.
    rewrite !wrap16_small by lia.
    destruct (negb (chan_full (rxq t))) eqn:Hsent.
    + destruct (IH s1 (j + 1) (n_sent + 1)) as (s' & evs & Hloop & Hg' & Hmb'
                                                 & Htr' & Hcnt & Hall);
        [done | congruence | done | lia | lia | lia |].
      exists s', (EvSend (ChanRxq p i) RX_NET_RECV
                    (net_hdr - ingress_mbuf_region_base s) true :: evs).
      rewrite Hloop. split_and!.
      * f_equal. f_equal. unfold count_events. simpl. lia.
      * by eapply same_globals_trans.
      * congruence.
      * rewrite Htr', Htr. by rewrite <- app_assoc.
      * unfold count_events in *. simpl. lia.
      * by constructor.
    + set (w := EvLog LOG_WARN
                  "dpdk: failed to enqueue broadcast packet to runtime").
      destruct (IH (set_trace (trace s1 ++ [w]) s1) (j + 1) n_sent)
        as (s' & evs & Hloop & Hg' & Hmb' & Htr' & Hcnt & Hall);
        [done | simpl; congruence | done | simpl; lia | simpl; lia | lia |].
      exists s', (EvSend (ChanRxq p i) RX_NET_RECV
                    (net_hdr - ingress_mbuf_region_base s) false :: w :: evs).
      rewrite Hloop. split_and!.
      * reflexivity.
      * by eapply same_globals_trans.
      * simpl in Hmb'. congruence.
      * rewrite Htr'. simpl. rewrite Htr. by rewrite <- !app_assoc.
      * unfold count_events in *. simpl in *. lia.
      * by repeat constructor.
  - exists s, []. split_and!.
    + f_equal. f_equal. unfold count_events. simpl. lia.
    + apply same_globals_refl.
    + done.
    + by rewrite app_nil_r.
    + unfold count_events. simpl. lia.
    + constructor.
Qed.

Lemma count_events_none (f g : event → bool) (evs : list event) :
  (∀ e, g e = true → f e = false) →
  Forall (λ e, g e = true) evs →
  count_events f evs = 0.
Proof.
  intros Hfg Hall. unfold count_events.
  induction Hall as [|e evs He _ IH]; [done|].
  simpl. by rewrite (Hfg e He).
Qed.

Lemma count_send_ok_le_send (evs : list event) :
  count_events is_send_ok evs ≤ count_events is_send evs.
Proof.
  unfold count_events. induction evs as [|e evs IH]; [done|].
  destruct e as [| | |c cmd pl []]; simpl in *; lia.
Qed.

Lemma to_int16_small (x : Z) : 0 ≤ x < 2 ^ 15 → to_int16 x = x.
Proof.
  intros H. unfold to_int16. rewrite Z.mod_small; lia.
Qed.

Lemma dp_array_inv (s : dp_state) :
  dp_array s = true → Z.of_nat (length (clients s)) = 128.
Proof. unfold dp_array. by intros ?%Z.eqb_eq. Qed.

(** The broadcast branch of [rx_packet]: one preamble, then one enqueue
    per registered client, then either the free (no send succeeded) or the
    update of the reference count by the number of successful sends less
    one.  [pre] is what the trace gains before that last call. *)
Lemma rx_broadcast_spec (s : dp_state) (buf : Z) (m : rte_mbuf) :
  dp_bounds s = true →
  dp_array s = true →
  clients_live s = true →
  mbufs s !! buf = Some m →
  is_broadcast_ether_addr (d_addr m) = true →
  0 < nr_clients s →
  preamble_space_reserved m = true →
  ∃ s' pre m',
    rx_packet buf s = Ok (tt, s') ∧
    same_globals s s' ∧
    mbufs s' = <[buf := m']> (mbufs s) ∧
    count_events is_send pre = nr_clients s ∧
    count_events (is_free_of buf) pre = 0 ∧
    count_events (is_refcnt_update_of buf) pre = 0 ∧
    preambles m' = preamble_of m :: preambles m ∧
    (count_events is_send_ok pre = 0 →
       trace s' = trace s ++ pre ++ [EvFree buf] ∧
       (refcnt m = 1 → m' = set_refcnt 1 true (with_preamble m))) ∧
    (0 < count_events is_send_ok pre →
       trace s' =
         trace s ++ pre ++
           [EvRefcntUpdate buf (count_events is_send_ok pre - 1)] ∧
       m' = set_refcnt
              (wrap16 (refcnt m + (count_events is_send_ok pre - 1)))
              (in_pool m) (with_preamble m)).
Proof.
  intros Hb Harr Hlive Hm Hbc Hnr Hroom.
  pose proof (dp_array_inv s Harr) as Hlen.
  pose proof (dp_bounds_inv s Hb) as Hbnd.
  unfold rx_packet. unfold_monad. simpl.
  rewrite Hm, (broadcast_not_unicast _ Hbc). simpl. rewrite Hbc.
  destruct (Z.ltb_spec 0 (nr_clients s)) as [_|?]; [|lia]. simpl.
  set (dbg := EvLog LOG_DEBUG "dpdk: rx packet with MAC").
  match goal with
  | |- context [dpdk_prepend_rx_preamble buf ?s0] =>
      rewrite (prepend_spec s0 buf m Hm Hroom)
  end.
  simpl.
  match goal with
  | |- context [broadcast_loop ?f ?h 0 0 ?s0] =>
      destruct (broadcast_loop_spec h f s0 0 0)
        as (s2 & evs & Hloop & Hg & Hmb & Htr & Hcnt & Hall);
      [ done | simpl; lia | done | simpl; lia | simpl; lia | lia | ]
  end.
  rewrite Hloop. simpl in Hmb, Htr, Hcnt. clear Hloop.
  assert (Hs : ∀ f, f dbg = false →
                    count_events f (dbg :: evs) = count_events f evs).
  { intros f Hf. unfold count_events. simpl. by rewrite Hf. }
  assert (Hne : ∀ f, f dbg = false →
                     (∀ e, is_send e || is_warning e = true → f e = false) →
                     count_events f (dbg :: evs) = 0).
  { intros f Hd Hf. rewrite (Hs f Hd).
    exact (count_events_none f _ evs Hf Hall). }
  pose proof (count_send_ok_le_send evs) as Hle.
  pose proof (count_events_nonneg is_send_ok evs) as Hge.
  assert (Hg0 : same_globals s s2).
  { eapply same_globals_trans; [|exact Hg]. repeat split. }
  destruct (Z.eqb_spec (0 + count_events is_send_ok evs) 0) as [H0|H0].
  - free_step buf (with_preamble m).
    { rewrite Hmb. apply lookup_insert_eq. }
    exists (set_mbufs (<[buf:=m']> (mbufs s2))
              (set_trace (trace s2 ++ [EvFree buf]) s2)),
           (dbg :: evs), m'.
    split_and!.
    + reflexivity.
    + eapply same_globals_trans; [exact Hg0|]. repeat split.
    + simpl. rewrite Hmb. apply insert_insert_eq.
    + rewrite Hs by done. lia.
    + apply Hne; [done|]. by intros [| | |] ?.
    + apply Hne; [done|]. by intros [| | |] ?.
    + done.
    + intros _. split; [|done]. simpl. rewrite Htr.
      by rewrite <- !app_assoc.
    + rewrite Hs by done. lia.
  - rewrite to_int16_small by lia.
    rewrite (refcnt_update_spec s2 buf _ (with_preamble m))
      by (rewrite Hmb; apply lookup_insert_eq).
    eexists _, (dbg :: evs), _.
    split_and!.
    + reflexivity.
    + eapply same_globals_trans; [exact Hg0|]. repeat split.
    + simpl. rewrite Hmb. apply insert_insert_eq.
    + rewrite Hs by done. lia.
    + apply Hne; [done|]. by intros [| | |] ?.
    + apply Hne; [done|]. by intros [| | |] ?.
    + done.
    + rewrite Hs by done. lia.
    + intros _. rewrite Hs by done. split.
      * simpl. rewrite Htr. rewrite <- !app_assoc. simpl.
        by rewrite Z.add_0_l.
      * by rewrite Z.add_0_l.
Qed.

(** C1: a broadcast frame dispatched while at least one client is
    registered.  [pre] holds one send per registered client and neither a
    free nor a reference count update of the buffer; with [N] the number of
    sends in [pre] that succeeded, the one call that follows is the free
    when [N = 0] (and the buffer, which had one reference, is back in the
    pool), and when [N > 0] the update of the reference count by [N - 1],
    which leaves the count at [N] and the buffer out of the pool. *)
Theorem broadcast_refcount (s : dp_state) (buf : Z) (m : rte_mbuf) :
  dp_bounds s = true →
  dp_array s = true →
  clients_live s = true →
  mbufs s !! buf = Some m →
  is_broadcast_ether_addr (d_addr m) = true →
  0 < nr_clients s →
  preamble_space_reserved m = true →
  refcnt m = 1 →
  ∃ s' pre m',
    rx_packet buf s = Ok (tt, s') ∧
    mbufs s' !! buf = Some m' ∧
    count_events is_send pre = nr_clients s ∧
    count_events (is_free_of buf) pre = 0 ∧
    count_events (is_refcnt_update_of buf) pre = 0 ∧
    (count_events is_send_ok pre = 0 →
       trace s' = trace s ++ pre ++ [EvFree buf] ∧
       in_pool m' = true) ∧
    (0 < count_events is_send_ok pre →
       trace s' =
         trace s ++ pre ++
           [EvRefcntUpdate buf (count_events is_send_ok pre - 1)] ∧
       refcnt m' = count_events is_send_ok pre ∧
       in_pool m' = in_pool m).
Proof.
  intros Hb Harr Hlive Hm Hbc Hnr Hroom Href.
  destruct (rx_broadcast_spec s buf m Hb Harr Hlive Hm Hbc Hnr Hroom)
    as (s' & pre & m' & Hrun & _ & Hmb & Hsend & Hfree & Hupd & _ & H0 & HN).
  exists s', pre, m'. split_and!; try done.
  - rewrite Hmb. apply lookup_insert_eq.
  - intros Hz. destruct (H0 Hz) as [Htr Hm']. split; [done|].
    by rewrite (Hm' Href).
  - intros Hpos. destruct (HN Hpos) as [Htr ->]. split; [done|].
    simpl. split; [|done]. rewrite Href.
    pose proof (count_send_ok_le_send pre).
    pose proof (dp_bounds_inv s Hb). pose proof (dp_array_inv s Harr).
    rewrite wrap16_small; lia.
Qed.

Lemma broadcast_refcount_witness :
  ∃ s' pre m',
    rx_packet 1 three_clients_broadcast = Ok (tt, s') ∧
    mbufs s' !! 1 = Some m' ∧
    count_events is_send pre = 3 ∧
    (0 < count_events is_send_ok pre →
       trace s' =
         pre ++ [EvRefcntUpdate 1 (count_events is_send_ok pre - 1)] ∧
       refcnt m' = count_events is_send_ok pre ∧
       in_pool m' = false).
Proof.
  destruct (broadcast_refcount three_clients_broadcast 1
              (example_mbuf broadcast_mac PKT_RX_IP_CKSUM_GOOD))
    as (s' & pre & m' & Hrun & Hm' & Hsend & _ & _ & _ & HN);
    [reflexivity | reflexivity | reflexivity | reflexivity | reflexivity
    | reflexivity | reflexivity | reflexivity |].
  by exists s', pre, m'.
Defined.

(** The scenario of the three registered processes, computed: each gets
    one RECEIVE for the same preamble, and the count ends at three. *)
Example broadcast_three_clients :
  match rx_packet 1 three_clients_broadcast with
  | Ok (_, s') =>
      trace s' = [EvLog LOG_DEBUG "dpdk: rx packet with MAC";
                  EvSend (ChanRxq 1000 0) RX_NET_RECV 4208 true;
                  EvSend (ChanRxq 2000 1) RX_NET_RECV 4208 true;
                  EvSend (ChanRxq 3000 0) RX_NET_RECV 4208 true;
                  EvRefcntUpdate 1 2] ∧
      (refcnt <$> mbufs s' !! 1) = Some 3
  | Err _ => False
  end.
Proof. vm_compute. split; reflexivity. Qed.

(** ** The preamble *)

(** C6: [dpdk_prepend_rx_preamble] on a buffer whose headroom holds the
    space reserved for the preamble.  The call returns the address of the
    preamble at the new start of the data; the length field is the packet
    length of the buffer, preamble included, minus the size of the
    preamble; the checksum status is UNNECESSARY exactly when the masked
    offload flags equal GOOD and NEEDED otherwise; the hash field is zero.
    In the broadcast branch the buffer ends with exactly that one preamble
    more, whatever the number of registered clients. *)
Theorem prepend_preamble_once (s : dp_state) (buf : Z) (m : rte_mbuf) :
  mbufs s !! buf = Some m →
  preamble_space_reserved m = true →
  (∃ s' m' hdr,
     dpdk_prepend_rx_preamble buf s = Ok (buf_addr m' + data_off m', s') ∧
     mbufs s' !! buf = Some m' ∧
     preambles m' = hdr :: preambles m ∧
     data_off m' = data_off m - sizeof_rx_net_hdr ∧
     len hdr = pkt_len m' - sizeof_rx_net_hdr ∧
     (csum_type hdr = CHECKSUM_TYPE_UNNECESSARY ↔
        Z.land (ol_flags m) PKT_RX_IP_CKSUM_MASK = PKT_RX_IP_CKSUM_GOOD) ∧
     (csum_type hdr = CHECKSUM_TYPE_NEEDED ↔
        Z.land (ol_flags m) PKT_RX_IP_CKSUM_MASK ≠ PKT_RX_IP_CKSUM_GOOD) ∧
     rss_hash hdr = 0 ∧
     trace s' = trace s) ∧
  (dp_bounds s = true → dp_array s = true → clients_live s = true →
   is_broadcast_ether_addr (d_addr m) = true → 0 < nr_clients s →
     ∃ s' m',
       rx_packet buf s = Ok (tt, s') ∧
       mbufs s' !! buf = Some m' ∧
       preambles m' = preamble_of m :: preambles m ∧
       length (preambles m') = S (length (preambles m))).
Proof.
  intros Hm Hroom. split.
  - exists (set_mbufs (<[buf := with_preamble m]> (mbufs s)) s),
           (with_preamble m), (preamble_of m).
    split_and!; try done.
    + apply (prepend_spec s buf m Hm Hroom).
    + simpl. apply lookup_insert_eq.
    + simpl. lia.
    + simpl. destruct (Z.eqb_spec (Z.land (ol_flags m) PKT_RX_IP_CKSUM_MASK)
                         PKT_RX_IP_CKSUM_GOOD); split; done.
    + simpl. destruct (Z.eqb_spec (Z.land (ol_flags m) PKT_RX_IP_CKSUM_MASK)
                         PKT_RX_IP_CKSUM_GOOD); split; done.
  - intros Hb Harr Hlive Hbc Hnr.
    destruct (rx_broadcast_spec s buf m Hb Harr Hlive Hm Hbc Hnr Hroom)
      as (s' & pre & m' & Hrun & _ & Hmb & _ & _ & _ & Hpre & _).
    exists s', m'. split_and!; try done.
    + rewrite Hmb. apply lookup_insert_eq.
    + by rewrite Hpre.
Qed.

Lemma prepend_preamble_once_witness :
  (∃ s' m' hdr,
     dpdk_prepend_rx_preamble 1 three_clients_broadcast
       = Ok (buf_addr m' + data_off m', s') ∧
     mbufs s' !! 1 = Some m' ∧
     preambles m' = [hdr] ∧
     data_off m' = 112 ∧
     len hdr = pkt_len m' - sizeof_rx_net_hdr ∧
     csum_type hdr = CHECKSUM_TYPE_UNNECESSARY ∧
     rss_hash hdr = 0) ∧
  (∃ s' m',
     rx_packet 1 three_clients_broadcast = Ok (tt, s') ∧
     mbufs s' !! 1 = Some m' ∧
     length (preambles m') = 1%nat).
Proof.
  destruct (prepend_preamble_once three_clients_broadcast 1
              (example_mbuf broadcast_mac PKT_RX_IP_CKSUM_GOOD))
    as [(s' & m' & hdr & Hrun & Hm' & Hpre & Hoff & Hlen & Hun & _ & Hh & _)
        Hbc];
    [reflexivity | reflexivity |].
  split.
  - exists s', m', hdr. split_and!; try done. by apply Hun.
  - destruct Hbc as (s2 & m2 & Hrun2 & Hm2 & _ & Hl);
      [reflexivity | reflexivity | reflexivity | reflexivity | reflexivity |].
    by exists s2, m2.
Defined.

(** On a buffer whose headroom is smaller than the preamble the call
    does not succeed: [rte_pktmbuf_prepend] returns NULL and the length
    is written through it.  The buffer gets no preamble, and a broadcast
    of it to three registered clients ends the same way. *)
Lemma prepend_preamble_cramped :
  mbufs (set_mbufs {[ 1 := cramped_mbuf broadcast_mac ]}
           three_clients_broadcast) !! 1
  = Some (cramped_mbuf broadcast_mac) ∧
  data_off (cramped_mbuf broadcast_mac) < sizeof_rx_net_hdr ∧
  preamble_space_reserved (cramped_mbuf broadcast_mac) = false ∧
  rte_pktmbuf_prepend 1 sizeof_rx_net_hdr
    (set_mbufs {[ 1 := cramped_mbuf broadcast_mac ]}
       three_clients_broadcast)
  = Ok (None, set_mbufs {[ 1 := cramped_mbuf broadcast_mac ]}
                three_clients_broadcast) ∧
  dpdk_prepend_rx_preamble 1
    (set_mbufs {[ 1 := cramped_mbuf broadcast_mac ]}
       three_clients_broadcast)
  = Err UndefinedBehaviour ∧
  rx_packet 1
    (set_mbufs {[ 1 := cramped_mbuf broadcast_mac ]}
       three_clients_broadcast)
  = Err UndefinedBehaviour.
Proof. vm_compute. repeat split. Qed.

(** ** Removing a client *)

Lemma registered_false (s : dp_state) (p : Z) :
  registered s p = false ↔ p ∉ client_list s.
Proof.
  unfold registered. rewrite <- not_true_iff_false, existsb_exists.
  rewrite list_elem_of_In. split.
  - intros Hno Hin. apply Hno. exists p. split; [done|]. apply Z.eqb_refl.
  - intros Hno (x & Hin & Heq). apply Z.eqb_eq in Heq as ->. done.
Qed.

Lemma registered_true (s : dp_state) (p : Z) :
  registered s p = true ↔ p ∈ client_list s.
Proof.
  destruct (registered s p) eqn:Hr.
  - split; [|done]. intros _.
    destruct (decide (p ∈ client_list s)) as [|Hno]; [done|].
    apply registered_false in Hno. congruence.
  - apply registered_false in Hr. split; [done|]. intros ?. done.
Qed.

(** The search returns the first slot below [nr_clients] that holds [p],
    or [nr_clients] when there is none; it changes nothing. *)
Lemma find_client_spec (p : Z) (fuel : nat) :
  ∀ (s : dp_state) (i : Z),
    dp_bounds s = true →
    0 ≤ i ≤ nr_clients s →
    nr_clients s - i < Z.of_nat fuel →
    ∃ k,
      find_client fuel p i s = Ok (k, s) ∧
      i ≤ k ≤ nr_clients s ∧
      (k < nr_clients s → array_get (clients s) k = Some p) ∧
      (∀ j, i ≤ j < k → array_get (clients s) j ≠ Some p).
Proof.
  induction fuel as [|fuel IH]; intros s i Hb Hi Hfuel; [lia|].
  unfold find_client; fold find_client. unfold_monad. simpl.
  destruct (Z.ltb_spec i (nr_clients s)) as [Hlt|Hge].
  - destruct (client_list_lookup s i Hb) as (c & Hget & _); [lia|].
    rewrite Hget.
    destruct (Z.eqb_spec c p) as [->|Hne].
    + exists i. split_and!; try done; try lia.
    + destruct (IH s (i + 1)) as (k & Hrun & Hk & Hfound & Hnot);
        [done | lia | lia |].
      exists k. split_and!; try done; try lia.
      intros j Hj. destruct (decide (j = i)) as [->|].
      * rewrite Hget. congruence.
      * apply Hnot. lia.
  - exists i. split_and!; try done; try lia.
Qed.

Lemma array_get_client_list (s : dp_state) (j p : Z) :
  dp_bounds s = true →
  0 ≤ j < nr_clients s →
  array_get (clients s) j = Some p → p ∈ client_list s.
Proof.
  intros Hb Hj Hget.
  destruct (client_list_lookup s j Hb Hj) as (c & Hget' & Hin).
  rewrite Hget in Hget'. injection Hget' as <-.
  by eapply list_elem_of_lookup_2.
Qed.

Lemma client_list_array_get (s : dp_state) (p : Z) :
  dp_bounds s = true →
  p ∈ client_list s →
  ∃ j, 0 ≤ j < nr_clients s ∧ array_get (clients s) j = Some p.
Proof.
  intros Hb%dp_bounds_inv Hin.
  apply list_elem_of_lookup in Hin as [n Hn].
  unfold client_list in Hn. apply lookup_take_Some in Hn as [Hl Hlt].
  exists (Z.of_nat n). split; [lia|]. unfold array_get.
  destruct (Z.ltb_spec (Z.of_nat n) 0); [lia|]. by rewrite Nat2Z.id.
Qed.

(** Removing a process that is not registered: a warning, and nothing
    else. *)
Lemma remove_absent (s : dp_state) (p : Z) :
  dp_bounds s = true →
  registered s p = false →
  dpdk_remove_client p s =
    Ok (tt, set_trace (trace s ++ [EvLog LOG_WARN "WARN"]) s).
Proof.
  intros Hb Hreg. pose proof (dp_bounds_inv s Hb) as Hnr.
  apply registered_false in Hreg.
  unfold dpdk_remove_client. unfold_monad. simpl.
  destruct (find_client_spec p (S (Z.to_nat (nr_clients s))) s 0)
    as (k & Hrun & Hk & Hfound & _); [done | lia | lia |].
  rewrite Hrun. simpl.
  destruct (Z.eqb_spec k (nr_clients s)) as [_|Hne]; [done|].
  exfalso. apply Hreg. apply (array_get_client_list s k); [done | lia |].
  apply Hfound. lia.
Qed.

(** Replacing slot [i] by the last of the first [n] slots and dropping
    that last slot removes one occurrence of what slot [i] held. *)
Lemma swap_remove_perm (l : list Z) (n i : nat) (x last : Z) :
  (i < n)%nat → (n ≤ length l)%nat →
  l !! i = Some x →
  l !! (n - 1)%nat = Some last →
  take n l ≡ₚ x :: take (n - 1) (<[i := last]> l).
Proof.
  intros Hi Hn Hx Hlast.
  replace n with (S (n - 1)) at 1 by lia.
  rewrite (take_S_r l (n - 1) last Hlast).
  destruct (decide (i = n - 1)%nat) as [->|Hne].
  - rewrite Hx in Hlast. injection Hlast as ->.
    rewrite list_insert_id by done.
    by rewrite Permutation_app_comm.
  - rewrite take_insert_lt by lia.
    assert (Hx' : take (n - 1) l !! i = Some x).
    { rewrite lookup_take_lt by lia. done. }
    rewrite insert_take_drop by (rewrite length_take; lia).
    rewrite <- (take_drop_middle (take (n - 1) l) i x Hx') at 1.
    rewrite <- app_assoc. simpl.
    rewrite <- Permutation_middle. constructor.
    apply Permutation_app_head.
    rewrite Permutation_app_comm. done.
Qed.

Lemma hash_del_table (h : rte_hash) (k : ether_addr) :
  hash_table (rte_hash_del_key h k).2 = delete k (hash_table h) ∧
  hash_entries (rte_hash_del_key h k).2 = hash_entries h.
Proof.
  unfold rte_hash_del_key.
  destruct (hash_table h !! k) eqn:Hk; simpl; [done|].
  by rewrite delete_id.
Qed.

(** Removing a registered process: one of its slots goes, the count drops
    by one, its address leaves the table, and the control plane is told,
    whether or not the message fits the channel. *)
Lemma remove_present (s : dp_state) (p : Z) (pr : proc) :
  dp_bounds s = true →
  registered s p = true →
  procs s !! p = Some pr →
  ∃ s',
    dpdk_remove_client p s = Ok (tt, s') ∧
    client_list s ≡ₚ p :: client_list s' ∧
    nr_clients s' = nr_clients s - 1 ∧
    length (clients s') = length (clients s) ∧
    hash_table (mac_to_proc s') = delete (mac pr) (hash_table (mac_to_proc s)) ∧
    hash_entries (mac_to_proc s') = hash_entries (mac_to_proc s) ∧
    procs s' = procs s ∧
    mbufs s' = mbufs s ∧
    lrpc_data_to_control s' =
      (lrpc_send (lrpc_data_to_control s) CONTROL_PLANE_REMOVE_CLIENT p).2 ∧
    count_events is_send (drop (length (trace s)) (trace s')) = 1.
Proof.
  intros Hb Hreg Hp. pose proof (dp_bounds_inv s Hb) as Hnr.
  apply registered_true in Hreg.
  destruct (client_list_array_get s p Hb Hreg) as (j & Hj & Hgetj).
  unfold dpdk_remove_client. unfold_monad. simpl.
  destruct (find_client_spec p (S (Z.to_nat (nr_clients s))) s 0)
    as (k & Hrun & Hk & Hfound & Hnot); [done | lia | lia |].
  rewrite Hrun. simpl.
  destruct (Z.eqb_spec k (nr_clients s)) as [Heq|Hne].
  { exfalso. apply (Hnot j); [lia | done]. }
  assert (Hklt : k < nr_clients s) by lia.
  specialize (Hfound Hklt).
  destruct (client_list_lookup s (nr_clients s - 1) Hb) as (last & Hlast & _);
    [lia|].
  rewrite Hlast. rewrite array_set_in_bounds by lia. simpl. rewrite Hp.
  simpl.
  destruct (hash_del_table (mac_to_proc s) (mac pr)) as [Htab Hent].
  destruct (rte_hash_del_key (mac_to_proc s) (mac pr)) as [r h'].
  simpl in Htab, Hent.
  assert (Hperm : client_list s ≡ₚ
            p :: take (Z.to_nat (nr_clients s - 1))
                   (<[Z.to_nat k := last]> (clients s))).
  { unfold client_list. rewrite Z2Nat.inj_sub by lia.
    apply swap_remove_perm; [lia | lia | |].
    - unfold array_get in Hfound.
      destruct (Z.ltb_spec k 0); [lia | done].
    - unfold array_get in Hlast.
      destruct (Z.ltb_spec (nr_clients s - 1) 0); [lia|].
      by rewrite Z2Nat.inj_sub in Hlast by lia. }
  destruct (r <? 0); simpl;
    destruct (lrpc_send (lrpc_data_to_control s)
                CONTROL_PLANE_REMOVE_CLIENT p) as [[] c']; simpl;
    (eexists; split; [reflexivity|]); simpl;
    (split_and!; try done; try apply length_insert);
    rewrite ?drop_app_length; simpl;
    rewrite <- ?app_assoc; rewrite ?drop_app_length; reflexivity.
Qed.

Lemma remove_present_bounds (s s' : dp_state) (p : Z) :
  dp_bounds s = true →
  registered s p = true →
  nr_clients s' = nr_clients s - 1 →
  length (clients s') = length (clients s) →
  dp_bounds s' = true.
Proof.
  intros Hb Hreg%registered_true Hn Hl.
  destruct (client_list_array_get s p Hb Hreg) as (j & Hj & _).
  apply dp_bounds_inv in Hb. unfold dp_bounds. rewrite Hn, Hl.
  apply andb_true_intro. split; apply Z.leb_le; lia.
Qed.

Lemma registrations_zero (s : dp_state) (p : Z) :
  registrations s p = 0%nat → registered s p = false.
Proof.
  unfold registrations. intros H0. apply registered_false.
  rewrite list_elem_of_In. by apply (count_occ_not_In Z.eq_dec).
Qed.

(** C4: removing a process that is not in the client registry is a
    no-op: the call returns, the client array, the count, the hash table
    and the outbound channel are what they were, and the trace gains one
    warning and no send.  When the process is registered at most once, a
    second removal right after the first is such a no-op. *)
Theorem remove_absent_noop (s : dp_state) (p : Z) :
  dp_bounds s = true →
  (registered s p = false →
     dpdk_remove_client p s =
       Ok (tt, set_trace (trace s ++ [EvLog LOG_WARN "WARN"]) s)) ∧
  ((registrations s p ≤ 1)%nat → is_Some (procs s !! p) →
     ∃ s1,
       dpdk_remove_client p s = Ok (tt, s1) ∧
       dpdk_remove_client p s1 =
         Ok (tt, set_trace (trace s1 ++ [EvLog LOG_WARN "WARN"]) s1)).
Proof.
  intros Hb. split; [by apply remove_absent|].
  intros Hone [pr Hp].
  destruct (registered s p) eqn:Hreg.
  - destruct (remove_present s p pr Hb Hreg Hp)
      as (s1 & Hrun & Hperm & Hn & Hl & _).
    exists s1. split; [done|]. apply remove_absent.
    + by eapply remove_present_bounds.
    + apply registrations_zero. unfold registrations in *.
      rewrite (Permutation_count_occ Z.eq_dec) in Hperm.
      specialize (Hperm p). rewrite count_occ_cons_eq in Hperm by done.
      lia.
  - rewrite (remove_absent s p Hb Hreg). eexists. split; [done|].
    apply remove_absent; [done|].
    apply registered_false. apply registered_false in Hreg. done.
Qed.

Lemma remove_absent_noop_witness :
  dpdk_remove_client 2000
    (after_ops [AddClient 1000] (dp_init example_procs ∅ []))
  = Ok (tt, set_trace [EvLog LOG_WARN "WARN"]
              (after_ops [AddClient 1000] (dp_init example_procs ∅ []))) ∧
  ∃ s1,
    dpdk_remove_client 1000
      (after_ops [AddClient 1000] (dp_init example_procs ∅ []))
      = Ok (tt, s1) ∧
    dpdk_remove_client 1000 s1 =
      Ok (tt, set_trace (trace s1 ++ [EvLog LOG_WARN "WARN"]) s1).
Proof.
  split.
  - apply (remove_absent_noop
             (after_ops [AddClient 1000] (dp_init example_procs ∅ [])) 2000);
      reflexivity.
  - apply (remove_absent_noop
             (after_ops [AddClient 1000] (dp_init example_procs ∅ [])) 1000).
    + reflexivity.
    + vm_compute. lia.
    + by eexists.
Defined.

(** When the same process was added twice, the second of two removals in
    a row is no no-op: it finds the other slot, shrinks the registry and
    notifies the control plane once more. *)
Lemma remove_twice_after_double_add :
  match dpdk_remove_client 1000
          (after_ops [AddClient 1000; AddClient 1000]
             (dp_init example_procs ∅ [])) with
  | Ok (_, s1) =>
      match dpdk_remove_client 1000 s1 with
      | Ok (_, s2) =>
          nr_clients s1 = 1 ∧ nr_clients s2 = 0 ∧
          length (chan_msgs (lrpc_data_to_control s1)) = 1%nat ∧
          length (chan_msgs (lrpc_data_to_control s2)) = 2%nat ∧
          count_events is_warning (trace s2) = 0
      | Err _ => False
      end
  | Err _ => False
  end.
Proof. vm_compute. repeat split. Qed.

(** ** The registry invariant *)

Lemma hash_add_table (h : rte_hash) (k : ether_addr) (d : Z) :
  Z.of_nat (size (hash_table h)) < hash_entries h →
  hash_table (rte_hash_add_key_data h k d).2 = <[k := d]> (hash_table h) ∧
  hash_entries (rte_hash_add_key_data h k d).2 = hash_entries h.
Proof.
  intros Hroom. unfold rte_hash_add_key_data.
  destruct (hash_table h !! k); [done|].
  destruct (Z.ltb_spec (Z.of_nat (size (hash_table h))) (hash_entries h));
    [done | lia].
Qed.

Lemma client_list_append (s s' : dp_state) (p : Z) :
  0 ≤ nr_clients s < Z.of_nat (length (clients s)) →
  clients s' = <[Z.to_nat (nr_clients s) := p]> (clients s) →
  nr_clients s' = nr_clients s + 1 →
  client_list s' = client_list s ++ [p].
Proof.
  intros Hnr Hc Hn. unfold client_list. rewrite Hc, Hn.
  replace (Z.to_nat (nr_clients s + 1)) with (S (Z.to_nat (nr_clients s)))
    by lia.
  erewrite take_S_r by (apply list_lookup_insert_eq; lia).
  by rewrite take_insert_ge by lia.
Qed.

Lemma client_macs_cons (s : dp_state) (p : Z) (pr : proc) (l : list Z) :
  procs s !! p = Some pr →
  omap (λ q, mac <$> procs s !! q) (p :: l)
  = mac pr :: omap (λ q, mac <$> procs s !! q) l.
Proof. intros Hp. simpl. by rewrite Hp. Qed.

(** An admissible [AddClient] returns and keeps the invariant. *)
Lemma registry_inv_add (s : dp_state) (p : Z) :
  registry_inv s →
  op_admissible s (AddClient p) = true →
  ∃ s', dpdk_add_client p s = Ok (tt, s') ∧ registry_inv s'.
Proof.
  intros (Hb & Hlive & Hnd & Hcons) Hadm. simpl in Hadm.
  apply andb_prop in Hadm as [Hcap Hadm]. apply Z.ltb_lt in Hcap.
  destruct (procs s !! p) as [pr|] eqn:Hp; [|done].
  apply andb_prop in Hadm as [Hfresh Hroom].
  apply bool_decide_eq_true in Hfresh. apply Z.ltb_lt in Hroom.
  pose proof (dp_bounds_inv s Hb) as Hnr.
  destruct (add_client_spec s p pr) as (s' & Hrun & Hc & Hn & Hh & Hps & _);
    [lia | done |].
  exists s'. split; [done|].
  assert (Hlist : client_list s' = client_list s ++ [p])
    by (apply client_list_append; [lia | done | done]).
  assert (Hmacs : client_macs s' = client_macs s ++ [mac pr]).
  { unfold client_macs. rewrite Hlist, Hps, omap_app. simpl.
    by rewrite Hp. }
  destruct (hash_add_table (mac_to_proc s) (mac pr) p Hroom) as [Htab _].
  split_and!.
  - unfold dp_bounds. rewrite Hn, Hc, length_insert.
    apply andb_true_intro. split; apply Z.leb_le; lia.
  - rewrite Hlist, Hps. apply Forall_app. split; [done|].
    constructor; [by eexists | constructor].
  - rewrite Hmacs. apply NoDup_app. split_and!; [done | | apply NoDup_singleton].
    intros x Hx ->%list_elem_of_singleton. done.
  - unfold registry_consistent in *.
    rewrite Hmacs, Hh, Htab, dom_insert_L, Hcons, list_to_set_snoc_L.
    apply (comm_L (∪)).
Qed.

(** A [RemoveClient] returns and keeps the invariant. *)
Lemma registry_inv_remove (s : dp_state) (p : Z) :
  registry_inv s →
  ∃ s', dpdk_remove_client p s = Ok (tt, s') ∧ registry_inv s'.
Proof.
  intros (Hb & Hlive & Hnd & Hcons).
  destruct (registered s p) eqn:Hreg.
  - assert (Hin : p ∈ client_list s) by by apply registered_true.
    rewrite Forall_forall in Hlive.
    destruct (Hlive p Hin) as [pr Hp].
    destruct (remove_present s p pr Hb Hreg Hp)
      as (s' & Hrun & Hperm & Hn & Hl & Htab & _ & Hps & _).
    exists s'. split; [done|].
    assert (Hmacs : client_macs s ≡ₚ mac pr :: client_macs s').
    { unfold client_macs. rewrite Hperm, Hps.
      by rewrite (client_macs_cons s p pr). }
    rewrite Hmacs in Hnd. apply NoDup_cons in Hnd as [Hfresh Hnd'].
    split_and!.
    + by eapply remove_present_bounds.
    + rewrite Forall_forall. intros q Hq. rewrite Hps. apply Hlive.
      rewrite Hperm. by right.
    + done.
    + unfold registry_consistent in *.
      rewrite Htab, dom_delete_L, Hcons, Hmacs, list_to_set_cons.
      assert (HX : mac pr ∉ (list_to_set (client_macs s') : gset ether_addr))
        by by rewrite elem_of_list_to_set.
      revert HX.
      generalize (list_to_set (client_macs s') : gset ether_addr).
      generalize (mac pr). clear. intros k X HX.
      apply set_eq. intros x.
      rewrite elem_of_difference, elem_of_union, !elem_of_singleton.
      split.
      * by intros [[->|Hx] Hne].
      * intros Hx. split; [by right | by intros ->].
  - rewrite (remove_absent s p Hb Hreg). eexists. split; [done|].
    by split_and!.
Qed.

(** C3: from a state where the registry invariant holds, every
    admissible sequence of [AddClient] and [RemoveClient] commands runs to
    completion, and after each command the keys of the hash table are
    exactly the hardware addresses of the processes in the client list. *)
Theorem registry_consistent_admissible (ops : list op) :
  ∀ s : dp_state,
    registry_inv s →
    admissible ops s = true →
    ∃ l, run_ops ops s = Ok l ∧
         length l = length ops ∧
         Forall registry_consistent l.
Proof.
  induction ops as [|o ops IH]; intros s Hinv Hadm.
  { exists []. by split_and!. }
  simpl in Hadm. apply andb_prop in Hadm as [Ho Hadm].
  assert (Hstep : ∃ s', apply_op o s = Ok (tt, s') ∧ registry_inv s').
  { destruct o as [p|p]; simpl.
    - by apply registry_inv_add.
    - by apply registry_inv_remove. }
  destruct Hstep as (s' & Hrun & Hinv').
  rewrite Hrun in Hadm.
  destruct (IH s' Hinv' Hadm) as (l & Hl & Hlen & Hall).
  exists (s' :: l). simpl. rewrite Hrun, Hl. split_and!; [done | | ].
  - simpl. by rewrite Hlen.
  - constructor; [apply Hinv' | done].
Qed.

Lemma registry_inv_init (ps : gmap Z proc) (ms : gmap Z rte_mbuf)
    (cmds : list (Z * Z)) :
  registry_inv (dp_init ps ms cmds).
Proof.
  split_and!.
  - reflexivity.
  - constructor.
  - constructor.
  - unfold registry_consistent. simpl. by rewrite dom_empty_L.
Qed.

Lemma registry_consistent_admissible_witness :
  ∃ l,
    run_ops [AddClient 1000; AddClient 2000; RemoveClient 1000;
             RemoveClient 1000; AddClient 3000]
      (dp_init example_procs ∅ []) = Ok l ∧
    length l = 5%nat ∧
    Forall registry_consistent l.
Proof.
  apply (registry_consistent_admissible
           [AddClient 1000; AddClient 2000; RemoveClient 1000;
            RemoveClient 1000; AddClient 3000]
           (dp_init example_procs ∅ [])).
  - split_and!; [reflexivity | constructor | constructor |].
    unfold registry_consistent. simpl. apply dom_empty_L.
  - vm_compute. reflexivity.
Defined.

(** Two processes with the same hardware address: after both were added
    and the first was removed, the second is still in the client list but
    the table has lost the address they share. *)
Lemma registry_inconsistent_after_twin_removal :
  ∃ l s',
    run_ops [AddClient 1000; AddClient 2000; RemoveClient 1000]
      (dp_init twin_procs ∅ []) = Ok l ∧
    List.last l (dp_init twin_procs ∅ []) = s' ∧
    client_list s' = [2000] ∧
    client_macs s' = [mac_of 1] ∧
    hash_table (mac_to_proc s') = ∅ ∧
    ¬ registry_consistent s'.
Proof.
  eexists _, _. split; [vm_compute; reflexivity|].
  split; [reflexivity|]. split; [reflexivity|]. split; [reflexivity|].
  split; [reflexivity|].
  unfold registry_consistent. intros Heq.
  match type of Heq with
  | dom (hash_table (mac_to_proc ?s)) = _ =>
      assert (Hin : mac_of 1 ∈ dom (hash_table (mac_to_proc s)))
  end.
  { rewrite Heq. apply elem_of_list_to_set, list_elem_of_In.
    vm_compute. by left. }
  apply elem_of_dom in Hin as [x Hx]. vm_compute in Hx. discriminate.
Qed.

(** ** The control channel *)

Lemma find_client_state (p : Z) (fuel : nat) :
  ∀ (s s' : dp_state) (i k : Z),
    find_client fuel p i s = Ok (k, s') → s' = s.
Proof.
  induction fuel as [|fuel IH]; intros s s' i k; [done|].
  unfold find_client; fold find_client. unfold_monad. simpl.
  destruct (i <? nr_clients s).
  - destruct (array_get (clients s) i) as [c|]; [|done].
    destruct (c =? p); [congruence | apply IH].
  - congruence.
Qed.

Lemma add_client_keeps_inbound (p : Z) (s s' : dp_state) :
  dpdk_add_client p s = Ok (tt, s') →
  lrpc_control_to_data s' = lrpc_control_to_data s.
Proof.
  unfold dpdk_add_client. unfold_monad. simpl.
  destruct (array_set (clients s) (nr_clients s) p); [|done]. simpl.
  destruct (procs s !! p) as [pr|]; [|done]. simpl.
  destruct (rte_hash_add_key_data (mac_to_proc s) (mac pr) p) as [r h'].
  simpl. destruct (r <? 0); intros [= <-]; reflexivity.
Qed.

Lemma remove_client_keeps_inbound (p : Z) (s s' : dp_state) :
  dpdk_remove_client p s = Ok (tt, s') →
  lrpc_control_to_data s' = lrpc_control_to_data s.
Proof.
  unfold dpdk_remove_client. unfold_monad. simpl.
  destruct (find_client (S (Z.to_nat (nr_clients s))) p 0 s)
    as [[k s1]|] eqn:Hfind; [|done].
  apply find_client_state in Hfind as ->. simpl.
  destruct (k =? nr_clients s); [intros [= <-]; reflexivity|].
  destruct (array_get (clients s) (nr_clients s - 1)) as [last|]; [|done].
  destruct (array_set (clients s) k last); [|done]. simpl.
  destruct (procs s !! p) as [pr|]; [|done]. simpl.
  destruct (rte_hash_del_key (mac_to_proc s) (mac pr)) as [r h'].
  destruct (r <? 0); simpl;
    destruct (lrpc_send (lrpc_data_to_control s)
                CONTROL_PLANE_REMOVE_CLIENT p) as [[] c']; simpl;
    intros [= <-]; reflexivity.
Qed.

(** The loop pops one message per turn, and the turn at which [n_rx] has
    reached the burst size still pops its message before it leaves: a
    loop entered with [n_rx] takes [CONTROL_BURST_SIZE + 1 - n_rx]
    messages off the channel, or all of them when there are fewer. *)
Lemma rx_control_loop_pending (fuel : nat) :
  ∀ (n_rx : Z) (s s' : dp_state),
    0 ≤ n_rx ≤ CONTROL_BURST_SIZE →
    rx_control_loop fuel n_rx s = Ok (tt, s') →
    lrpc_control_to_data s' =
      drop (Z.to_nat (CONTROL_BURST_SIZE + 1 - n_rx)) (lrpc_control_to_data s).
Proof.
  induction fuel as [|fuel IH]; intros n_rx s s' Hn; [done|].
  unfold rx_control_loop; fold rx_control_loop.
  unfold lrpc_recv. unfold_monad. simpl.
  destruct (lrpc_control_to_data s) as [|[cmd payload] q] eqn:Hq; simpl.
  { intros [= <-]. rewrite Hq. by rewrite drop_nil. }
  unfold CONTROL_BURST_SIZE in *.
  destruct (Z.ltb_spec n_rx 8) as [Hlt|Hge].
  - rewrite wrap16_small by lia.
    set (s1 := set_lrpc_control_to_data q s).
    assert (Hd : ∀ s2 (u : unit),
              (if cmd =? DATAPLANE_ADD_CLIENT then dpdk_add_client payload
               else if cmd =? DATAPLANE_REMOVE_CLIENT
                    then dpdk_remove_client payload
                    else log_err "dpdk: received unrecognized command") s1
              = Ok (u, s2) →
              lrpc_control_to_data s2 = q).
    { intros s2 [].
      destruct (cmd =? DATAPLANE_ADD_CLIENT);
        [by intros ->%add_client_keeps_inbound|].
      destruct (cmd =? DATAPLANE_REMOVE_CLIENT);
        [by intros ->%remove_client_keeps_inbound|].
      unfold_monad. by intros [= <-]. }
    unfold_monad.
    match goal with
    | |- match ?d with _ => _ end = _ → _ =>
        destruct d as [[[] s2]|] eqn:Hrun; [|done]
    end.
    intros Hloop. apply IH in Hloop; [|lia].
    rewrite Hloop, (Hd s2 tt eq_refl).
    replace (Z.to_nat (8 + 1 - n_rx)) with (S (Z.to_nat (8 + 1 - (n_rx + 1))))
      by lia.
    reflexivity.
  - intros [= <-]. simpl.
    replace (Z.to_nat (8 + 1 - n_rx)) with 1%nat by lia.
    reflexivity.
Qed.

(** Whatever the commands do, one call takes nine messages off the
    inbound channel when nine or more are pending, and all of them
    otherwise. *)
Lemma rx_control_pops_nine (s s' : dp_state) :
  dpdk_rx_control_lrpcs s = Ok (tt, s') →
  lrpc_control_to_data s' = drop 9 (lrpc_control_to_data s).
Proof.
  unfold dpdk_rx_control_lrpcs. intros Hrun.
  apply rx_control_loop_pending in Hrun; [done|].
  unfold CONTROL_BURST_SIZE. lia.
Qed.

Lemma find_client_fuel (p : Z) (fuel : nat) :
  ∀ (s : dp_state) (i : Z),
    (0 < fuel)%nat →
    nr_clients s - i < Z.of_nat fuel →
    find_client fuel p i s ≠ Err OutOfFuel.
Proof.
  induction fuel as [|fuel IH]; intros s i Hpos Hfuel; [lia|].
  unfold find_client; fold find_client. unfold_monad. simpl.
  destruct (Z.ltb_spec i (nr_clients s)); [|done].
  destruct (array_get (clients s) i) as [c|]; [|done].
  destruct (c =? p); [done|]. apply IH; lia.
Qed.

Lemma add_client_fuel (p : Z) (s : dp_state) :
  dpdk_add_client p s ≠ Err OutOfFuel.
Proof.
  unfold dpdk_add_client. unfold_monad. simpl.
  destruct (array_set (clients s) (nr_clients s) p); [|done]. simpl.
  destruct (procs s !! p) as [pr|]; [|done]. simpl.
  destruct (rte_hash_add_key_data (mac_to_proc s) (mac pr) p) as [r h'].
  simpl. by destruct (r <? 0).
Qed.

Lemma remove_client_fuel (p : Z) (s : dp_state) :
  dpdk_remove_client p s ≠ Err OutOfFuel.
Proof.
  unfold dpdk_remove_client. unfold_monad. simpl.
  pose proof (find_client_fuel p (S (Z.to_nat (nr_clients s))) s 0) as Hf.
  destruct (find_client (S (Z.to_nat (nr_clients s))) p 0 s)
    as [[k s1]|e] eqn:Hfind.
  - apply find_client_state in Hfind as ->. simpl.
    destruct (k =? nr_clients s); [done|].
    destruct (array_get (clients s) (nr_clients s - 1)) as [last|]; [|done].
    destruct (array_set (clients s) k last); [|done]. simpl.
    destruct (procs s !! p) as [pr|]; [|done]. simpl.
    destruct (rte_hash_del_key (mac_to_proc s) (mac pr)) as [r h'].
    destruct (r <? 0); simpl;
      by destruct (lrpc_send (lrpc_data_to_control s)
                     CONTROL_PLANE_REMOVE_CLIENT p) as [[] c'].
  - intros [= ->]. by apply Hf; [lia | lia |].
Qed.

Lemma rx_control_loop_fuel (fuel : nat) :
  ∀ (n_rx : Z) (s : dp_state),
    0 ≤ n_rx ≤ CONTROL_BURST_SIZE →
    CONTROL_BURST_SIZE - n_rx < Z.of_nat fuel →
    rx_control_loop fuel n_rx s ≠ Err OutOfFuel.
Proof.
  unfold CONTROL_BURST_SIZE.
  induction fuel as [|fuel IH]; intros n_rx s Hn Hfuel; [lia|].
  unfold rx_control_loop; fold rx_control_loop.
  unfold lrpc_recv. unfold_monad. simpl.
  destruct (lrpc_control_to_data s) as [|[cmd payload] q]; [done|]. simpl.
  unfold CONTROL_BURST_SIZE in *.
  destruct (Z.ltb_spec n_rx 8) as [Hlt|Hge]; [|done].
  rewrite wrap16_small by lia.
  set (s1 := set_lrpc_control_to_data q s).
  destruct (cmd =? DATAPLANE_ADD_CLIENT).
  { pose proof (add_client_fuel payload s1).
    destruct (dpdk_add_client payload s1) as [[[] s2]|e]; [|congruence].
    apply IH; lia. }
  destruct (cmd =? DATAPLANE_REMOVE_CLIENT).
  { pose proof (remove_client_fuel payload s1).
    destruct (dpdk_remove_client payload s1) as [[[] s2]|e]; [|congruence].
    apply IH; lia. }
  apply IH; lia.
Qed.

(** The fuel that [dpdk_rx_control_lrpcs] gives its loop is enough. *)
Lemma rx_control_terminates (s : dp_state) :
  dpdk_rx_control_lrpcs s ≠ Err OutOfFuel.
Proof.
  apply rx_control_loop_fuel; unfold CONTROL_BURST_SIZE; simpl; lia.
Qed.

(** C2, on the code: with twenty [DATAPLANE_ADD_CLIENT] commands pending,
    one call of [dpdk_rx_control_lrpcs] leaves eleven of them in the
    channel, not twelve.  Eight commands are carried out; the ninth was
    popped by [lrpc_recv] before [n_rx] was compared with the burst size,
    and is lost: its process is not registered, and its command is no
    longer pending. *)
Theorem rx_control_twenty_commands :
  match dpdk_rx_control_lrpcs (dp_init twenty_procs ∅ twenty_adds) with
  | Ok (_, s') =>
      lrpc_control_to_data s' = drop 9 twenty_adds ∧
      length (lrpc_control_to_data s') = 11%nat ∧
      client_list s' = [1000; 2000; 3000; 4000; 5000; 6000; 7000; 8000] ∧
      registered s' 9000 = false ∧
      (DATAPLANE_ADD_CLIENT, 9000) ∉ lrpc_control_to_data s'
  | Err _ => False
  end.
Proof.
  vm_compute. split_and!; try reflexivity.
  intros H. repeat (apply elem_of_cons in H as [H|H]; [discriminate|]).
  by apply elem_of_nil in H.
Qed.

(** ** The mbuf pool *)

Lemma land_page_mask (x : Z) :
  0 ≤ x < 2 ^ 64 →
  Z.land x (2 ^ 64 - 2 ^ 21) = x - x mod 2 ^ 21.
Proof.
  intros Hx.
  transitivity (Z.ldiff x (Z.ones 21)).
  - apply Z.bits_inj'. intros i Hi.
    rewrite Z.land_spec, Z.ldiff_spec.
    replace (2 ^ 64 - 2 ^ 21) with (Z.shiftl (Z.ones 43) 21) by reflexivity.
    destruct (Z.ltb_spec i 21) as [Hlo|Hhi].
    + rewrite Z.shiftl_spec_low by lia. rewrite Z.ones_spec_low by lia.
      reflexivity.
    + rewrite Z.shiftl_spec by lia. rewrite (Z.ones_spec_high 21) by lia.
      simpl. destruct (Z.ltb_spec i 64) as [H64|H64].
      * rewrite Z.ones_spec_low by lia. reflexivity.
      * rewrite Z.ones_spec_high by lia.
        rewrite andb_false_r, andb_true_r. symmetry.
        destruct (Z.eq_dec x 0) as [->|Hne]; [apply Z.bits_0|].
        apply Z.bits_above_log2; [lia|].
        assert (Z.log2 x < 64); [|lia]. apply Z.log2_lt_pow2; lia.
  - rewrite Z.ldiff_ones_r by lia.
    rewrite Z.shiftr_div_pow2, Z.shiftl_mul_pow2 by lia.
    pose proof (Z.div_mod x (2 ^ 21)). lia.
Qed.

Lemma align_ceil_page (v : Z) :
  0 ≤ v < 2 ^ 31 →
  v ≤ Pool.RTE_ALIGN_CEIL v (2 ^ 21) < 2 ^ 32.
Proof.
  intros Hv. unfold Pool.RTE_ALIGN_CEIL, wrap64.
  replace ((Z.lnot (2 ^ 21 - 1)) mod 2 ^ 64) with (2 ^ 64 - 2 ^ 21)
    by reflexivity.
  rewrite (Z.mod_small (v + (2 ^ 21 - 1))) by lia.
  rewrite land_page_mask by lia.
  pose proof (Z.mod_pos_bound (v + (2 ^ 21 - 1)) (2 ^ 21)).
  rewrite Z.mod_small; lia.
Qed.

(** The footprint that [rte_mempool_xmem_size] computes for pages of
    2 MB is at least the element size times the number of elements. *)
Lemma xmem_size_covers (n total : Z) :
  0 ≤ n < 2 ^ 32 →
  0 ≤ total < 2 ^ 31 →
  n * total ≤
    Pool.rte_mempool_xmem_size n total (Pool.rte_bsf32 Pool.PGSIZE_2MB).
Proof.
  intros Hn Ht.
  replace (Pool.rte_bsf32 Pool.PGSIZE_2MB) with 21 by reflexivity.
  unfold Pool.rte_mempool_xmem_size.
  destruct (Z.eqb_spec total 0) as [->|Hne]; [lia|].
  simpl (21 =? 0).
  replace (wrap64 (Z.shiftl 1 21)) with (2 ^ 21) by reflexivity.
  cbv zeta.
  destruct (Z.eqb_spec (2 ^ 21 / total) 0) as [Hz|Hnz].
  - pose proof (align_ceil_page total Ht).
    unfold wrap64. rewrite Z.mod_small; nia.
  - assert (Hq : 1 ≤ 2 ^ 21 / total).
    { pose proof (Z.div_pos (2 ^ 21) total). lia. }
    pose proof (Z.div_mod (2 ^ 21) total Hne) as Hdm.
    pose proof (Z.mod_pos_bound (2 ^ 21) total) as Hmb.
    assert (Hqle : 2 ^ 21 / total ≤ 2 ^ 21).
    { apply Z.div_le_upper_bound; nia. }
    set (q := 2 ^ 21 / total) in *.
    unfold wrap64 at 2. rewrite (Z.mod_small (n + q - 1)) by lia.
    pose proof (Z.div_mod (n + q - 1) q) as Hdm2.
    pose proof (Z.mod_pos_bound (n + q - 1) q) as Hmb2.
    set (g := (n + q - 1) / q) in *.
    assert (Hg : 0 ≤ g ≤ n) by nia.
    rewrite Z.shiftl_mul_pow2 by lia.
    unfold wrap64. rewrite Z.mod_small by nia.
    nia.
Qed.

Ltac absurd_member H :=
  repeat (apply elem_of_cons in H as [H|H]; [try discriminate H|]);
  try (by apply elem_of_nil in H).

(** C7: the constructor fails when the element size of the pool times the
    number of buffers exceeds [INGRESS_MBUF_SHM_SIZE], and then it has not
    mapped the region; and whenever it fails after [mem_map_shm] returned
    the region, its last three calls are the unmapping of that region, the
    freeing of the pool and the final error message, with no other
    unmapping or freeing before them. *)
Theorem pool_create_failure (INGRESS_MBUF_SHM_SIZE : Z) (env : Pool.pool_env)
    (name : string) (n cache_size priv_size data_room_size socket_id : Z) :
  (∀ mp,
     Pool.create_empty_result env = Some mp →
     0 ≤ n < 2 ^ 32 →
     0 ≤ Pool.header_size mp → 0 ≤ Pool.elt_size mp →
     0 ≤ Pool.trailer_size mp → Pool.total_elt_sz mp < 2 ^ 31 →
     INGRESS_MBUF_SHM_SIZE < Pool.total_elt_sz mp * n →
     Pool.pool_ret
       (Pool.dpdk_pktmbuf_pool_create_in_shm INGRESS_MBUF_SHM_SIZE env name
          n cache_size priv_size data_room_size socket_id) = None ∧
     Forall (λ e, Pool.is_map_shm e = false)
       (Pool.pool_trace
          (Pool.dpdk_pktmbuf_pool_create_in_shm INGRESS_MBUF_SHM_SIZE env name
             n cache_size priv_size data_room_size socket_id))) ∧
  (∀ shbuf,
     Pool.pool_ret
       (Pool.dpdk_pktmbuf_pool_create_in_shm INGRESS_MBUF_SHM_SIZE env name
          n cache_size priv_size data_room_size socket_id) = None →
     Pool.MemMapShm INGRESS_MBUF_SHM_SIZE Pool.PGSIZE_2MB (Some shbuf)
       ∈ Pool.pool_trace
           (Pool.dpdk_pktmbuf_pool_create_in_shm INGRESS_MBUF_SHM_SIZE env
              name n cache_size priv_size data_room_size socket_id) →
     ∃ mp pre,
       Pool.create_empty_result env = Some mp ∧
       Pool.pool_trace
         (Pool.dpdk_pktmbuf_pool_create_in_shm INGRESS_MBUF_SHM_SIZE env name
            n cache_size priv_size data_room_size socket_id)
       = pre ++ [Pool.MemUnmapShm shbuf;
                 Pool.MempoolFree (Pool.mp_addr mp);
                 Pool.PoolLogErr "dpdk: couldn't create pktmbuf pool"] ∧
       Forall (λ e, Pool.is_unmap_shm e = false ∧
                    Pool.is_mempool_free e = false) pre).
Proof.
  split.
  - intros mp Hmp Hn Hh He Ht Htot Hcap.
    unfold Pool.total_elt_sz in *.
    unfold Pool.dpdk_pktmbuf_pool_create_in_shm.
    destruct (negb (Pool.RTE_ALIGN16 priv_size Pool.RTE_MBUF_PRIV_ALIGN
                      =? priv_size)).
    { simpl. split; [done | by repeat constructor]. }
    rewrite Hmp.
    destruct (negb (Pool.set_ops_ret env =? 0)).
    { simpl. split; [done | by repeat constructor]. }
    pose proof (xmem_size_covers n
                  (Pool.header_size mp + Pool.elt_size mp
                   + Pool.trailer_size mp)) as Hlen.
    assert (Hw : wrap32 (Pool.header_size mp + Pool.elt_size mp
                         + Pool.trailer_size mp)
                 = Pool.header_size mp + Pool.elt_size mp
                   + Pool.trailer_size mp).
    { unfold wrap32. apply Z.mod_small. lia. }
    rewrite !Hw.
    match goal with
    | |- context [INGRESS_MBUF_SHM_SIZE <? ?len] =>
        destruct (Z.ltb_spec INGRESS_MBUF_SHM_SIZE len) as [_|Hfit]
    end.
    + simpl. split; [done | by repeat constructor].
    + exfalso. lia.
  - intros shbuf.
    unfold Pool.dpdk_pktmbuf_pool_create_in_shm.
    destruct (negb (Pool.RTE_ALIGN16 priv_size Pool.RTE_MBUF_PRIV_ALIGN
                      =? priv_size)).
    { simpl. intros _ H. absurd_member H. }
    destruct (Pool.create_empty_result env) as [mp|].
    2: { simpl. intros _ H. absurd_member H. }
    destruct (negb (Pool.set_ops_ret env =? 0)).
    { simpl. intros _ H. absurd_member H. }
    match goal with
    | |- context [INGRESS_MBUF_SHM_SIZE <? ?len] =>
        destruct (INGRESS_MBUF_SHM_SIZE <? len)
    end.
    { simpl. intros _ H. absurd_member H. }
    destruct (Pool.map_shm_result env) as [sh|].
    2: { simpl. intros _ H. absurd_member H. }
    destruct (Pool.populate_ret env <? 0); [|done].
    simpl. intros _ H.
    assert (sh = shbuf) as ->.
    { repeat (apply elem_of_cons in H as [H|H];
              [try discriminate H; try (by injection H)|]).
      by apply elem_of_nil in H. }
    eexists mp, [_; _; _; _; _; _]. split; [done|]. split; [reflexivity|].
    by repeat constructor.
Qed.

Lemma pool_create_failure_witness :
  Pool.pool_ret
    (Pool.dpdk_pktmbuf_pool_create_in_shm 1048576 Pool.populate_fails
       "MBUF_POOL" 8191 250 0 2176 0) = None ∧
  Forall (λ e, Pool.is_map_shm e = false)
    (Pool.pool_trace
       (Pool.dpdk_pktmbuf_pool_create_in_shm 1048576 Pool.populate_fails
          "MBUF_POOL" 8191 250 0 2176 0)) ∧
  ∃ pre,
    Pool.pool_trace
      (Pool.dpdk_pktmbuf_pool_create_in_shm 1073741824 Pool.populate_fails
         "MBUF_POOL" 8191 250 0 2176 0)
    = pre ++ [Pool.MemUnmapShm 1073741824;
              Pool.MempoolFree 8192;
              Pool.PoolLogErr "dpdk: couldn't create pktmbuf pool"] ∧
    Forall (λ e, Pool.is_unmap_shm e = false ∧
                 Pool.is_mempool_free e = false) pre.
Proof.
  destruct (pool_create_failure 1048576 Pool.populate_fails
              "MBUF_POOL" 8191 250 0 2176 0) as [Hsmall _].
  destruct (pool_create_failure 1073741824 Pool.populate_fails
              "MBUF_POOL" 8191 250 0 2176 0) as [_ Hunmap].
  destruct (Hsmall Pool.example_pool) as [Hret Hmap];
    [reflexivity | lia | simpl; lia | simpl; lia | simpl; lia
    | vm_compute; reflexivity | vm_compute; reflexivity |].
  split; [done|]. split; [done|].
  destruct (Hunmap 1073741824) as (mp & pre & [= <-] & Htr & Hpre).
  - reflexivity.
  - vm_compute. do 3 right. by left.
  - by exists pre.
Defined.

(** * Further properties of the data plane *)

(** ** Registering and unregistering *)

Lemma hash_add_ok (h : rte_hash) (k : ether_addr) (d : Z) :
  is_Some (hash_table h !! k) ∨
    Z.of_nat (size (hash_table h)) < hash_entries h →
  rte_hash_add_key_data h k d =
    (0, {| hash_entries := hash_entries h;
           hash_table := <[k := d]> (hash_table h) |}).
Proof.
  intros Hroom. unfold rte_hash_add_key_data.
  destruct (hash_table h !! k) eqn:Hk; [done|].
  destruct Hroom as [[? ?]|Hroom]; [done|].
  destruct (Z.ltb_spec (Z.of_nat (size (hash_table h))) (hash_entries h));
    [done | lia].
Qed.

Lemma hash_add_full (h : rte_hash) (k : ether_addr) (d : Z) :
  hash_table h !! k = None →
  hash_entries h ≤ Z.of_nat (size (hash_table h)) →
  rte_hash_add_key_data h k d = (- ENOSPC, h).
Proof.
  intros Hk Hfull. unfold rte_hash_add_key_data. rewrite Hk.
  destruct (Z.ltb_spec (Z.of_nat (size (hash_table h))) (hash_entries h));
    [lia | done].
Qed.

(** [dpdk_add_client] with a free slot and a live process, as one
    equation. *)
Lemma add_client_run (s : dp_state) (p : Z) (pr : proc) :
  0 ≤ nr_clients s < Z.of_nat (length (clients s)) →
  procs s !! p = Some pr →
  dpdk_add_client p s =
    Ok (tt,
        let s1 := set_nr_clients (nr_clients s + 1)
                    (set_clients (<[Z.to_nat (nr_clients s) := p]> (clients s))
                       s) in
        let rh := rte_hash_add_key_data (mac_to_proc s) (mac pr) p in
        let s2 := set_mac_to_proc rh.2 s1 in
        if rh.1 <? 0
        then set_trace
               (trace s ++
                [EvLog LOG_ERR
                   "dpdk: failed to add MAC to hash table in add_client"])
               s2
        else s2).
Proof.
  intros Hnr Hp. unfold dpdk_add_client. unfold_monad. simpl.
  rewrite (array_set_in_bounds _ _ _ Hnr). simpl. rewrite Hp. simpl.
  destruct (rte_hash_add_key_data (mac_to_proc s) (mac pr) p) as [r h'].
  simpl. by destruct (r <? 0).
Qed.

Lemma registered_after_add (s s' : dp_state) (p : Z) :
  0 ≤ nr_clients s < Z.of_nat (length (clients s)) →
  clients s' = <[Z.to_nat (nr_clients s) := p]> (clients s) →
  nr_clients s' = nr_clients s + 1 →
  registered s' p = true.
Proof.
  intros Hnr Hc Hn. apply registered_true.
  rewrite (client_list_append s s' p Hnr Hc Hn).
  apply elem_of_app. right. by apply list_elem_of_singleton.
Qed.

(** Insert, then look up: after [dpdk_add_client] of a live process into
    a free slot, with its address already a key or with room in the table,
    the lookup of its address yields the process, every other address
    looks up as before, and the process is in the client list. *)
Theorem add_client_then_lookup (s : dp_state) (p : Z) (pr : proc) :
  0 ≤ nr_clients s < Z.of_nat (length (clients s)) →
  procs s !! p = Some pr →
  is_Some (hash_table (mac_to_proc s) !! mac pr) ∨
    Z.of_nat (size (hash_table (mac_to_proc s)))
      < hash_entries (mac_to_proc s) →
  ∃ s',
    dpdk_add_client p s = Ok (tt, s') ∧
    rte_hash_lookup_data (mac_to_proc s') (mac pr) = Some p ∧
    (∀ k, k ≠ mac pr →
          rte_hash_lookup_data (mac_to_proc s') k
          = rte_hash_lookup_data (mac_to_proc s) k) ∧
    registered s' p = true ∧
    trace s' = trace s.
Proof.
  intros Hnr Hp Hroom. rewrite (add_client_run s p pr Hnr Hp).
  rewrite (hash_add_ok _ _ p Hroom). simpl.
  eexists. split; [reflexivity|]. unfold rte_hash_lookup_data. simpl.
  split_and!.
  - apply lookup_insert_eq.
  - intros k Hk. by apply lookup_insert_ne.
  - by apply (registered_after_add s).
  - done.
Qed.

Lemma add_client_then_lookup_witness :
  ∃ s',
    dpdk_add_client 1000 (dp_init example_procs ∅ []) = Ok (tt, s') ∧
    rte_hash_lookup_data (mac_to_proc s') (mac_of 1) = Some 1000 ∧
    registered s' 1000 = true.
Proof.
  destruct (add_client_then_lookup (dp_init example_procs ∅ []) 1000
              (example_proc (mac_of 1) 4))
    as (s' & Hrun & Hlook & _ & Hreg & _).
  - simpl. unfold IOKERNEL_MAX_PROC. lia.
  - reflexivity.
  - right. vm_compute. reflexivity.
  - by exists s'.
Defined.

(** The table is full and the address is new: [dpdk_add_client] appends
    the process to the client list all the same, leaves the table as it
    was and logs one error.  The process is then registered, and no lookup
    finds it. *)
Theorem add_client_table_full (s : dp_state) (p : Z) (pr : proc) :
  0 ≤ nr_clients s < Z.of_nat (length (clients s)) →
  procs s !! p = Some pr →
  hash_table (mac_to_proc s) !! mac pr = None →
  hash_entries (mac_to_proc s)
    ≤ Z.of_nat (size (hash_table (mac_to_proc s))) →
  ∃ s',
    dpdk_add_client p s = Ok (tt, s') ∧
    nr_clients s' = nr_clients s + 1 ∧
    registered s' p = true ∧
    mac_to_proc s' = mac_to_proc s ∧
    rte_hash_lookup_data (mac_to_proc s') (mac pr) = None ∧
    trace s' =
      trace s ++ [EvLog LOG_ERR
                    "dpdk: failed to add MAC to hash table in add_client"].
Proof.
  intros Hnr Hp Hnew Hfull. rewrite (add_client_run s p pr Hnr Hp).
  rewrite (hash_add_full _ _ p Hnew Hfull). simpl.
  eexists. split; [reflexivity|]. simpl. split_and!; try done.
  by apply (registered_after_add s).
Qed.

Lemma add_client_table_full_witness :
  ∃ s',
    dpdk_add_client 1000 full_table_state = Ok (tt, s') ∧
    nr_clients s' = 2 ∧
    registered s' 1000 = true ∧
    rte_hash_lookup_data (mac_to_proc s') (mac_of 1) = None.
Proof.
  destruct (add_client_table_full full_table_state 1000
              (example_proc (mac_of 1) 4))
    as (s' & Hrun & Hn & Hreg & _ & Hlook & _).
  - vm_compute. split; [discriminate | reflexivity].
  - vm_compute. reflexivity.
  - vm_compute. reflexivity.
  - vm_compute. discriminate.
  - exists s'. split; [exact Hrun|]. split; [|split; [exact Hreg|exact Hlook]].
    rewrite Hn. vm_compute. reflexivity.
Defined.

(** [dpdk_remove_client] of a registered, live process, in full: the
    slot, the count, the table, the one message to the control plane and
    the trace. *)
Lemma remove_present_full (s : dp_state) (p : Z) (pr : proc) :
  dp_bounds s = true →
  registered s p = true →
  procs s !! p = Some pr →
  ∃ s',
    dpdk_remove_client p s = Ok (tt, s') ∧
    client_list s ≡ₚ p :: client_list s' ∧
    nr_clients s' = nr_clients s - 1 ∧
    length (clients s') = length (clients s) ∧
    mac_to_proc s' = (rte_hash_del_key (mac_to_proc s) (mac pr)).2 ∧
    procs s' = procs s ∧
    mbufs s' = mbufs s ∧
    lrpc_control_to_data s' = lrpc_control_to_data s ∧
    lrpc_data_to_control s' =
      (lrpc_send (lrpc_data_to_control s) CONTROL_PLANE_REMOVE_CLIENT p).2 ∧
    trace s' =
      trace s ++
      (if (rte_hash_del_key (mac_to_proc s) (mac pr)).1 <? 0
       then [EvLog LOG_ERR
               "dpdk: failed to remove MAC from hash table in remove client"]
       else []) ++
      [EvSend ChanDataToControl CONTROL_PLANE_REMOVE_CLIENT p
         (lrpc_send (lrpc_data_to_control s)
            CONTROL_PLANE_REMOVE_CLIENT p).1] ++
      (if (lrpc_send (lrpc_data_to_control s)
             CONTROL_PLANE_REMOVE_CLIENT p).1
       then []
       else [EvLog LOG_ERR
               "dpdk: failed to inform control of client removal"]).
Proof.
  intros Hb Hreg Hp. pose proof (dp_bounds_inv s Hb) as Hnr.
  apply registered_true in Hreg.
  destruct (client_list_array_get s p Hb Hreg) as (j & Hj & Hgetj).
  unfold dpdk_remove_client. unfold_monad. simpl.
  destruct (find_client_spec p (S (Z.to_nat (nr_clients s))) s 0)
    as (k & Hrun & Hk & Hfound & Hnot); [done | lia | lia |].
  rewrite Hrun. simpl.
  destruct (Z.eqb_spec k (nr_clients s)) as [Heq|Hne].
  { exfalso. apply (Hnot j); [lia | done]. }
  assert (Hklt : k < nr_clients s) by lia.
  specialize (Hfound Hklt).
  destruct (client_list_lookup s (nr_clients s - 1) Hb) as (last & Hlast & _);
    [lia|].
  rewrite Hlast. rewrite array_set_in_bounds by lia. simpl. rewrite Hp.
  simpl.
  assert (Hperm : client_list s ≡ₚ
            p :: take (Z.to_nat (nr_clients s - 1))
                   (<[Z.to_nat k := last]> (clients s))).
  { unfold client_list. rewrite Z2Nat.inj_sub by lia.
    apply swap_remove_perm; [lia | lia | |].
    - unfold array_get in Hfound.
      destruct (Z.ltb_spec k 0); [lia | done].
    - unfold array_get in Hlast.
      destruct (Z.ltb_spec (nr_clients s - 1) 0); [lia|].
      by rewrite Z2Nat.inj_sub in Hlast by lia. }
  destruct (rte_hash_del_key (mac_to_proc s) (mac pr)) as [r h'].
  simpl.
  destruct (r <? 0); simpl;
    destruct (lrpc_send (lrpc_data_to_control s)
                CONTROL_PLANE_REMOVE_CLIENT p) as [[] c']; simpl;
    (eexists; split; [reflexivity|]); simpl;
    (split_and!; try done; try apply length_insert);
    by rewrite <- ?app_assoc.
Qed.

(** Remove, then look up: after [dpdk_remove_client] of a registered
    process no lookup of its address succeeds, even when another
    registered process has the same address; every other address looks up
    as before. *)
Theorem remove_client_then_lookup (s : dp_state) (p : Z) (pr : proc) :
  dp_bounds s = true →
  registered s p = true →
  procs s !! p = Some pr →
  ∃ s',
    dpdk_remove_client p s = Ok (tt, s') ∧
    nr_clients s' = nr_clients s - 1 ∧
    rte_hash_lookup_data (mac_to_proc s') (mac pr) = None ∧
    (∀ k, k ≠ mac pr →
          rte_hash_lookup_data (mac_to_proc s') k
          = rte_hash_lookup_data (mac_to_proc s) k).
Proof.
  intros Hb Hreg Hp.
  destruct (remove_present_full s p pr Hb Hreg Hp)
    as (s' & Hrun & _ & Hn & _ & Hh & _).
  exists s'. split; [done|]. split; [done|].
  destruct (hash_del_table (mac_to_proc s) (mac pr)) as [Htab _].
  unfold rte_hash_lookup_data. rewrite Hh, Htab. split.
  - apply lookup_delete_eq.
  - intros k Hk. by apply lookup_delete_ne.
Qed.

Lemma remove_client_then_lookup_witness :
  ∃ s',
    dpdk_remove_client 1000
      (after_ops [AddClient 1000; AddClient 2000]
         (dp_init twin_procs ∅ [])) = Ok (tt, s') ∧
    nr_clients s' = 1 ∧
    registered s' 2000 = true ∧
    rte_hash_lookup_data (mac_to_proc s') (mac_of 1) = None.
Proof.
  destruct (remove_client_then_lookup
              (after_ops [AddClient 1000; AddClient 2000]
                 (dp_init twin_procs ∅ []))
              1000 (example_proc (mac_of 1) 4))
    as (s' & Hrun & Hn & Hlook & _);
    [reflexivity | reflexivity | reflexivity |].
  exists s'. split_and!; try done.
  revert Hrun. vm_compute. by intros [= <-].
Defined.

(** The notification of a removal: one send of
    [(CONTROL_PLANE_REMOVE_CLIENT, p)] on the outbound channel.  With room
    in the channel the message is queued behind the pending ones; with a
    full channel the channel stays as it is and an error is logged, and
    the process is removed from the registry all the same. *)
Theorem remove_client_notifies (s : dp_state) (p : Z) (pr : proc) :
  dp_bounds s = true →
  registered s p = true →
  procs s !! p = Some pr →
  ∃ s',
    dpdk_remove_client p s = Ok (tt, s') ∧
    count_events is_send (drop (length (trace s)) (trace s')) = 1 ∧
    (chan_full (lrpc_data_to_control s) = false →
       chan_msgs (lrpc_data_to_control s') =
         chan_msgs (lrpc_data_to_control s)
           ++ [(CONTROL_PLANE_REMOVE_CLIENT, p)] ∧
       EvSend ChanDataToControl CONTROL_PLANE_REMOVE_CLIENT p true
         ∈ trace s') ∧
    (chan_full (lrpc_data_to_control s) = true →
       lrpc_data_to_control s' = lrpc_data_to_control s ∧
       nr_clients s' = nr_clients s - 1 ∧
       rte_hash_lookup_data (mac_to_proc s') (mac pr) = None ∧
       List.last (trace s') (EvFree 0) =
         EvLog LOG_ERR "dpdk: failed to inform control of client removal").
Proof.
  intros Hb Hreg Hp.
  destruct (remove_present_full s p pr Hb Hreg Hp)
    as (s' & Hrun & _ & Hn & _ & Hh & _ & _ & _ & Hc & Htr).
  exists s'. split; [done|].
  destruct (hash_del_table (mac_to_proc s) (mac pr)) as [Htab _].
  rewrite Htr, Hc. rewrite drop_app_length.
  unfold lrpc_send, chan_full in *.
  destruct (Z.ltb_spec (Z.of_nat (length (chan_msgs (lrpc_data_to_control s))))
              (chan_size (lrpc_data_to_control s))) as [Hroom|Hfull];
    destruct (Z.leb_spec (chan_size (lrpc_data_to_control s))
                (Z.of_nat (length (chan_msgs (lrpc_data_to_control s)))));
    try lia; simpl.
  - split_and!.
    + rewrite count_events_app. unfold count_events.
      by destruct ((rte_hash_del_key (mac_to_proc s) (mac pr)).1 <? 0).
    + intros _. split; [done|].
      apply elem_of_app. right. apply elem_of_app. right.
      by apply list_elem_of_singleton.
    + done.
  - split_and!.
    + rewrite count_events_app. unfold count_events.
      by destruct ((rte_hash_del_key (mac_to_proc s) (mac pr)).1 <? 0).
    + done.
    + intros _. split_and!; try done.
      * unfold rte_hash_lookup_data. rewrite Hh, Htab.
        apply lookup_delete_eq.
      * match goal with
        | |- List.last (_ ++ _ ++ [?a; ?b]) _ = _ =>
            change [a; b] with ([a] ++ [b])
        end.
        rewrite !app_assoc. apply last_last.
Qed.

Lemma remove_client_notifies_witness :
  ∃ s',
    dpdk_remove_client 1000 outbound_full_state = Ok (tt, s') ∧
    lrpc_data_to_control s' = empty_chan 0 ∧
    nr_clients s' = 1 ∧
    List.last (trace s') (EvFree 0) =
      EvLog LOG_ERR "dpdk: failed to inform control of client removal".
Proof.
  destruct (remove_client_notifies outbound_full_state 1000
              (example_proc (mac_of 1) 4))
    as (s' & Hrun & _ & _ & Hfull);
    [vm_compute; reflexivity | vm_compute; reflexivity
    | vm_compute; reflexivity |].
  destruct Hfull as (Hc & Hn & _ & Hlast); [vm_compute; reflexivity|].
  exists s'. split; [exact Hrun|].
  split; [rewrite Hc; vm_compute; reflexivity|].
  split; [rewrite Hn; vm_compute; reflexivity | exact Hlast].
Defined.

(** [dpdk_remove_client] takes one slot of [p] out of the client list and
    no slot of any other process. *)
Theorem remove_client_keeps_others (s : dp_state) (p : Z) (pr : proc) :
  dp_bounds s = true →
  registered s p = true →
  procs s !! p = Some pr →
  ∃ s',
    dpdk_remove_client p s = Ok (tt, s') ∧
    S (registrations s' p) = registrations s p ∧
    ∀ q, q ≠ p →
         registrations s' q = registrations s q ∧
         registered s' q = registered s q.
Proof.
  intros Hb Hreg Hp.
  destruct (remove_present_full s p pr Hb Hreg Hp)
    as (s' & Hrun & Hperm & _).
  exists s'. split; [done|].
  unfold registrations.
  rewrite (Permutation_count_occ Z.eq_dec) in Hperm.
  split.
  - rewrite (Hperm p). by rewrite count_occ_cons_eq.
  - intros q Hq.
    assert (Hcnt : count_occ Z.eq_dec (client_list s') q
                   = count_occ Z.eq_dec (client_list s) q).
    { rewrite (Hperm q). by rewrite count_occ_cons_neq. }
    split; [done|].
    destruct (registered s q) eqn:Hrq.
    + apply registered_true. apply registered_true in Hrq.
      apply list_elem_of_In, (count_occ_In Z.eq_dec). rewrite Hcnt.
      by apply (count_occ_In Z.eq_dec), list_elem_of_In.
    + apply registered_false. apply registered_false in Hrq.
      intros Hin. apply Hrq.
      apply list_elem_of_In, (count_occ_In Z.eq_dec). rewrite <- Hcnt.
      by apply (count_occ_In Z.eq_dec), list_elem_of_In.
Qed.

Lemma remove_client_keeps_others_witness :
  ∃ s',
    dpdk_remove_client 1000
      (after_ops [AddClient 1000; AddClient 2000; AddClient 3000]
         (dp_init example_procs ∅ [])) = Ok (tt, s') ∧
    registered s' 1000 = false ∧
    registered s' 2000 = true ∧
    registered s' 3000 = true.
Proof.
  destruct (remove_client_keeps_others
              (after_ops [AddClient 1000; AddClient 2000; AddClient 3000]
                 (dp_init example_procs ∅ []))
              1000 (example_proc (mac_of 1) 4))
    as (s' & Hrun & Hp & Hq);
    [vm_compute; reflexivity | vm_compute; reflexivity
    | vm_compute; reflexivity |].
  exists s'. split; [exact Hrun|]. split_and!.
  - apply registrations_zero. revert Hp. vm_compute. lia.
  - destruct (Hq 2000) as [_ ->]; [discriminate | vm_compute; reflexivity].
  - destruct (Hq 3000) as [_ ->]; [discriminate | vm_compute; reflexivity].
Defined.

(** Add, then remove: a process that is not registered, whose address is
    not a key, added into a free slot while the table has room and
    removed at once, leaves the client list, the count and the table as
    they were. *)
Theorem add_then_remove (s : dp_state) (p : Z) (pr : proc) :
  dp_bounds s = true →
  nr_clients s < Z.of_nat (length (clients s)) →
  procs s !! p = Some pr →
  registered s p = false →
  hash_table (mac_to_proc s) !! mac pr = None →
  Z.of_nat (size (hash_table (mac_to_proc s))) < hash_entries (mac_to_proc s) →
  ∃ s1 s2,
    dpdk_add_client p s = Ok (tt, s1) ∧
    dpdk_remove_client p s1 = Ok (tt, s2) ∧
    client_list s2 = client_list s ∧
    nr_clients s2 = nr_clients s ∧
    mac_to_proc s2 = mac_to_proc s.
Proof.
  intros Hb Hcap Hp Hreg Hkey Hroom.
  pose proof (dp_bounds_inv s Hb) as Hnr.
  destruct (add_client_then_lookup s p pr) as (s1 & Hadd & _);
    [lia | done | by right |].
  pose proof Hadd as Hadd'.
  rewrite (add_client_run s p pr) in Hadd' by (done || lia).
  rewrite (hash_add_ok _ _ p) in Hadd' by by right.
  simpl in Hadd'. injection Hadd' as Hs1.
  assert (Hc1 : clients s1 = <[Z.to_nat (nr_clients s) := p]> (clients s))
    by by rewrite <- Hs1.
  assert (Hn1 : nr_clients s1 = nr_clients s + 1) by by rewrite <- Hs1.
  assert (Hp1 : procs s1 = procs s) by by rewrite <- Hs1.
  assert (Hh1 : mac_to_proc s1 =
                {| hash_entries := hash_entries (mac_to_proc s);
                   hash_table := <[mac pr := p]> (hash_table (mac_to_proc s)) |})
    by by rewrite <- Hs1.
  assert (Hb1 : dp_bounds s1 = true).
  { unfold dp_bounds. rewrite Hn1, Hc1, length_insert.
    apply andb_true_intro. split; apply Z.leb_le; lia. }
  assert (Hreg1 : registered s1 p = true)
    by (apply (registered_after_add s); [lia | done | done]).
  destruct (remove_present_full s1 p pr Hb1 Hreg1) as
    (s2 & Hrem & Hperm & Hn2 & Hl2 & Hh2 & _); [by rewrite Hp1|].
  exists s1, s2. split; [done|]. split; [done|].
  assert (Hlist1 : client_list s1 = client_list s ++ [p])
    by (apply client_list_append; [lia | done | done]).
  split_and!.
  - (* the search stops at the slot just written *)
    revert Hrem. unfold dpdk_remove_client. unfold_monad. simpl.
    destruct (find_client_spec p (S (Z.to_nat (nr_clients s1))) s1 0)
      as (k & Hfind & Hk & Hfound & Hnot); [done | lia | lia |].
    rewrite Hfind. simpl.
    assert (Hget : array_get (clients s1) (nr_clients s) = Some p).
    { rewrite Hc1. unfold array_get.
      destruct (Z.ltb_spec (nr_clients s) 0); [lia|].
      apply list_lookup_insert_eq. lia. }
    assert (Hkeq : k = nr_clients s).
    { destruct (Z.lt_trichotomy k (nr_clients s)) as [Hlt|[Heq|Hgt]];
        [|done|].
      - exfalso. apply registered_false in Hreg. apply Hreg.
        apply (array_get_client_list s k); [done | lia |].
        rewrite <- (Hfound ltac:(lia)). rewrite Hc1. unfold array_get.
        destruct (Z.ltb_spec k 0); [done|].
        symmetry. apply list_lookup_insert_ne. lia.
      - exfalso. apply (Hnot (nr_clients s)); [lia | done]. }
    subst k.
    destruct (Z.eqb_spec (nr_clients s) (nr_clients s1)); [lia|].
    rewrite Hn1. replace (nr_clients s + 1 - 1) with (nr_clients s) by lia.
    rewrite Hget. rewrite array_set_in_bounds
      by (rewrite Hc1, length_insert; lia).
    simpl. rewrite Hp1, Hp. simpl.
    destruct (rte_hash_del_key (mac_to_proc s1) (mac pr)) as [r h'].
    destruct (r <? 0); simpl;
      destruct (lrpc_send (lrpc_data_to_control s1)
                  CONTROL_PLANE_REMOVE_CLIENT p) as [[] c']; simpl;
      intros [= <-]; unfold client_list; simpl;
      rewrite Hc1, !take_insert_ge by lia; done.
  - lia.
  - rewrite Hh2, Hh1.
    destruct (hash_del_table
                {| hash_entries := hash_entries (mac_to_proc s);
                   hash_table := <[mac pr:=p]> (hash_table (mac_to_proc s)) |}
                (mac pr)) as [Htab Hent].
    revert Htab Hent.
    generalize (rte_hash_del_key
                  {| hash_entries := hash_entries (mac_to_proc s);
                     hash_table := <[mac pr:=p]> (hash_table (mac_to_proc s)) |}
                  (mac pr)).2.
    intros [e t]. simpl. intros -> ->.
    rewrite delete_insert_id by done. by destruct (mac_to_proc s).
Qed.

Lemma add_then_remove_witness :
  ∃ s1 s2,
    dpdk_add_client 3000
      (after_ops [AddClient 1000; AddClient 2000]
         (dp_init example_procs ∅ [])) = Ok (tt, s1) ∧
    dpdk_remove_client 3000 s1 = Ok (tt, s2) ∧
    client_list s2 = [1000; 2000] ∧
    nr_clients s2 = 2.
Proof.
  destruct (add_then_remove
              (after_ops [AddClient 1000; AddClient 2000]
                 (dp_init example_procs ∅ []))
              3000 (example_proc (mac_of 3) 4))
    as (s1 & s2 & Hadd & Hrem & Hl & Hn & _);
    [vm_compute; reflexivity | vm_compute; reflexivity
    | vm_compute; reflexivity | vm_compute; reflexivity
    | vm_compute; reflexivity | vm_compute; reflexivity |].
  exists s1, s2. split; [exact Hadd|]. split; [exact Hrem|].
  split; [rewrite Hl | rewrite Hn]; vm_compute; reflexivity.
Defined.

Lemma add_client_bounds (s s' : dp_state) (p : Z) :
  dp_bounds s = true →
  dpdk_add_client p s = Ok (tt, s') →
  dp_bounds s' = true ∧ length (clients s') = length (clients s).
Proof.
  intros Hb%dp_bounds_inv. unfold dpdk_add_client. unfold_monad. simpl.
  unfold array_set.
  destruct (Z.leb_spec 0 (nr_clients s)); simpl; [|done].
  destruct (Z.ltb_spec (nr_clients s) (Z.of_nat (length (clients s))));
    simpl; [|done].
  destruct (procs s !! p) as [pr|]; [|done]. simpl.
  destruct (rte_hash_add_key_data (mac_to_proc s) (mac pr) p) as [r h'].
  simpl. unfold dp_bounds.
  destruct (r <? 0); intros [= <-]; simpl; rewrite length_insert;
    (split; [|done]); apply andb_true_intro; split; apply Z.leb_le; lia.
Qed.

Lemma remove_client_bounds (s s' : dp_state) (p : Z) :
  dp_bounds s = true →
  dpdk_remove_client p s = Ok (tt, s') →
  dp_bounds s' = true ∧ length (clients s') = length (clients s).
Proof.
  intros Hb. pose proof (dp_bounds_inv s Hb) as Hnr.
  unfold dpdk_remove_client. unfold_monad. simpl.
  destruct (find_client_spec p (S (Z.to_nat (nr_clients s))) s 0)
    as (k & Hfind & Hk & _); [done | lia | lia |].
  rewrite Hfind. simpl.
  destruct (Z.eqb_spec k (nr_clients s)) as [_|Hne].
  { by intros [= <-]. }
  destruct (array_get (clients s) (nr_clients s - 1)) as [last|]; [|done].
  rewrite array_set_in_bounds by lia. simpl.
  destruct (procs s !! p) as [pr|]; [|done]. simpl.
  destruct (rte_hash_del_key (mac_to_proc s) (mac pr)) as [r h'].
  unfold dp_bounds.
  destruct (r <? 0); simpl;
    destruct (lrpc_send (lrpc_data_to_control s)
                CONTROL_PLANE_REMOVE_CLIENT p) as [[] c']; simpl;
    intros [= <-]; simpl; rewrite length_insert;
    (split; [|done]); apply andb_true_intro; split; apply Z.leb_le; lia.
Qed.

(** The count never leaves the array: whatever commands the control plane
    sends, in every state that a returning sequence of [AddClient] and
    [RemoveClient] leads through, [nr_clients] lies between zero and the
    length of the array, and that length has not changed. *)
Theorem commands_keep_bounds (ops : list op) :
  ∀ (s : dp_state) (l : list dp_state),
    dp_bounds s = true →
    run_ops ops s = Ok l →
    Forall (λ s', dp_bounds s' = true ∧
                  length (clients s') = length (clients s)) l.
Proof.
  induction ops as [|o ops IH]; intros s l Hb; simpl.
  { intros [= <-]. constructor. }
  destruct (apply_op o s) as [[[] s1]|] eqn:Hstep; [|done].
  destruct (run_ops ops s1) as [l1|] eqn:Hrest; [|done].
  intros [= <-].
  assert (H1 : dp_bounds s1 = true ∧ length (clients s1) = length (clients s)).
  { destruct o as [p|p]; simpl in Hstep.
    - by apply (add_client_bounds s s1 p).
    - by apply (remove_client_bounds s s1 p). }
  destruct H1 as [Hb1 Hl1]. constructor; [done|].
  eapply Forall_impl; [apply (IH s1 l1 Hb1 Hrest)|].
  simpl. intros s2 [? ?]. split; [done | congruence].
Qed.

Lemma commands_keep_bounds_witness :
  ∃ l,
    run_ops [AddClient 1000; AddClient 1000; RemoveClient 2000;
             RemoveClient 1000]
      (dp_init example_procs ∅ []) = Ok l ∧
    Forall (λ s', dp_bounds s' = true ∧ length (clients s') = 128%nat) l.
Proof.
  destruct (run_ops [AddClient 1000; AddClient 1000; RemoveClient 2000;
                     RemoveClient 1000]
              (dp_init example_procs ∅ [])) as [l|] eqn:Hrun.
  - exists l. split; [reflexivity|].
    apply (commands_keep_bounds
             [AddClient 1000; AddClient 1000; RemoveClient 2000;
              RemoveClient 1000]
             (dp_init example_procs ∅ []) l);
      [vm_compute; reflexivity | exact Hrun].
  - exfalso. revert Hrun. vm_compute. discriminate.
Defined.

(** ** What the receive path leaves alone *)

Lemma enqueue_inv (s s' : dp_state) (net_hdr p : Z) (ok : bool) :
  dpdk_enqueue_to_runtime net_hdr p s = Ok (ok, s') →
  same_globals s s' ∧
  mbufs s' = mbufs s ∧
  ∃ i, trace s' =
         trace s ++ [EvSend (ChanRxq p i) RX_NET_RECV
                       (net_hdr - ingress_mbuf_region_base s) ok].
Proof.
  unfold dpdk_enqueue_to_runtime. unfold_monad. simpl.
  destruct (procs s !! p) as [pr|]; [|done]. simpl.
  destruct (choose_thread _ (thread_count pr)) as [i|]; [|done].
  destruct (if i <? 0 then None else threads pr !! Z.to_nat i) as [t|];
    [|done].
  simpl.
  destruct (lrpc_send (rxq t) RX_NET_RECV
              (net_hdr - ingress_mbuf_region_base s)) as [ok' q].
  simpl. intros [= <- <-]. split_and!; [repeat split | done |].
  by exists i.
Qed.

Lemma prepend_inv (s s' : dp_state) (buf net_hdr : Z) :
  dpdk_prepend_rx_preamble buf s = Ok (net_hdr, s') →
  same_globals s s' ∧ procs s' = procs s ∧ trace s' = trace s.
Proof.
  unfold dpdk_prepend_rx_preamble, rte_pktmbuf_prepend. unfold_monad. simpl.
  destruct (mbufs s !! buf) as [m|]; [|done]. simpl.
  destruct (data_off m <? sizeof_rx_net_hdr); [done|]. simpl.
  rewrite lookup_insert_eq. simpl.
  intros [= <- <-]. split_and!; [repeat split | done | done].
Qed.

Lemma free_inv (s s' : dp_state) (buf : Z) :
  rte_pktmbuf_free buf s = Ok (tt, s') →
  same_globals s s' ∧ procs s' = procs s ∧
  trace s' = trace s ++ [EvFree buf].
Proof.
  unfold rte_pktmbuf_free. unfold_monad. simpl.
  destruct (mbufs s !! buf) as [m|]; [|done]. simpl.
  destruct (refcnt m =? 1); simpl.
  - intros [= <-]. split_and!; [repeat split | done | done].
  - destruct (wrap16 (refcnt m - 1) =? 0); simpl; intros [= <-];
      (split_and!; [repeat split | done | done]).
Qed.

Lemma refcnt_update_inv (s s' : dp_state) (buf value : Z) :
  rte_mbuf_refcnt_update buf value s = Ok (tt, s') →
  same_globals s s' ∧ procs s' = procs s ∧
  trace s' = trace s ++ [EvRefcntUpdate buf value].
Proof.
  unfold rte_mbuf_refcnt_update. unfold_monad. simpl.
  destruct (mbufs s !! buf) as [m|]; [|done]. simpl.
  intros [= <-]. split_and!; [repeat split | done | done].
Qed.

Lemma same_globals_base (s s' : dp_state) :
  same_globals s s' →
  ingress_mbuf_region_base s' = ingress_mbuf_region_base s.
Proof. by intros (_ & _ & _ & _ & _ & ? & _). Qed.

(** Whenever the broadcast loop returns, it has sent to the clients from
    slot [j] on, in the order of the array, the same command and the same
    payload to each, and it has left the globals and the buffers alone. *)
Lemma broadcast_loop_sends (net_hdr : Z) (fuel : nat) :
  ∀ (s s' : dp_state) (j n_sent n : Z),
    nr_clients s < 2 ^ 16 →
    0 ≤ j →
    broadcast_loop fuel net_hdr j n_sent s = Ok (n, s') →
    same_globals s s' ∧
    mbufs s' = mbufs s ∧
    ∃ evs,
      trace s' = trace s ++ evs ∧
      omap rxq_send evs =
        map (λ p, (p, RX_NET_RECV, net_hdr - ingress_mbuf_region_base s))
            (drop (Z.to_nat j) (client_list s)).
Proof.
  induction fuel as [|fuel IH]; intros s s' j n_sent n Hnr Hj; [done|].
  unfold broadcast_loop; fold broadcast_loop. unfold_monad. simpl.
  destruct (Z.ltb_spec j (nr_clients s)) as [Hlt|Hge].
  - destruct (array_get (clients s) j) as [p|] eqn:Hget; [|done].
    destruct (dpdk_enqueue_to_runtime net_hdr p s) as [[ok s1]|] eqn:Hq;
      [|done].
    destruct (enqueue_inv _ _ _ _ _ Hq) as (Hg & Hmb & i & Htr).
    pose proof (client_list_same _ _ Hg) as Hcl.
    pose proof (same_globals_base _ _ Hg) as Hbase.
    pose proof Hg as (_ & Hn1 & _).
    rewrite wrap16_small by lia.
    assert (Hdrop : drop (Z.to_nat j) (client_list s)
                    = p :: drop (Z.to_nat (j + 1)) (client_list s)).
    { replace (Z.to_nat (j + 1)) with (S (Z.to_nat j)) by lia.
      apply drop_S. unfold client_list. rewrite lookup_take_lt by lia.
      unfold array_get in Hget. by destruct (Z.ltb_spec j 0); [lia|]. }
    destruct ok.
    + intros Hloop. apply IH in Hloop; [|lia|lia].
      destruct Hloop as (Hg' & Hmb' & evs & Htr' & Hsends).
      split_and!; [by eapply same_globals_trans | congruence |].
      eexists (_ :: evs). split.
      * rewrite Htr', Htr. by rewrite <- app_assoc.
      * rewrite Hdrop. simpl. f_equal.
        etrans; [exact Hsends|]. by rewrite Hcl, Hbase.
    + intros Hloop. apply IH in Hloop; [|simpl; lia|lia].
      destruct Hloop as (Hg' & Hmb' & evs & Htr' & Hsends).
      simpl in Hmb', Htr', Hsends.
      split_and!.
      * eapply same_globals_trans; [exact Hg|].
        eapply same_globals_trans; [|exact Hg']. repeat split.
      * congruence.
      * eexists (_ :: _ :: evs). split.
        -- rewrite Htr', Htr. by rewrite <- !app_assoc.
        -- rewrite Hdrop. simpl. f_equal.
           etrans; [exact Hsends|].
           change (client_list (set_trace _ s1)) with (client_list s1).
           by rewrite Hcl, Hbase.
  - intros [= <- <-]. split_and!; [apply same_globals_refl | done |].
    exists []. split; [by rewrite app_nil_r|].
    rewrite drop_ge; [done|].
    unfold client_list. rewrite length_take. lia.
Qed.

Lemma broadcast_loop_inv (net_hdr : Z) (fuel : nat) :
  ∀ (s s' : dp_state) (j n_sent n : Z),
    broadcast_loop fuel net_hdr j n_sent s = Ok (n, s') →
    same_globals s s'.
Proof.
  induction fuel as [|fuel IH]; intros s s' j n_sent n; [done|].
  unfold broadcast_loop; fold broadcast_loop. unfold_monad. simpl.
  destruct (j <? nr_clients s); [|intros [= <- <-]; apply same_globals_refl].
  destruct (array_get (clients s) j) as [p|]; [|done].
  destruct (dpdk_enqueue_to_runtime net_hdr p s) as [[ok s1]|] eqn:Hq;
    [|done].
  destruct (enqueue_inv _ _ _ _ _ Hq) as (Hg & _).
  destruct ok; intros Hloop%IH.
  - by eapply same_globals_trans.
  - eapply same_globals_trans; [exact Hg|].
    eapply same_globals_trans; [|exact Hloop]. repeat split.
Qed.

Lemma rx_packet_inv (s s' : dp_state) (buf : Z) :
  rx_packet buf s = Ok (tt, s') → same_globals s s'.
Proof.
  unfold rx_packet. unfold_monad. simpl.
  destruct (mbufs s !! buf) as [m|]; [|done]. simpl.
  set (s0 := set_trace _ s).
  assert (Hg0 : same_globals s s0) by repeat split.
  destruct (is_unicast_ether_addr (d_addr m)).
  - simpl. destruct (rte_hash_lookup_data (mac_to_proc s) (d_addr m)) as [p|].
    + destruct (dpdk_prepend_rx_preamble buf s0) as [[h s1]|] eqn:Hpre;
        [|done].
      destruct (prepend_inv _ _ _ _ Hpre) as (Hg1 & _).
      destruct (dpdk_enqueue_to_runtime h p s1) as [[ok s2]|] eqn:Hq; [|done].
      destruct (enqueue_inv _ _ _ _ _ Hq) as (Hg2 & _).
      assert (Hg : same_globals s s2).
      { eapply same_globals_trans; [exact Hg0|].
        by eapply same_globals_trans. }
      destruct ok.
      * by intros [= <-].
      * intros (Hg3 & _)%free_inv.
        eapply same_globals_trans; [exact Hg|].
        eapply same_globals_trans; [|exact Hg3]. repeat split.
    + intros (Hg3 & _)%free_inv.
      eapply same_globals_trans; [|exact Hg3]. repeat split.
  - simpl.
    destruct (is_broadcast_ether_addr (d_addr m) && (0 <? nr_clients s)).
    + destruct (dpdk_prepend_rx_preamble buf s0) as [[h s1]|] eqn:Hpre;
        [|done].
      destruct (prepend_inv _ _ _ _ Hpre) as (Hg1 & _).
      destruct (broadcast_loop _ h 0 0 s1) as [[n s2]|] eqn:Hloop; [|done].
      apply broadcast_loop_inv in Hloop.
      assert (Hg : same_globals s s2).
      { eapply same_globals_trans; [exact Hg0|].
        by eapply same_globals_trans. }
      destruct (n =? 0).
      * intros (Hg3 & _)%free_inv. by eapply same_globals_trans.
      * intros (Hg3 & _)%refcnt_update_inv. by eapply same_globals_trans.
    + intros (Hg3 & _)%free_inv.
      eapply same_globals_trans; [|exact Hg3]. repeat split.
Qed.

Lemma rx_packets_inv (bufs : list Z) :
  ∀ s s' : dp_state, rx_packets bufs s = Ok (tt, s') → same_globals s s'.
Proof.
  induction bufs as [|buf bufs IH]; intros s s'; simpl.
  { intros [= <-]. apply same_globals_refl. }
  unfold_monad.
  destruct (rx_packet buf s) as [[[] s1]|] eqn:Hone; [|done].
  intros Hrest%IH. apply rx_packet_inv in Hone.
  by eapply same_globals_trans.
Qed.

(** A burst takes at most [PKT_BURST_SIZE] buffers off the receive ring
    and leaves the rest there; it never changes the client array, the
    count, the hash table or either control channel. *)
Theorem rx_burst_frame (s s' : dp_state) (port : Z) :
  dpdk_rx_burst port s = Ok (tt, s') →
  nic_rx_queue s' = drop 32 (nic_rx_queue s) ∧
  clients s' = clients s ∧
  nr_clients s' = nr_clients s ∧
  mac_to_proc s' = mac_to_proc s ∧
  lrpc_control_to_data s' = lrpc_control_to_data s ∧
  lrpc_data_to_control s' = lrpc_data_to_control s.
Proof.
  unfold dpdk_rx_burst, rte_eth_rx_burst. unfold_monad. simpl.
  set (bufs := take _ (nic_rx_queue s)).
  destruct (0 <? Z.of_nat (length bufs)); simpl;
    intros (Hc & Hn & Hh & Hin & Hout & _ & Hq & _)%rx_packets_inv;
    simpl in *; by split_and!.
Qed.

Lemma rx_burst_frame_witness :
  ∃ s',
    dpdk_rx_burst 0 burst_state = Ok (tt, s') ∧
    nic_rx_queue s' = [33; 34; 35; 36; 37; 38; 39; 40] ∧
    nr_clients s' = 0.
Proof.
  destruct (dpdk_rx_burst 0 burst_state) as [[[] s']|] eqn:Hrun.
  - exists s'. split; [reflexivity|].
    destruct (rx_burst_frame burst_state s' 0 Hrun) as (Hq & _ & Hn & _).
    split; [rewrite Hq | rewrite Hn]; vm_compute; reflexivity.
  - exfalso. revert Hrun. vm_compute. discriminate.
Defined.

(** ** Delivery *)

(** A unicast frame for a registered address, in a buffer with the
    reserved headroom, for a live process whose chosen ingress channel has
    room: one RECEIVE message is queued on that one channel, its payload
    the offset of the preamble in the shared region; the buffer is not
    freed and its reference count is not touched. *)
Theorem unicast_delivered (s : dp_state) (buf : Z) (m : rte_mbuf) (p : Z)
    (pr : proc) :
  mbufs s !! buf = Some m →
  is_unicast_ether_addr (d_addr m) = true →
  rte_hash_lookup_data (mac_to_proc s) (d_addr m) = Some p →
  preamble_space_reserved m = true →
  procs s !! p = Some pr →
  proc_ok pr = true →
  next_rxq_full s p = false →
  ∃ s' i t,
    rx_packet buf s = Ok (tt, s') ∧
    0 ≤ i < thread_count pr ∧
    threads pr !! Z.to_nat i = Some t ∧
    trace s' =
      trace s ++
      [EvLog LOG_DEBUG "dpdk: rx packet with MAC";
       EvSend (ChanRxq p i) RX_NET_RECV
         (buf_addr m + (data_off m - sizeof_rx_net_hdr)
          - ingress_mbuf_region_base s) true] ∧
    procs s' =
      <[p := set_rxq
               {| chan_size := chan_size (rxq t);
                  chan_msgs :=
                    chan_msgs (rxq t) ++
                    [(RX_NET_RECV,
                      buf_addr m + (data_off m - sizeof_rx_net_hdr)
                      - ingress_mbuf_region_base s)] |}
               (Z.to_nat i) pr]> (procs s) ∧
    mbufs s' = <[buf := with_preamble m]> (mbufs s).
Proof.
  intros Hm Huni Hsome Hroom Hp Hok Hfull.
  pose proof Hok as Hok'. unfold proc_ok in Hok'.
  apply andb_prop in Hok' as [H1 H2].
  apply Z.leb_le in H1. apply Z.leb_le in H2.
  destruct (choose_thread_in_bounds (next_rand s) (thread_count pr))
    as (i & Hi & Hrange); [apply next_rand_range | done |].
  destruct (lookup_lt_is_Some_2 (threads pr) (Z.to_nat i)) as [t Ht]; [lia|].
  assert (Ht' : (if i <? 0 then None else threads pr !! Z.to_nat i) = Some t).
  { destruct (Z.ltb_spec i 0); [lia | done]. }
  unfold next_rxq_full in Hfull. rewrite Hp, Hi, Ht' in Hfull.
  unfold rx_packet. unfold_monad. simpl. rewrite Hm, Huni. simpl.
  rewrite Hsome.
  match goal with
  | |- context [dpdk_prepend_rx_preamble buf ?s0] =>
      rewrite (prepend_spec s0 buf m Hm Hroom)
  end.
  match goal with
  | |- context [dpdk_enqueue_to_runtime ?h p ?s0] =>
      destruct (enqueue_run s0 h p pr i t Hp Hi Ht')
        as (s2 & Hrun & Hg & Hmb & Hps & Hrp & Htr)
  end.
  rewrite Hrun, Hfull. simpl.
  exists s2, i, t. split_and!; try done; try lia.
  - rewrite Htr. simpl. rewrite Hfull. simpl. by rewrite <- app_assoc.
  - rewrite Hps. simpl. unfold lrpc_send.
    unfold chan_full in Hfull. apply Z.leb_gt in Hfull.
    destruct (Z.ltb_spec (Z.of_nat (length (chan_msgs (rxq t))))
                (chan_size (rxq t))); [done | lia].
Qed.

Lemma unicast_delivered_witness :
  ∃ s' i,
    rx_packet 1 unicast_state = Ok (tt, s') ∧
    0 ≤ i < 2 ∧
    trace s' = [EvLog LOG_DEBUG "dpdk: rx packet with MAC";
                EvSend (ChanRxq 2000 i) RX_NET_RECV 4208 true] ∧
    mbufs s' !! 1 =
      Some (with_preamble (example_mbuf (mac_of 2) PKT_RX_IP_CKSUM_GOOD)).
Proof.
  destruct (unicast_delivered unicast_state 1
              (example_mbuf (mac_of 2) PKT_RX_IP_CKSUM_GOOD) 2000
              (example_proc (mac_of 2) 4))
    as (s' & i & t & Hrun & Hi & _ & Htr & _ & Hmb);
    [vm_compute; reflexivity | vm_compute; reflexivity
    | vm_compute; reflexivity | vm_compute; reflexivity
    | vm_compute; reflexivity | vm_compute; reflexivity
    | vm_compute; reflexivity |].
  exists s', i. split; [exact Hrun|]. split; [exact Hi|].
  split; [exact Htr|].
  rewrite Hmb. apply lookup_insert_eq.
Defined.

(** A broadcast frame reaches every registered client: the sends of the
    dispatch are one per slot of the client list, in the order of the
    array, each with the command RECEIVE and the same payload, the offset
    of the one preamble. *)
Theorem broadcast_reaches_every_client (s : dp_state) (buf : Z)
    (m : rte_mbuf) :
  dp_bounds s = true →
  dp_array s = true →
  clients_live s = true →
  mbufs s !! buf = Some m →
  is_broadcast_ether_addr (d_addr m) = true →
  0 < nr_clients s →
  preamble_space_reserved m = true →
  ∃ s' evs,
    rx_packet buf s = Ok (tt, s') ∧
    trace s' = trace s ++ evs ∧
    omap rxq_send evs =
      map (λ p, (p, RX_NET_RECV,
                 buf_addr m + (data_off m - sizeof_rx_net_hdr)
                 - ingress_mbuf_region_base s))
          (client_list s).
Proof.
  intros Hb Harr Hlive Hm Hbc Hnr Hroom.
  pose proof (dp_array_inv s Harr) as Hlen.
  pose proof (dp_bounds_inv s Hb) as Hbnd.
  unfold rx_packet. unfold_monad. simpl.
  rewrite Hm, (broadcast_not_unicast _ Hbc). simpl. rewrite Hbc.
  destruct (Z.ltb_spec 0 (nr_clients s)) as [_|?]; [|lia]. simpl.
  set (dbg := EvLog LOG_DEBUG "dpdk: rx packet with MAC").
  match goal with
  | |- context [dpdk_prepend_rx_preamble buf ?s0] =>
      rewrite (prepend_spec s0 buf m Hm Hroom)
  end.
  simpl.
  match goal with
  | |- context [broadcast_loop ?f ?h 0 0 ?s0] =>
      destruct (broadcast_loop_spec h f s0 0 0)
        as (s2 & evs0 & Hloop & _ & Hmb & _);
      [ done | simpl; lia | done | simpl; lia | simpl; lia | lia | ];
      pose proof (broadcast_loop_sends h f s0 s2 0 0 _
                    ltac:(simpl; lia) ltac:(lia) Hloop)
        as (_ & _ & evs & Htr & Hsends)
  end.
  rewrite Hloop. simpl in Hmb, Htr, Hsends. clear Hloop.
  rewrite drop_0 in Hsends.
  change (client_list (set_mbufs _ (set_trace _ s))) with (client_list s)
    in Hsends.
  assert (Hbuf : mbufs s2 !! buf = Some (with_preamble m)).
  { rewrite Hmb. apply lookup_insert_eq. }
  destruct (0 + count_events is_send_ok evs0 =? 0).
  - destruct (free_spec s2 buf _ Hbuf) as (m' & Hfree & _). rewrite Hfree.
    eexists _, (dbg :: evs ++ [EvFree buf]). split; [reflexivity|]. simpl.
    split; [rewrite Htr; by rewrite <- !app_assoc|].
    rewrite omap_app. simpl. rewrite app_nil_r. exact Hsends.
  - rewrite (refcnt_update_spec s2 buf _ _ Hbuf).
    eexists _, (dbg :: evs ++ [_]). split; [reflexivity|]. simpl.
    split; [rewrite Htr; by rewrite <- !app_assoc|].
    rewrite omap_app. simpl. rewrite app_nil_r. exact Hsends.
Qed.

Lemma broadcast_reaches_every_client_witness :
  ∃ s' evs,
    rx_packet 1 three_clients_broadcast = Ok (tt, s') ∧
    trace s' = evs ∧
    omap rxq_send evs =
      [(1000, RX_NET_RECV, 4208); (2000, RX_NET_RECV, 4208);
       (3000, RX_NET_RECV, 4208)].
Proof.
  destruct (broadcast_reaches_every_client three_clients_broadcast 1
              (example_mbuf broadcast_mac PKT_RX_IP_CKSUM_GOOD))
    as (s' & evs & Hrun & Htr & Hsends);
    [vm_compute; reflexivity | vm_compute; reflexivity
    | vm_compute; reflexivity | vm_compute; reflexivity
    | vm_compute; reflexivity | vm_compute; reflexivity
    | vm_compute; reflexivity |].
  exists s', evs. split; [exact Hrun|]. split; [exact Htr|].
  rewrite Hsends. vm_compute. reflexivity.
Defined.

(** Without the reserved headroom the preamble cannot be written: a
    unicast frame for a registered address, or a broadcast frame while a
    client is registered, in a buffer whose headroom is smaller than the
    preamble makes the dispatch undefined (the assertion after
    [rte_pktmbuf_prepend]). *)
Theorem rx_packet_without_headroom (s : dp_state) (buf : Z) (m : rte_mbuf) :
  mbufs s !! buf = Some m →
  data_off m < sizeof_rx_net_hdr →
  (is_unicast_ether_addr (d_addr m) = true ∧
   is_Some (rte_hash_lookup_data (mac_to_proc s) (d_addr m))) ∨
  (is_broadcast_ether_addr (d_addr m) = true ∧ 0 < nr_clients s) →
  rx_packet buf s = Err UndefinedBehaviour.
Proof.
  intros Hm Hoff Hcase.
  unfold rx_packet. unfold_monad. simpl. rewrite Hm.
  destruct Hcase as [[Huni [p Hp]]|[Hbc Hnr]].
  - rewrite Huni. simpl. rewrite Hp.
    match goal with
    | |- context [dpdk_prepend_rx_preamble buf ?s0] =>
        by rewrite (prepend_without_headroom s0 buf m Hm Hoff)
    end.
  - rewrite (broadcast_not_unicast _ Hbc). simpl. rewrite Hbc.
    destruct (Z.ltb_spec 0 (nr_clients s)); [|lia]. simpl.
    match goal with
    | |- context [dpdk_prepend_rx_preamble buf ?s0] =>
        by rewrite (prepend_without_headroom s0 buf m Hm Hoff)
    end.
Qed.

Lemma rx_packet_without_headroom_witness :
  rx_packet 1 (set_mbufs {[ 1 := cramped_mbuf broadcast_mac ]}
                 three_clients_broadcast)
  = Err UndefinedBehaviour.
Proof.
  apply (rx_packet_without_headroom
           (set_mbufs {[ 1 := cramped_mbuf broadcast_mac ]}
              three_clients_broadcast)
           1 (cramped_mbuf broadcast_mac)).
  - vm_compute. reflexivity.
  - vm_compute. reflexivity.
  - right. split; vm_compute; reflexivity.
Defined.

(** No leak and no double free: in a state whose registered clients and
    whose table entry for the frame are live processes with their
    threads, every frame in a buffer with the reserved headroom is
    dispatched to the end, and its buffer is freed exactly once when no
    send succeeded and not at all when one did. *)
Theorem freed_iff_not_delivered (s : dp_state) (buf : Z) (m : rte_mbuf) :
  dp_bounds s = true →
  dp_array s = true →
  clients_live s = true →
  mbufs s !! buf = Some m →
  preamble_space_reserved m = true →
  (∀ p, rte_hash_lookup_data (mac_to_proc s) (d_addr m) = Some p →
        ∃ pr, procs s !! p = Some pr ∧ proc_ok pr = true) →
  ∃ s' evs,
    rx_packet buf s = Ok (tt, s') ∧
    trace s' = trace s ++ evs ∧
    count_events (is_free_of buf) evs
      = (if count_events is_send_ok evs =? 0 then 1 else 0) ∧
    count_events (is_refcnt_update_of buf) evs ≤ 1.
Proof.
  intros Hb Harr Hlive Hm Hroom Htarget.
  destruct (is_unicast_ether_addr (d_addr m)) eqn:Huni.
  - destruct (rte_hash_lookup_data (mac_to_proc s) (d_addr m)) as [p|]
      eqn:Hlook.
    + destruct (Htarget p eq_refl) as (pr & Hp & Hok).
      unfold rx_packet. unfold_monad. simpl. rewrite Hm, Huni. simpl.
      rewrite Hlook.
      match goal with
      | |- context [dpdk_prepend_rx_preamble buf ?s0] =>
          rewrite (prepend_spec s0 buf m Hm Hroom)
      end.
      match goal with
      | |- context [dpdk_enqueue_to_runtime ?h p ?s0] =>
          destruct (enqueue_spec s0 h p pr Hp Hok)
            as (i & t & s2 & Hrun & _ & _ & _ & Hmb & _ & Htr)
      end.
      rewrite Hrun. simpl in Htr, Hmb.
      destruct (chan_full (rxq t)); simpl.
      * free_step buf (with_preamble m).
        { rewrite Hmb. apply lookup_insert_eq. }
        eexists _, [_; _; _; _]. split; [reflexivity|]. simpl.
        rewrite Htr. rewrite <- !app_assoc. split; [reflexivity|].
        unfold count_events. simpl. rewrite Z.eqb_refl. simpl. lia.
      * eexists _, [_; _]. split; [reflexivity|].
        rewrite Htr. rewrite <- !app_assoc. split; [reflexivity|].
        unfold count_events. simpl. lia.
    + unfold rx_packet. unfold_monad. simpl. rewrite Hm, Huni. simpl.
      rewrite Hlook. simpl.
      free_step buf m.
      eexists _, [_; _; _]. split; [reflexivity|]. simpl.
      rewrite <- !app_assoc. split; [reflexivity|].
      unfold count_events. simpl. rewrite Z.eqb_refl. simpl. lia.
  - destruct (is_broadcast_ether_addr (d_addr m) && (0 <? nr_clients s))
      eqn:Hbc.
    + apply andb_prop in Hbc as [Hbc Hnr]. apply Z.ltb_lt in Hnr.
      destruct (rx_broadcast_spec s buf m Hb Harr Hlive Hm Hbc Hnr Hroom)
        as (s' & pre & m' & Hrun & _ & _ & _ & Hfree & Hupd & _ & H0 & HN).
      pose proof (count_events_nonneg is_send_ok pre) as Hge.
      destruct (Z.eqb_spec (count_events is_send_ok pre) 0) as [Hz|Hnz].
      * destruct (H0 Hz) as [Htr _].
        exists s', (pre ++ [EvFree buf]). split; [done|]. split; [done|].
        rewrite !count_events_app, Hfree, Hupd, Hz.
        unfold count_events. simpl. rewrite Z.eqb_refl. simpl. lia.
      * destruct (HN ltac:(lia)) as [Htr _].
        eexists s', (pre ++ [_]). split; [done|]. split; [exact Htr|].
        rewrite !count_events_app, Hfree, Hupd.
        change (count_events (is_free_of buf) [EvRefcntUpdate buf _])
          with 0.
        change (count_events is_send_ok [EvRefcntUpdate buf _]) with 0.
        destruct (Z.eqb_spec (count_events is_send_ok pre + 0) 0); [lia|].
        split; [done|]. unfold count_events. simpl.
        destruct (buf =? buf); simpl; lia.
    + unfold rx_packet. unfold_monad. simpl. rewrite Hm, Huni. simpl.
      rewrite Hbc. simpl.
      free_step buf m.
      eexists _, [_; _; _]. split; [reflexivity|]. simpl.
      rewrite <- !app_assoc. split; [reflexivity|].
      unfold count_events. simpl. rewrite Z.eqb_refl. simpl. lia.
Qed.

Lemma freed_iff_not_delivered_witness :
  ∃ s' evs,
    rx_packet 1 unicast_state = Ok (tt, s') ∧
    trace s' = evs ∧
    count_events (is_free_of 1) evs
      = (if count_events is_send_ok evs =? 0 then 1 else 0).
Proof.
  destruct (freed_iff_not_delivered unicast_state 1
              (example_mbuf (mac_of 2) PKT_RX_IP_CKSUM_GOOD))
    as (s' & evs & Hrun & Htr & Hfree & _);
    [vm_compute; reflexivity | vm_compute; reflexivity
    | vm_compute; reflexivity | vm_compute; reflexivity
    | vm_compute; reflexivity | |].
  - intros p Hp. vm_compute in Hp. injection Hp as <-.
    exists (example_proc (mac_of 2) 4).
    split; vm_compute; reflexivity.
  - exists s', evs. split; [exact Hrun|]. split; [exact Htr | exact Hfree].
Defined.

(** ** The control loop as a sequence of commands *)

Lemma set_inbound_id (s : dp_state) :
  set_lrpc_control_to_data (lrpc_control_to_data s) s = s.
Proof. by destruct s. Qed.

Lemma find_client_inbound (p : Z) (c : list (Z * Z)) (fuel : nat) :
  ∀ (s : dp_state) (i : Z),
    find_client fuel p i (set_lrpc_control_to_data c s)
    = on_state (set_lrpc_control_to_data c) (find_client fuel p i s).
Proof.
  induction fuel as [|fuel IH]; intros s i; [done|].
  unfold find_client; fold find_client. unfold_monad. simpl.
  destruct (i <? nr_clients s); [|done]. simpl.
  destruct (array_get (clients s) i) as [x|]; [|done].
  destruct (x =? p); [done | apply IH].
Qed.

Lemma add_client_inbound (p : Z) (c : list (Z * Z)) (s : dp_state) :
  dpdk_add_client p (set_lrpc_control_to_data c s)
  = on_state (set_lrpc_control_to_data c) (dpdk_add_client p s).
Proof.
  unfold dpdk_add_client. unfold_monad. simpl.
  destruct (array_set (clients s) (nr_clients s) p); [|done]. simpl.
  destruct (procs s !! p) as [pr|]; [|done]. simpl.
  destruct (rte_hash_add_key_data (mac_to_proc s) (mac pr) p) as [r h'].
  simpl. by destruct (r <? 0).
Qed.

Lemma remove_client_inbound (p : Z) (c : list (Z * Z)) (s : dp_state) :
  dpdk_remove_client p (set_lrpc_control_to_data c s)
  = on_state (set_lrpc_control_to_data c) (dpdk_remove_client p s).
Proof.
  unfold dpdk_remove_client. unfold_monad. simpl.
  rewrite find_client_inbound.
  destruct (find_client (S (Z.to_nat (nr_clients s))) p 0 s)
    as [[k s1]|] eqn:Hfind; [|done].
  apply find_client_state in Hfind as ->. simpl.
  destruct (k =? nr_clients s); [done|]. simpl.
  destruct (array_get (clients s) (nr_clients s - 1)) as [last|]; [|done].
  destruct (array_set (clients s) k last); [|done]. simpl.
  destruct (procs s !! p) as [pr|]; [|done]. simpl.
  destruct (rte_hash_del_key (mac_to_proc s) (mac pr)) as [r h'].
  destruct (r <? 0); simpl;
    by destruct (lrpc_send (lrpc_data_to_control s)
                   CONTROL_PLANE_REMOVE_CLIENT p) as [[] c'].
Qed.

Lemma dispatch_command_inbound (msg : Z * Z) (c : list (Z * Z))
    (s : dp_state) :
  dispatch_command msg (set_lrpc_control_to_data c s)
  = on_state (set_lrpc_control_to_data c) (dispatch_command msg s).
Proof.
  unfold dispatch_command.
  destruct (msg.1 =? DATAPLANE_ADD_CLIENT); [apply add_client_inbound|].
  destruct (msg.1 =? DATAPLANE_REMOVE_CLIENT); [apply remove_client_inbound|].
  done.
Qed.

Lemma rx_control_loop_sequence (fuel : nat) :
  ∀ (n_rx : Z) (s : dp_state),
    0 ≤ n_rx ≤ CONTROL_BURST_SIZE →
    CONTROL_BURST_SIZE - n_rx < Z.of_nat fuel →
    rx_control_loop fuel n_rx s =
      dispatch_all
        (take (Z.to_nat (CONTROL_BURST_SIZE - n_rx)) (lrpc_control_to_data s))
        (set_lrpc_control_to_data
           (drop (Z.to_nat (CONTROL_BURST_SIZE + 1 - n_rx))
              (lrpc_control_to_data s)) s).
Proof.
  unfold CONTROL_BURST_SIZE.
  induction fuel as [|fuel IH]; intros n_rx s Hn Hfuel; [lia|].
  unfold rx_control_loop; fold rx_control_loop.
  unfold lrpc_recv. unfold_monad. simpl.
  destruct (lrpc_control_to_data s) as [|[cmd payload] q] eqn:Hq; simpl.
  { rewrite take_nil, drop_nil. simpl. unfold ret.
    by rewrite <- Hq, set_inbound_id. }
  unfold CONTROL_BURST_SIZE.
  destruct (Z.ltb_spec n_rx 8) as [Hlt|Hge].
  - rewrite wrap16_small by lia.
    replace (Z.to_nat (8 - n_rx)) with (S (Z.to_nat (8 - (n_rx + 1))))
      by lia.
    replace (Z.to_nat (8 + 1 - n_rx))
      with (S (Z.to_nat (8 + 1 - (n_rx + 1)))) by lia.
    simpl. unfold_monad.
    change (if cmd =? DATAPLANE_ADD_CLIENT
            then dpdk_add_client payload
            else if cmd =? DATAPLANE_REMOVE_CLIENT
                 then dpdk_remove_client payload
                 else λ s0, Ok (tt, set_trace
                                      (trace s0 ++
                                       [EvLog LOG_ERR
                                          "dpdk: received unrecognized command"])
                                      s0))
      with (dispatch_command (cmd, payload)).
    rewrite !dispatch_command_inbound.
    destruct (dispatch_command (cmd, payload) s) as [[[] s1]|] eqn:Hd;
      [|done].
    simpl. rewrite IH by lia. simpl. done.
  - replace (Z.to_nat (8 - n_rx)) with 0%nat by lia.
    replace (Z.to_nat (8 + 1 - n_rx)) with 1%nat by lia.
    done.
Qed.

(** One call of [dpdk_rx_control_lrpcs] is the first eight pending
    commands carried out one after the other, in the order of their
    arrival, with nine messages (or all of them) gone from the channel:
    the same result, the same state or the same error. *)
Theorem rx_control_is_sequence (s : dp_state) :
  dpdk_rx_control_lrpcs s =
    dispatch_all (take 8 (lrpc_control_to_data s))
      (set_lrpc_control_to_data (drop 9 (lrpc_control_to_data s)) s).
Proof.
  unfold dpdk_rx_control_lrpcs.
  rewrite rx_control_loop_sequence; [done | | ];
    unfold CONTROL_BURST_SIZE; simpl; lia.
Qed.

Lemma dispatch_all_unknown (msgs : list (Z * Z)) :
  ∀ s : dp_state,
    forallb unknown_command msgs = true →
    dispatch_all msgs s =
      Ok (tt, set_trace
                (trace s ++
                 replicate (length msgs)
                   (EvLog LOG_ERR "dpdk: received unrecognized command"))
                s).
Proof.
  induction msgs as [|msg msgs IH]; intros s Hall; simpl.
  { unfold ret. rewrite app_nil_r. by destruct s. }
  apply andb_prop in Hall as [Hmsg Hall].
  unfold unknown_command in Hmsg.
  apply andb_prop in Hmsg as [Ha Hr].
  apply negb_true_iff in Ha, Hr.
  unfold_monad. unfold dispatch_command. rewrite Ha, Hr.
  unfold_monad. rewrite (IH _ Hall). simpl.
  by rewrite <- app_assoc.
Qed.

(** Commands the data plane does not know are skipped: with at most
    eight messages pending, none of them an add or a remove, one call
    empties the channel, logs one error per message and changes nothing
    else. *)
Theorem unknown_commands_skipped (s : dp_state) :
  (length (lrpc_control_to_data s) ≤ 8)%nat →
  forallb unknown_command (lrpc_control_to_data s) = true →
  dpdk_rx_control_lrpcs s =
    Ok (tt, set_trace
              (trace s ++
               replicate (length (lrpc_control_to_data s))
                 (EvLog LOG_ERR "dpdk: received unrecognized command"))
              (set_lrpc_control_to_data [] s)).
Proof.
  intros Hlen Hall. rewrite rx_control_is_sequence.
  rewrite take_ge by lia. rewrite drop_ge by lia.
  by rewrite (dispatch_all_unknown _ _ Hall).
Qed.

Lemma unknown_commands_skipped_witness :
  dpdk_rx_control_lrpcs (dp_init example_procs ∅ unknown_commands) =
    Ok (tt, set_trace
              [EvLog LOG_ERR "dpdk: received unrecognized command";
               EvLog LOG_ERR "dpdk: received unrecognized command"]
              (dp_init example_procs ∅ [])).
Proof.
  apply (unknown_commands_skipped (dp_init example_procs ∅ unknown_commands)).
  - simpl. lia.
  - vm_compute. reflexivity.
Defined.

(** ** The polling loop *)

Lemma add_client_keeps_ring (p : Z) (s s' : dp_state) :
  dpdk_add_client p s = Ok (tt, s') → nic_rx_queue s' = nic_rx_queue s.
Proof.
  unfold dpdk_add_client. unfold_monad. simpl.
  destruct (array_set (clients s) (nr_clients s) p); [|done]. simpl.
  destruct (procs s !! p) as [pr|]; [|done]. simpl.
  destruct (rte_hash_add_key_data (mac_to_proc s) (mac pr) p) as [r h'].
  simpl. destruct (r <? 0); intros [= <-]; reflexivity.
Qed.

Lemma remove_client_keeps_ring (p : Z) (s s' : dp_state) :
  dpdk_remove_client p s = Ok (tt, s') → nic_rx_queue s' = nic_rx_queue s.
Proof.
  unfold dpdk_remove_client. unfold_monad. simpl.
  destruct (find_client (S (Z.to_nat (nr_clients s))) p 0 s)
    as [[k s1]|] eqn:Hfind; [|done].
  apply find_client_state in Hfind as ->. simpl.
  destruct (k =? nr_clients s); [intros [= <-]; reflexivity|].
  destruct (array_get (clients s) (nr_clients s - 1)) as [last|]; [|done].
  destruct (array_set (clients s) k last); [|done]. simpl.
  destruct (procs s !! p) as [pr|]; [|done]. simpl.
  destruct (rte_hash_del_key (mac_to_proc s) (mac pr)) as [r h'].
  destruct (r <? 0); simpl;
    destruct (lrpc_send (lrpc_data_to_control s)
                CONTROL_PLANE_REMOVE_CLIENT p) as [[] c']; simpl;
    intros [= <-]; reflexivity.
Qed.

Lemma dispatch_all_keeps_ring (msgs : list (Z * Z)) :
  ∀ s s' : dp_state,
    dispatch_all msgs s = Ok (tt, s') → nic_rx_queue s' = nic_rx_queue s.
Proof.
  induction msgs as [|msg msgs IH]; intros s s'; simpl.
  { by intros [= <-]. }
  unfold_monad.
  destruct (dispatch_command msg s) as [[[] s1]|] eqn:Hd; [|done].
  intros Hrest%IH. rewrite Hrest. revert Hd. unfold dispatch_command.
  destruct (msg.1 =? DATAPLANE_ADD_CLIENT); [apply add_client_keeps_ring|].
  destruct (msg.1 =? DATAPLANE_REMOVE_CLIENT);
    [apply remove_client_keeps_ring|].
  unfold_monad. by intros [= <-].
Qed.

(** What [n] turns of the polling loop take in: whenever they return,
    [32 * n] buffers (or all) have left the receive ring and [9 * n]
    messages (or all) the inbound control channel. *)
Theorem loop_turns_consume (n : nat) (port : Z) :
  ∀ s s' : dp_state,
    dpdk_loop_turns n port s = Ok (tt, s') →
    nic_rx_queue s' = drop (32 * n) (nic_rx_queue s) ∧
    lrpc_control_to_data s' = drop (9 * n) (lrpc_control_to_data s).
Proof.
  induction n as [|n IH]; intros s s'; simpl.
  { by intros [= <-]. }
  unfold dpdk_loop_turn. unfold_monad.
  destruct (dpdk_rx_burst port s) as [[[] s1]|] eqn:Hrx; [|done].
  destruct (dpdk_rx_control_lrpcs s1) as [[[] s2]|] eqn:Hctl; [|done].
  intros [Hq Hc]%IH.
  destruct (rx_burst_frame _ _ _ Hrx) as (Hq1 & _ & _ & _ & Hc1 & _).
  pose proof (rx_control_pops_nine _ _ Hctl) as Hc2.
  rewrite rx_control_is_sequence in Hctl.
  apply dispatch_all_keeps_ring in Hctl. simpl in Hctl.
  rewrite Hq, Hctl, Hq1, Hc, Hc2, Hc1, !drop_drop.
  split; f_equal; lia.
Qed.

Lemma loop_turns_consume_witness :
  ∃ s',
    dpdk_loop_turns 1 0 burst_state = Ok (tt, s') ∧
    nic_rx_queue s' = [33; 34; 35; 36; 37; 38; 39; 40] ∧
    lrpc_control_to_data s' = [].
Proof.
  destruct (dpdk_loop_turns 1 0 burst_state) as [[[] s']|] eqn:Hrun.
  - exists s'. split; [reflexivity|].
    destruct (loop_turns_consume 1 0 burst_state s' Hrun) as [Hq Hc].
    split; [rewrite Hq | rewrite Hc]; vm_compute; reflexivity.
  - exfalso. revert Hrun. vm_compute. discriminate.
Defined.

(** An idle loop does nothing: with no buffer on the receive ring and no
    message on the inbound channel, any number of turns returns the state
    it started from. *)
Theorem idle_turns (n : nat) (port : Z) (s : dp_state) :
  nic_rx_queue s = [] →
  lrpc_control_to_data s = [] →
  dpdk_loop_turns n port s = Ok (tt, s).
Proof.
  intros Hq Hc. induction n as [|n IH]; [done|].
  simpl. unfold dpdk_loop_turn. unfold_monad.
  assert (Hrx : dpdk_rx_burst port s = Ok (tt, s)).
  { unfold dpdk_rx_burst, rte_eth_rx_burst. unfold_monad. simpl.
    rewrite Hq. simpl. unfold ret. rewrite <- Hq. by destruct s. }
  rewrite Hrx.
  assert (Hctl : dpdk_rx_control_lrpcs s = Ok (tt, s)).
  { unfold dpdk_rx_control_lrpcs. simpl.
    unfold rx_control_loop, lrpc_recv. unfold_monad. simpl.
    by rewrite Hc. }
  by rewrite Hctl.
Qed.

Lemma idle_turns_witness :
  dpdk_loop_turns 5 0 three_clients_broadcast
  = Ok (tt, three_clients_broadcast).
Proof.
  apply (idle_turns 5 0 three_clients_broadcast); reflexivity.
Defined.

(** ** More on the mbuf pool *)

Lemma align16_div (v : Z) :
  Pool.RTE_ALIGN16 v Pool.RTE_MBUF_PRIV_ALIGN = wrap16 ((v + 7) / 8 * 8).
Proof.
  unfold Pool.RTE_ALIGN16, Pool.RTE_MBUF_PRIV_ALIGN. f_equal.
  replace (8 - 1) with (Z.ones 3) by reflexivity.
  rewrite <- Z.ldiff_land, Z.ldiff_ones_r by lia.
  rewrite Z.shiftr_div_pow2, Z.shiftl_mul_pow2 by lia. done.
Qed.

(** The alignment check of the constructor passes exactly for the
    private sizes that are multiples of eight; for any other size the
    constructor fails after its two error messages, before any call into
    DPDK. *)
Theorem priv_size_alignment (INGRESS_MBUF_SHM_SIZE : Z) (env : Pool.pool_env)
    (name : string) (n cache_size priv_size data_room_size socket_id : Z) :
  0 ≤ priv_size < 2 ^ 16 →
  (Pool.RTE_ALIGN16 priv_size Pool.RTE_MBUF_PRIV_ALIGN = priv_size ↔
     priv_size mod 8 = 0) ∧
  (priv_size mod 8 ≠ 0 →
     Pool.dpdk_pktmbuf_pool_create_in_shm INGRESS_MBUF_SHM_SIZE env name
       n cache_size priv_size data_room_size socket_id =
     {| Pool.pool_ret := None;
        Pool.ingress_mbuf_region := None;
        Pool.pool_trace :=
          [Pool.PoolLogErr "dpdk: mbuf priv_size is not aligned";
           Pool.PoolLogErr "dpdk: couldn't create pktmbuf pool"] |}).
Proof.
  intros Hp.
  assert (Hiff : Pool.RTE_ALIGN16 priv_size Pool.RTE_MBUF_PRIV_ALIGN
                 = priv_size ↔ priv_size mod 8 = 0).
  { rewrite align16_div. unfold wrap16.
    pose proof (Z.div_mod (priv_size + 7) 8 ltac:(lia)) as Hd.
    pose proof (Z.mod_pos_bound (priv_size + 7) 8 ltac:(lia)) as Hm.
    pose proof (Z.div_mod priv_size 8 ltac:(lia)) as Hd'.
    pose proof (Z.mod_pos_bound priv_size 8 ltac:(lia)) as Hm'.
    set (a := (priv_size + 7) / 8) in *.
    destruct (Z_lt_ge_dec (a * 8) (2 ^ 16)) as [Hlt|Hge].
    - rewrite Z.mod_small by lia. split; intros H.
      + rewrite <- H. rewrite Z.mod_mul; lia.
      + lia.
    - assert (Ha : a * 8 = 2 ^ 16) by lia. rewrite Ha.
      replace (2 ^ 16 mod 2 ^ 16) with 0 by reflexivity.
      split; intros H; [by rewrite <- H | lia]. }
  split; [done|].
  intros Hmis. unfold Pool.dpdk_pktmbuf_pool_create_in_shm.
  destruct (Z.eqb_spec (Pool.RTE_ALIGN16 priv_size Pool.RTE_MBUF_PRIV_ALIGN)
              priv_size) as [Heq|_]; [|done].
  apply Hiff in Heq. done.
Qed.

Lemma priv_size_alignment_witness :
  Pool.dpdk_pktmbuf_pool_create_in_shm 1073741824 Pool.populate_fails
    "MBUF_POOL" 8191 250 12 2176 0 =
  {| Pool.pool_ret := None;
     Pool.ingress_mbuf_region := None;
     Pool.pool_trace :=
       [Pool.PoolLogErr "dpdk: mbuf priv_size is not aligned";
        Pool.PoolLogErr "dpdk: couldn't create pktmbuf pool"] |}.
Proof.
  destruct (priv_size_alignment 1073741824 Pool.populate_fails
              "MBUF_POOL" 8191 250 12 2176 0) as [_ Hmis]; [lia|].
  apply Hmis. vm_compute. discriminate.
Defined.

(** The constructor returns the pool exactly when the private size is
    aligned, the pool was created, its handler was set, the footprint
    fits the region, the region was mapped and the population did not
    fail.  It then leaves the base and the footprint in
    [ingress_mbuf_region], has registered the mapped address with the
    callback that unmaps it, and has neither unmapped nor freed
    anything. *)
Theorem pool_create_success (INGRESS_MBUF_SHM_SIZE : Z) (env : Pool.pool_env)
    (name : string) (n cache_size priv_size data_room_size socket_id : Z)
    (mp : Pool.rte_mempool) :
  let out := Pool.dpdk_pktmbuf_pool_create_in_shm INGRESS_MBUF_SHM_SIZE env
               name n cache_size priv_size data_room_size socket_id in
  let len := Pool.rte_mempool_xmem_size n
               (wrap32 (Pool.header_size mp + Pool.elt_size mp
                        + Pool.trailer_size mp))
               (Pool.rte_bsf32 Pool.PGSIZE_2MB) in
  (Pool.pool_ret out = Some mp ↔
     Pool.RTE_ALIGN16 priv_size Pool.RTE_MBUF_PRIV_ALIGN = priv_size ∧
     Pool.create_empty_result env = Some mp ∧
     Pool.set_ops_ret env = 0 ∧
     len ≤ INGRESS_MBUF_SHM_SIZE ∧
     is_Some (Pool.map_shm_result env) ∧
     0 ≤ Pool.populate_ret env) ∧
  (Pool.pool_ret out = Some mp →
     ∃ shbuf,
       Pool.map_shm_result env = Some shbuf ∧
       Pool.ingress_mbuf_region out = Some (shbuf, len) ∧
       Pool.MempoolPopulateVirt (Pool.mp_addr mp) shbuf len Pool.PGSIZE_2MB
         shbuf (Pool.populate_ret env) ∈ Pool.pool_trace out ∧
       Forall (λ e, Pool.is_unmap_shm e = false ∧
                    Pool.is_mempool_free e = false) (Pool.pool_trace out)).
Proof.
  intros out len. subst out len.
  unfold Pool.dpdk_pktmbuf_pool_create_in_shm.
  destruct (Z.eqb_spec (Pool.RTE_ALIGN16 priv_size Pool.RTE_MBUF_PRIV_ALIGN)
              priv_size) as [Hal|Hal]; simpl.
  2: { split; [split; [done | by intros [? _]] | done]. }
  destruct (Pool.create_empty_result env) as [mp0|]; simpl.
  2: { split; [split; [done | by intros (_ & ? & _)] | done]. }
  destruct (Z.eqb_spec (Pool.set_ops_ret env) 0) as [Hops|Hops]; simpl.
  2: { split; [split; [done | by intros (_ & _ & ? & _)] | done]. }
  match goal with
  | |- context [INGRESS_MBUF_SHM_SIZE <? ?l] =>
      destruct (Z.ltb_spec INGRESS_MBUF_SHM_SIZE l) as [Hbig|Hfit]
  end; simpl.
  { split; [split; [done|] | done].
    intros (_ & [= ->] & _ & Hle & _). lia. }
  destruct (Pool.map_shm_result env) as [shbuf|]; simpl.
  2: { split; [split; [done | by intros (_ & _ & _ & _ & [? ?] & _)]
              | done]. }
  destruct (Z.ltb_spec (Pool.populate_ret env) 0) as [Hpop|Hpop]; simpl.
  { split; [split; [done|] | done]. intros (_ & _ & _ & _ & _ & ?). lia. }
  split.
  - split.
    + intros [= ->]. by split_and!.
    + by intros (_ & [= ->] & _).
  - intros [= ->]. exists shbuf. split_and!; try done.
    + do 4 right. by left.
    + by repeat constructor.
Qed.

(** The pool object and the mapping are released at most once, and only
    when there is something to release: a failure after the pool was
    created frees it exactly once; when no pool was created, or the
    private size is misaligned, nothing is mapped, unmapped or freed; and
    nothing is unmapped unless [mem_map_shm] returned a region. *)
Theorem pool_released_once (INGRESS_MBUF_SHM_SIZE : Z) (env : Pool.pool_env)
    (name : string) (n cache_size priv_size data_room_size socket_id : Z) :
  let out := Pool.dpdk_pktmbuf_pool_create_in_shm INGRESS_MBUF_SHM_SIZE env
               name n cache_size priv_size data_room_size socket_id in
  (∀ mp,
     Pool.RTE_ALIGN16 priv_size Pool.RTE_MBUF_PRIV_ALIGN = priv_size →
     Pool.create_empty_result env = Some mp →
     Pool.pool_ret out = None →
     List.filter Pool.is_mempool_free (Pool.pool_trace out)
     = [Pool.MempoolFree (Pool.mp_addr mp)]) ∧
  (Pool.RTE_ALIGN16 priv_size Pool.RTE_MBUF_PRIV_ALIGN ≠ priv_size ∨
   Pool.create_empty_result env = None →
     Forall (λ e, Pool.is_map_shm e = false ∧
                  Pool.is_unmap_shm e = false ∧
                  Pool.is_mempool_free e = false) (Pool.pool_trace out)) ∧
  (Pool.map_shm_result env = None →
     Forall (λ e, Pool.is_unmap_shm e = false) (Pool.pool_trace out)) ∧
  (length (List.filter Pool.is_unmap_shm (Pool.pool_trace out)) ≤ 1)%nat.
Proof.
  intros out. subst out.
  unfold Pool.dpdk_pktmbuf_pool_create_in_shm.
  destruct (Z.eqb_spec (Pool.RTE_ALIGN16 priv_size Pool.RTE_MBUF_PRIV_ALIGN)
              priv_size) as [Hal|Hal]; simpl.
  2: { split_and!; [done | by repeat constructor | by repeat constructor
                   | lia]. }
  destruct (Pool.create_empty_result env) as [mp0|]; simpl.
  2: { split_and!; [done | by repeat constructor | by repeat constructor
                   | lia]. }
  destruct (negb (Pool.set_ops_ret env =? 0)); simpl.
  { split_and!; [by intros mp _ [= ->] | by intros [|]
                | by repeat constructor | lia]. }
  match goal with
  | |- context [INGRESS_MBUF_SHM_SIZE <? ?l] =>
      destruct (INGRESS_MBUF_SHM_SIZE <? l)
  end; simpl.
  { split_and!; [by intros mp _ [= ->] | by intros [|]
                | by repeat constructor | lia]. }
  destruct (Pool.map_shm_result env) as [shbuf|]; simpl.
  2: { split_and!; [by intros mp _ [= ->] | by intros [|]
                   | by repeat constructor | lia]. }
  destruct (Pool.populate_ret env <? 0); simpl.
  - split_and!; [by intros mp _ [= ->] | by intros [|] | done | lia].
  - split_and!; [done | by intros [|] | done | lia].
Qed.

(** ** Rewriting the headers *)

Arguments le_decode : simpl never.
Arguments le_encode : simpl never.

Lemma le_encode_decode (bs : list Z) :
  Forall (λ b, is_byte b = true) bs →
  le_encode (length bs) (le_decode bs) = bs.
Proof.
  induction 1 as [|b bs Hb _ IH]; [done|].
  unfold is_byte in Hb. apply andb_true_iff in Hb as [H0 H1].
  apply Z.leb_le in H0. apply Z.ltb_lt in H1.
  change (le_encode (length (b :: bs)) (le_decode (b :: bs)))
    with ((b + 256 * le_decode bs) mod 256
          :: le_encode (length bs) ((b + 256 * le_decode bs) / 256)).
  replace (b + 256 * le_decode bs) with (b + le_decode bs * 256) by lia.
  rewrite Z.mod_add, Z.div_add by lia.
  rewrite Z.mod_small, Z.div_small, Z.add_0_l by lia.
  by rewrite IH.
Qed.

Lemma ether_type_check (a b : Z) :
  is_byte a = true → is_byte b = true →
  (le_decode [a; b] =? rte_cpu_to_be_16 ETHER_TYPE_IPv4) = true
  ↔ a = 8 ∧ b = 0.
Proof.
  unfold is_byte. intros Ha Hb.
  apply andb_true_iff in Ha as [Ha0 Ha1].
  apply andb_true_iff in Hb as [Hb0 Hb1].
  apply Z.leb_le in Ha0, Hb0. apply Z.ltb_lt in Ha1, Hb1.
  change (rte_cpu_to_be_16 ETHER_TYPE_IPv4) with 8.
  change (le_decode [a; b]) with (a + 256 * (b + 256 * 0)).
  rewrite Z.eqb_eq. lia.
Qed.

Lemma le_encode_decode_4 (a b c e : Z) :
  is_byte a = true → is_byte b = true →
  is_byte c = true → is_byte e = true →
  le_encode 4 (le_decode [a; b; c; e]) = [a; b; c; e].
Proof.
  intros. apply (le_encode_decode [a; b; c; e]).
  by repeat constructor.
Qed.

Tactic Notation "split_frame" ident(d) integer(n) hyp(Hlen) :=
  do n (destruct d as [|? d]; [simpl in Hlen; lia|]).

(** [dpdk_swap_ether_src_dest] on a buffer that holds the twelve address
    bytes exchanges the two addresses, leaves every later byte and the
    length alone, and undoes itself when applied again. *)
Theorem swap_ether_exchanges (d : list Z) :
  (12 ≤ length d)%nat →
  ∃ d',
    dpdk_swap_ether_src_dest d = Some d' ∧
    take 6 d' = take 6 (drop 6 d) ∧
    take 6 (drop 6 d') = take 6 d ∧
    drop 12 d' = drop 12 d ∧
    length d' = length d ∧
    dpdk_swap_ether_src_dest d' = Some d.
Proof.
  intros Hlen. split_frame d 12 Hlen.
  eexists. split; [reflexivity|]. by split_and!.
Qed.

Lemma swap_ether_exchanges_witness :
  ∃ d',
    dpdk_swap_ether_src_dest ipv4_frame = Some d' ∧
    take 6 d' = take 6 (drop 6 ipv4_frame) ∧
    take 6 (drop 6 d') = take 6 ipv4_frame ∧
    drop 12 d' = drop 12 ipv4_frame ∧
    length d' = length ipv4_frame ∧
    dpdk_swap_ether_src_dest d' = Some ipv4_frame.
Proof.
  apply (swap_ether_exchanges ipv4_frame). vm_compute. lia.
Defined.

(** On an IPv4 frame, that is one whose bytes 12 and 13 are 08 00, with
    its addresses inside the buffer, [dpdk_swap_ip_src_dest] exchanges
    the two addresses, prints nothing, leaves every other byte and the
    length alone, and undoes itself when applied again. *)
Theorem swap_ip_exchanges (d : list Z) :
  Forall (λ b, is_byte b = true) d →
  (34 ≤ length d)%nat →
  d !! 12%nat = Some 8 → d !! 13%nat = Some 0 →
  ∃ d',
    dpdk_swap_ip_src_dest d = Some (d', None) ∧
    take 26 d' = take 26 d ∧
    take 4 (drop 26 d') = take 4 (drop 30 d) ∧
    take 4 (drop 30 d') = take 4 (drop 26 d) ∧
    drop 34 d' = drop 34 d ∧
    length d' = length d ∧
    dpdk_swap_ip_src_dest d' = Some (d, None).
Proof.
  intros Hb Hlen H12 H13. split_frame d 34 Hlen.
  simpl in H12, H13. injection H12 as ->. injection H13 as ->.
  repeat match goal with
         | H : Forall _ (_ :: _) |- _ => apply Forall_cons in H as [? H]
         end.
  assert (Hswap : ∀ a0 a1 a2 a3 b0 b1 b2 b3 pre rest,
            length pre = 12%nat →
            is_byte a0 = true → is_byte a1 = true →
            is_byte a2 = true → is_byte a3 = true →
            is_byte b0 = true → is_byte b1 = true →
            is_byte b2 = true → is_byte b3 = true →
            dpdk_swap_ip_src_dest
              (z :: z0 :: z1 :: z2 :: z3 :: z4 :: z5 :: z6 :: z7 :: z8
               :: z9 :: z10 :: 8 :: 0 :: pre
               ++ a0 :: a1 :: a2 :: a3 :: b0 :: b1 :: b2 :: b3 :: rest)
            = Some (z :: z0 :: z1 :: z2 :: z3 :: z4 :: z5 :: z6 :: z7
                    :: z8 :: z9 :: z10 :: 8 :: 0 :: pre
                    ++ b0 :: b1 :: b2 :: b3 :: a0 :: a1 :: a2 :: a3
                    :: rest, None)).
  { intros a0 a1 a2 a3 b0 b1 b2 b3 pre rest Hpre. intros.
    do 12 (destruct pre as [|? pre]; [simpl in Hpre; lia|]).
    destruct pre; [|simpl in Hpre; lia].
    unfold dpdk_swap_ip_src_dest, load_le, store_le.
    cbn -[le_encode le_decode rte_cpu_to_be_16].
    change (le_decode [8; 0] =? rte_cpu_to_be_16 ETHER_TYPE_IPv4)
      with true.
    cbn -[le_encode le_decode rte_cpu_to_be_16].
    rewrite ?take_0.
    rewrite (le_encode_decode_4 b0 b1 b2 b3) by done.
    cbn -[le_encode le_decode rte_cpu_to_be_16].
    rewrite (le_encode_decode_4 a0 a1 a2 a3) by done.
    cbn -[le_encode le_decode rte_cpu_to_be_16].
    by rewrite !drop_0. }
  eexists. split.
  { apply (Hswap _ _ _ _ _ _ _ _
             [z13; z14; z15; z16; z17; z18; z19; z20; z21; z22; z23; z24]);
      done. }
  split_and!; try done.
  apply (Hswap _ _ _ _ _ _ _ _
           [z13; z14; z15; z16; z17; z18; z19; z20; z21; z22; z23; z24]);
    done.
Qed.

Lemma swap_ip_exchanges_witness :
  ∃ d',
    dpdk_swap_ip_src_dest ipv4_frame = Some (d', None) ∧
    take 26 d' = take 26 ipv4_frame ∧
    take 4 (drop 26 d') = take 4 (drop 30 ipv4_frame) ∧
    take 4 (drop 30 d') = take 4 (drop 26 ipv4_frame) ∧
    drop 34 d' = drop 34 ipv4_frame ∧
    length d' = length ipv4_frame ∧
    dpdk_swap_ip_src_dest d' = Some (ipv4_frame, None).
Proof.
  apply (swap_ip_exchanges ipv4_frame).
  - repeat constructor.
  - vm_compute. lia.
  - reflexivity.
  - reflexivity.
Defined.

(** A frame whose bytes 12 and 13 are not 08 00 is left as it is by
    [dpdk_swap_ip_src_dest], whatever follows the Ethernet header and
    however short the frame is after it; the warning prints the two
    bytes read as one integer of the host. *)
Theorem swap_ip_not_ipv4 (d : list Z) (a b : Z) :
  Forall (λ b, is_byte b = true) d →
  d !! 12%nat = Some a → d !! 13%nat = Some b →
  ¬ (a = 8 ∧ b = 0) →
  dpdk_swap_ip_src_dest d = Some (d, Some (a + 256 * b)).
Proof.
  intros Hb H12 H13 Hne.
  assert (Hlen : (14 ≤ length d)%nat).
  { apply lookup_lt_Some in H13. lia. }
  assert (Ha : is_byte a = true).
  { by apply (proj1 (Forall_lookup _ d) Hb 12%nat). }
  assert (Hb' : is_byte b = true).
  { by apply (proj1 (Forall_lookup _ d) Hb 13%nat). }
  split_frame d 14 Hlen.
  simpl in H12, H13. injection H12 as ->. injection H13 as ->.
  unfold dpdk_swap_ip_src_dest, load_le.
  cbn -[le_encode le_decode rte_cpu_to_be_16]. rewrite take_0.
  destruct (le_decode [a; b] =? rte_cpu_to_be_16 ETHER_TYPE_IPv4) eqn:Heq.
  - apply ether_type_check in Heq; done.
  - cbn -[le_encode le_decode rte_cpu_to_be_16].
    change (le_decode [a; b]) with (a + 256 * (b + 256 * 0)).
    do 3 f_equal. lia.
Qed.

Lemma swap_ip_not_ipv4_witness :
  dpdk_swap_ip_src_dest arp_frame = Some (arp_frame, Some (8 + 256 * 6)).
Proof.
  apply (swap_ip_not_ipv4 arp_frame 8 6).
  - repeat constructor.
  - reflexivity.
  - reflexivity.
  - intros [_ H]. discriminate H.
Defined.

(** The two rewriters touch different bytes: on a buffer that holds both
    headers, exchanging the Ethernet addresses and then the IP addresses
    gives the same bytes and the same warning as the other order. *)
Theorem swaps_commute (d : list Z) :
  (34 ≤ length d)%nat →
  dpdk_swap_ether_src_dest d ≫= dpdk_swap_ip_src_dest
  = dpdk_swap_ip_src_dest d ≫= λ r,
      (λ d', (d', r.2)) <$> dpdk_swap_ether_src_dest r.1.
Proof.
  intros Hlen. split_frame d 34 Hlen.
  unfold dpdk_swap_ip_src_dest, dpdk_swap_ether_src_dest, ether_addr_copy,
    load_le, store_le.
  cbn -[Z.modulo Z.div le_decode rte_cpu_to_be_16 Z.eqb].
  destruct (le_decode _ =? rte_cpu_to_be_16 ETHER_TYPE_IPv4);
    cbn -[Z.modulo Z.div le_decode rte_cpu_to_be_16 Z.eqb]; reflexivity.
Qed.

Lemma swaps_commute_witness :
  dpdk_swap_ether_src_dest ipv4_frame ≫= dpdk_swap_ip_src_dest
  = dpdk_swap_ip_src_dest ipv4_frame ≫= λ r,
      (λ d', (d', r.2)) <$> dpdk_swap_ether_src_dest r.1.
Proof.
  apply (swaps_commute ipv4_frame). vm_compute. lia.
Defined.

(** ** Bringing the data plane up *)

(** [dpdk_port_init] returns 0 exactly when the port exists, the
    configuration and the adjustment of the descriptors return 0, and
    neither queue set-up nor the start of the device returns a negative
    value; then, and only then, it has made every call of the sequence
    and put the device in promiscuous mode.  Whatever happens, the calls
    made are an initial part of that sequence, and there is none for a
    port that does not exist.  Both queues are set up with the adjusted
    descriptor counts and with the socket of the device as the
    [unsigned int] the set-up receives. *)
Theorem port_init_result (env : Init.init_env) (port mbuf_pool : Z) :
  let r := Init.dpdk_port_init env port mbuf_pool in
  (r.1 = 0 ↔
     port < Init.eth_dev_count env ∧
     Init.dev_configure_ret env = 0 ∧
     Init.adjust_ret env = 0 ∧
     0 ≤ Init.rx_queue_setup_ret env ∧
     0 ≤ Init.tx_queue_setup_ret env ∧
     0 ≤ Init.dev_start_ret env) ∧
  (r.1 = 0 ↔ r.2 = Init.port_init_calls env port mbuf_pool) ∧
  (Init.EthPromiscuousEnable port ∈ r.2 ↔ r.1 = 0) ∧
  r.2 `prefix_of` Init.port_init_calls env port mbuf_pool ∧
  (Init.eth_dev_count env ≤ port → r = (-1, [])).
Proof.
  intros r. subst r. unfold Init.dpdk_port_init, Init.port_init_calls.
  destruct (Z.leb_spec (Init.eth_dev_count env) port) as [Hp|Hp].
  { simpl.
    split_and!; [split; [done | intros [? _]; lia]
                | split; [done | by intros [=]]
                | split; [by intros ?%elem_of_nil | done]
                | apply prefix_nil
                | done]. }
  destruct (Z.eqb_spec (Init.dev_configure_ret env) 0) as [Hc|Hc]; simpl.
  2: { split_and!; [split; [done | by intros (_ & ? & _)]
                   | split; [done | by intros [=]]
                   | split; [|done]
                   | by eexists
                   | lia].
       intros H. repeat (apply elem_of_cons in H as [H|H]; [done|]).
       by apply elem_of_nil in H. }
  destruct (Z.eqb_spec (Init.adjust_ret env) 0) as [Ha|Ha]; simpl.
  2: { split_and!; [split; [done | by intros (_ & _ & ? & _)]
                   | split; [done | by intros [=]]
                   | split; [|done]
                   | by eexists
                   | lia].
       intros H. repeat (apply elem_of_cons in H as [H|H]; [done|]).
       by apply elem_of_nil in H. }
  destruct (Z.ltb_spec (Init.rx_queue_setup_ret env) 0) as [Hr|Hr]; simpl.
  { split_and!; [split; [lia | intros (_ & _ & _ & ? & _); lia]
                | split; [lia | by intros [=]]
                | split; [|lia]
                | by eexists
                | lia].
    intros H. repeat (apply elem_of_cons in H as [H|H]; [done|]).
    by apply elem_of_nil in H. }
  destruct (Z.ltb_spec (Init.tx_queue_setup_ret env) 0) as [Ht|Ht]; simpl.
  { split_and!; [split; [lia | intros (_ & _ & _ & _ & ? & _); lia]
                | split; [lia | by intros [=]]
                | split; [|lia]
                | by eexists
                | lia].
    intros H. repeat (apply elem_of_cons in H as [H|H]; [done|]).
    by apply elem_of_nil in H. }
  destruct (Z.ltb_spec (Init.dev_start_ret env) 0) as [Hs|Hs]; simpl.
  { split_and!; [split; [lia | intros (_ & _ & _ & _ & _ & ?); lia]
                | split; [lia | by intros [=]]
                | split; [|lia]
                | by eexists
                | lia].
    intros H. repeat (apply elem_of_cons in H as [H|H]; [done|]).
    by apply elem_of_nil in H. }
  split_and!; [done | done | split; [done|] | done | lia].
  intros _. rewrite !elem_of_cons. tauto.
Qed.

(** [dpdk_init_control_comm] returns 0 when neither channel fails to
    initialise and -1 otherwise; it does not touch the outgoing channel
    when the incoming one failed, and logs one error for a failure and
    none for a success. *)
Theorem init_control_comm_result (env : Init.init_env) :
  let r := Init.dpdk_init_control_comm env in
  (r.1 = 0 ↔
     0 ≤ Init.lrpc_init_in_ret env ∧ 0 ≤ Init.lrpc_init_out_ret env) ∧
  (r.1 ≠ 0 → r.1 = -1) ∧
  (Init.LrpcInitOut ∈ r.2 ↔ 0 ≤ Init.lrpc_init_in_ret env) ∧
  length (List.filter (λ e, match e with Init.LogErr _ => true
                            | _ => false end) r.2)
  = (if r.1 =? 0 then 0%nat else 1%nat).
Proof.
  intros r. subst r. unfold Init.dpdk_init_control_comm.
  destruct (Z.ltb_spec (Init.lrpc_init_in_ret env) 0) as [Hi|Hi]; simpl.
  { split_and!; [split; [done | lia] | done | split; [|lia] | done].
    intros H. repeat (apply elem_of_cons in H as [H|H]; [done|]).
    by apply elem_of_nil in H. }
  destruct (Z.ltb_spec (Init.lrpc_init_out_ret env) 0) as [Ho|Ho]; simpl.
  { split_and!; [split; [done | lia] | done | split; [done|] | done].
    intros _. rewrite !elem_of_cons. tauto. }
  split_and!; [done | done | split; [done|] | done].
  intros _. rewrite !elem_of_cons. tauto.
Qed.

Lemma port_init_prefix (env : Init.init_env) (port mbuf_pool : Z) :
  (Init.dpdk_port_init env port mbuf_pool).2
  `prefix_of` Init.port_init_calls env port mbuf_pool.
Proof.
  unfold Init.dpdk_port_init, Init.port_init_calls.
  repeat (case_match; simpl; [by (apply prefix_nil || eexists)|]).
  done.
Qed.

Lemma port_init_promiscuous (env : Init.init_env) (port mbuf_pool : Z) :
  (Init.dpdk_port_init env port mbuf_pool).1 = 0 →
  (Init.dpdk_port_init env port mbuf_pool).2
  = Init.port_init_calls env port mbuf_pool.
Proof.
  unfold Init.dpdk_port_init, Init.port_init_calls.
  destruct (Z.leb_spec (Init.eth_dev_count env) port); [done|].
  destruct (Z.eqb_spec (Init.dev_configure_ret env) 0); simpl; [|done].
  destruct (Z.eqb_spec (Init.adjust_ret env) 0); simpl; [|done].
  destruct (Z.ltb_spec (Init.rx_queue_setup_ret env) 0); simpl; [lia|].
  destruct (Z.ltb_spec (Init.tx_queue_setup_ret env) 0); simpl; [lia|].
  destruct (Z.ltb_spec (Init.dev_start_ret env) 0); simpl; [lia|].
  done.
Qed.

Lemma pool_success_region (INGRESS_MBUF_SHM_SIZE : Z) (env : Pool.pool_env)
    (name : string) (n cache_size priv_size data_room_size socket_id : Z)
    (mp : Pool.rte_mempool) :
  let out := Pool.dpdk_pktmbuf_pool_create_in_shm INGRESS_MBUF_SHM_SIZE env
               name n cache_size priv_size data_room_size socket_id in
  Pool.pool_ret out = Some mp →
  ∃ shbuf len,
    Pool.ingress_mbuf_region out = Some (shbuf, len) ∧
    len ≤ INGRESS_MBUF_SHM_SIZE ∧
    Forall (λ e, Pool.is_unmap_shm e = false ∧
                 Pool.is_mempool_free e = false) (Pool.pool_trace out).
Proof.
  intros out. subst out. unfold Pool.dpdk_pktmbuf_pool_create_in_shm.
  destruct (negb _); simpl; [done|].
  destruct (Pool.create_empty_result env) as [mp0|]; simpl; [|done].
  destruct (negb _); simpl; [done|].
  match goal with
  | |- context [INGRESS_MBUF_SHM_SIZE <? ?l] =>
      destruct (Z.ltb_spec INGRESS_MBUF_SHM_SIZE l) as [Hbig|Hfit]
  end; simpl; [done|].
  destruct (Pool.map_shm_result env) as [shbuf|]; simpl; [|done].
  destruct (Pool.populate_ret env <? 0); simpl; [done|].
  intros _. eexists _, _. split_and!; [done | done |].
  by repeat constructor.
Qed.

Lemma boot_state_inv (h : rte_hash) (region : option (Z * Z))
    (ps : gmap Z proc) (ms : gmap Z rte_mbuf) (cmds : list (Z * Z))
    (ch : lrpc_chan_out) :
  hash_table h = ∅ →
  registry_inv (Init.boot_state h region ps ms cmds ch).
Proof.
  intros Hh. split_and!.
  - reflexivity.
  - constructor.
  - constructor.
  - unfold registry_consistent. simpl. rewrite Hh. by rewrite dom_empty_L.
Qed.

Section BootProperties.

Variable INGRESS_MBUF_SHM_SIZE : Z.
Variable env : Init.init_env.
Variable port : Z.

Let out : Pool.pool_outcome :=
  Pool.dpdk_pktmbuf_pool_create_in_shm INGRESS_MBUF_SHM_SIZE
    (Init.pool env) "MBUF_POOL"
    (wrap32 (Init.NUM_MBUFS * Init.eth_dev_count env))
    Init.MBUF_CACHE_SIZE 0 Init.RTE_MBUF_DEFAULT_BUF_SIZE
    (Init.to_int32 (Init.socket_id env)).

Let r : Init.init_result := Init.dpdk_init INGRESS_MBUF_SHM_SIZE env port.

(** [dpdk_init] never returns anything but 0: every failure leaves
    through [rte_exit].  It returns exactly when the EAL came up, there
    is a port, the pool was created, the port was initialised on that
    pool, the hash table was created and both channels were
    initialised. *)
Theorem init_returns_zero :
  (∀ v, Init.init_ret r = Init.Returned v → v = 0) ∧
  (Init.init_ret r = Init.Returned 0 ↔
     0 ≤ Init.eal_init_ret env ∧
     1 ≤ Init.eth_dev_count env ∧
     (∃ mp, Pool.pool_ret out = Some mp ∧
            (Init.dpdk_port_init env port (Pool.mp_addr mp)).1 = 0) ∧
     Init.hash_create_ok env = true ∧
     0 ≤ Init.lrpc_init_in_ret env ∧
     0 ≤ Init.lrpc_init_out_ret env).
Proof.
  subst r. unfold Init.dpdk_init. fold out.
  destruct (Z.ltb_spec (Init.eal_init_ret env) 0) as [He|He]; simpl.
  { split; [done|]. split; [done | intros [? _]; lia]. }
  destruct (Z.ltb_spec (Init.eth_dev_count env) 1) as [Hn|Hn]; simpl.
  { split; [done|]. split; [done | intros (_ & ? & _); lia]. }
  destruct (Pool.pool_ret out) as [mp|] eqn:Hpool; simpl.
  2: { split; [done|]. split; [done | by intros (_ & _ & (? & ? & _) & _)]. }
  destruct (Init.dpdk_port_init env port (Pool.mp_addr mp))
    as [rp trp] eqn:Hport.
  destruct (Z.eqb_spec rp 0) as [Hrp|Hrp]; simpl.
  2: { split; [done|]. split; [done|].
       intros (_ & _ & (mp' & [= <-] & Hz) & _).
       rewrite Hport in Hz. done. }
  unfold Init.rte_hash_create.
  destruct (Init.hash_create_ok env) eqn:Hh; simpl.
  2: { split; [done|]. split; [done | by intros (_ & _ & _ & ? & _)]. }
  unfold Init.dpdk_init_control_comm.
  destruct (Z.ltb_spec (Init.lrpc_init_in_ret env) 0) as [Hi|Hi]; simpl.
  { split; [done|]. split; [done | intros (_ & _ & _ & _ & ? & _); lia]. }
  destruct (Z.ltb_spec (Init.lrpc_init_out_ret env) 0) as [Ho|Ho]; simpl.
  { split; [done|]. split; [done | intros (_ & _ & _ & _ & _ & ?); lia]. }
  split; [by intros v [= <-]|]. split; [|done].
  intros _. split_and!; try done.
  exists mp. by rewrite Hport.
Qed.

(** Every call to the device that [dpdk_init] makes belongs to the
    sequence of [dpdk_port_init] on the pool that was just created: none
    is made without that pool.  And once the pool exists it is never
    freed nor its memory unmapped, not even when a later step fails and
    the process exits. *)
Theorem init_device_calls :
  (∀ e, e ∈ Init.init_trace r → Init.is_port_call e = true →
        ∃ mp, Pool.pool_ret out = Some mp ∧
              e ∈ Init.port_init_calls env port (Pool.mp_addr mp)) ∧
  (is_Some (Pool.pool_ret out) →
   ∀ e, Init.PoolCall e ∈ Init.init_trace r →
        Pool.is_unmap_shm e = false ∧ Pool.is_mempool_free e = false).
Proof.
  assert (Hpc : ∀ e (l : list Pool.pool_event), e ∈ Init.PoolCall <$> l →
                       Init.is_port_call e = false).
  { intros e l (x & -> & _)%list_elem_of_fmap. done. }
  assert (Hpp : ∀ e mp, Init.PoolCall e
                  ∈ (Init.dpdk_port_init env port mp).2 → False).
  { intros e mp He.
    destruct (port_init_prefix env port mp) as [k Hk].
    assert (Hin : Init.PoolCall e ∈ Init.port_init_calls env port mp).
    { rewrite Hk. apply elem_of_app. by left. }
    unfold Init.port_init_calls in Hin.
    repeat (apply elem_of_cons in Hin as [Hin|Hin]; [done|]).
    by apply elem_of_nil in Hin. }
  assert (Hfree : ∀ mp e, Pool.pool_ret out = Some mp →
            e ∈ Pool.pool_trace out →
            Pool.is_unmap_shm e = false ∧ Pool.is_mempool_free e = false).
  { intros mp e Hmp He.
    destruct (pool_success_region _ _ _ _ _ _ _ _ mp Hmp)
      as (? & ? & _ & _ & Hall).
    by apply (proj1 (Forall_forall _ _) Hall). }
  subst r. unfold Init.dpdk_init. fold out.
  destruct (Init.eal_init_ret env <? 0); cbn -[app fmap].
  { split.
    - intros e He Hc. apply list_elem_of_singleton in He as ->. done.
    - intros _ e He. apply list_elem_of_singleton in He. done. }
  destruct (Init.eth_dev_count env <? 1); cbn -[app fmap].
  { split.
    - intros e He Hc. apply list_elem_of_singleton in He as ->. done.
    - intros _ e He. apply list_elem_of_singleton in He. done. }
  destruct (Pool.pool_ret out) as [mp|] eqn:Hpool; cbn -[app fmap].
  2: { split; [|by intros [? ?]].
       intros e He Hc. apply elem_of_app in He as [He|He].
       - apply list_elem_of_singleton in He as ->. done.
       - apply Hpc in He. congruence. }
  destruct (Init.dpdk_port_init env port (Pool.mp_addr mp))
    as [rp trp] eqn:Hport.
  assert (Htrp : ∀ e, e ∈ trp →
            e ∈ Init.port_init_calls env port (Pool.mp_addr mp)).
  { intros e He.
    destruct (port_init_prefix env port (Pool.mp_addr mp)) as [k Hk].
    rewrite Hk, Hport. apply elem_of_app. by left. }
  assert (Htrp' : ∀ e, Init.PoolCall e ∈ trp → False).
  { intros e He. apply (Hpp e (Pool.mp_addr mp)). by rewrite Hport. }
  set (tr1 := [Init.EalInit _] ++ (Init.PoolCall <$> Pool.pool_trace out)).
  assert (H1 : ∀ e, e ∈ tr1 → Init.is_port_call e = false).
  { intros e He. apply elem_of_app in He as [He|He].
    - apply list_elem_of_singleton in He as ->. done.
    - by apply Hpc in He. }
  assert (H1' : ∀ e, Init.PoolCall e ∈ tr1 →
            Pool.is_unmap_shm e = false ∧ Pool.is_mempool_free e = false).
  { intros e He. apply elem_of_app in He as [He|He].
    - apply list_elem_of_singleton in He. done.
    - apply list_elem_of_fmap in He as (x & [= <-] & Hx).
      by apply (Hfree mp). }
  assert (H2 : ∀ e, e ∈ tr1 ++ trp → Init.is_port_call e = true →
            ∃ mp0, Some mp = Some mp0 ∧
              e ∈ Init.port_init_calls env port (Pool.mp_addr mp0)).
  { intros e He Hc. apply elem_of_app in He as [He|He].
    - apply H1 in He. congruence.
    - exists mp. split; [done | by apply Htrp]. }
  assert (H2' : ∀ e, Init.PoolCall e ∈ tr1 ++ trp →
            Pool.is_unmap_shm e = false ∧ Pool.is_mempool_free e = false).
  { intros e He. apply elem_of_app in He as [He|He]; [by apply H1'|].
    by destruct (Htrp' e). }
  destruct (negb (rp =? 0)); cbn -[app fmap].
  { split; [exact H2 | intros _; exact H2']. }
  set (tr3 := if 1 <? Init.lcore_count env then _ else _).
  set (tr4 := tr3 ++ [Init.HashCreate _ _ _ _ _]).
  assert (H4 : ∀ e, e ∈ tr4 → e ∈ tr1 ++ trp ∨
            (Init.is_port_call e = false ∧ ∀ x, e ≠ Init.PoolCall x)).
  { intros e He. subst tr4 tr3.
    apply elem_of_app in He as [He|He].
    - destruct (1 <? Init.lcore_count env); [|by left].
      apply elem_of_app in He as [He|He]; [by left|].
      apply list_elem_of_singleton in He as ->. by right.
    - apply list_elem_of_singleton in He as ->. by right. }
  clearbody tr4. clear tr3.
  assert (H5 : ∀ tr e, e ∈ tr4 ++ tr →
            (∀ x, x ∈ tr → Init.is_port_call x = false
                           ∧ ∀ y, x ≠ Init.PoolCall y) →
            e ∈ tr1 ++ trp ∨
            (Init.is_port_call e = false ∧ ∀ x, e ≠ Init.PoolCall x)).
  { intros tr e He Htr. apply elem_of_app in He as [He|He].
    - by apply H4.
    - right. by apply Htr. }
  assert (Hcomm : ∀ x, x ∈ (Init.dpdk_init_control_comm env).2 →
            Init.is_port_call x = false ∧ ∀ y, x ≠ Init.PoolCall y).
  { intros x Hx. unfold Init.dpdk_init_control_comm in Hx.
    repeat case_match; simpl in Hx;
      repeat (apply elem_of_cons in Hx as [->|Hx]; [done|]);
      by apply elem_of_nil in Hx. }
  assert (Hfin : ∀ tr,
            (∀ x, x ∈ tr → Init.is_port_call x = false
                           ∧ ∀ y, x ≠ Init.PoolCall y) →
            (∀ e, e ∈ tr4 ++ tr → Init.is_port_call e = true →
               ∃ mp0, Some mp = Some mp0 ∧
                 e ∈ Init.port_init_calls env port (Pool.mp_addr mp0)) ∧
            (is_Some (Some mp) →
             ∀ e, Init.PoolCall e ∈ tr4 ++ tr →
               Pool.is_unmap_shm e = false
               ∧ Pool.is_mempool_free e = false)).
  { intros tr Htr. split.
    - intros e He Hc. destruct (H5 tr e He Htr) as [Hin|[Hno _]].
      + by apply H2.
      + congruence.
    - intros _ e He. destruct (H5 tr _ He Htr) as [Hin|[_ Hno]].
      + by apply H2'.
      + by destruct (Hno e). }
  unfold Init.rte_hash_create.
  destruct (Init.hash_create_ok env); cbn -[app fmap].
  2: { rewrite <- (app_nil_r tr4). apply Hfin.
       by intros x ?%elem_of_nil. }
  destruct (Init.dpdk_init_control_comm env) as [rc trc] eqn:Hc.
  simpl in Hcomm.
  destruct (rc <? 0); simpl; by apply Hfin.
Qed.

(** When [dpdk_init] returns, the mapped region is recorded with a
    length that fits the shared segment, the device is in promiscuous
    mode, and [mac_to_proc] is an empty table for
    [MAC_TO_PROC_ENTRIES] keys; with the zeroed statics of the file this
    is a state in which the registry invariant holds, the client array
    has its declared length and no client is registered. *)
Theorem init_establishes_invariant :
  Init.init_ret r = Init.Returned 0 →
  ∃ h shbuf len,
    Init.init_mac_to_proc r = Some h ∧
    h = {| hash_entries := MAC_TO_PROC_ENTRIES; hash_table := ∅ |} ∧
    Init.init_ingress_mbuf_region r = Some (shbuf, len) ∧
    len ≤ INGRESS_MBUF_SHM_SIZE ∧
    Init.EthPromiscuousEnable port ∈ Init.init_trace r ∧
    ∀ ps ms cmds ch,
      let s := Init.boot_state h (Init.init_ingress_mbuf_region r)
                 ps ms cmds ch in
      registry_inv s ∧ dp_array s = true ∧ client_list s = [] ∧
      ingress_mbuf_region_base s = shbuf ∧
      ∀ mac, rte_hash_lookup_data (mac_to_proc s) mac = None.
Proof.
  subst r. unfold Init.dpdk_init. fold out.
  destruct (Init.eal_init_ret env <? 0); simpl; [done|].
  destruct (Init.eth_dev_count env <? 1); simpl; [done|].
  destruct (Pool.pool_ret out) as [mp|] eqn:Hpool; simpl; [|done].
  destruct (pool_success_region _ _ _ _ _ _ _ _ mp Hpool)
    as (shbuf & len & Hreg & Hlen & _).
  fold out in Hreg.
  destruct (Init.dpdk_port_init env port (Pool.mp_addr mp))
    as [rp trp] eqn:Hport.
  destruct (Z.eqb_spec rp 0) as [Hrp|Hrp]; simpl; [|done].
  pose proof (port_init_promiscuous env port (Pool.mp_addr mp)) as Hcalls.
  rewrite Hport in Hcalls. simpl in Hcalls. specialize (Hcalls Hrp).
  unfold Init.rte_hash_create.
  destruct (Init.hash_create_ok env); simpl; [|done].
  destruct (Init.dpdk_init_control_comm env) as [rc trc].
  destruct (rc <? 0); simpl; [done|].
  intros _. eexists _, shbuf, len.
  split_and!; [done | done | done | done | |].
  - rewrite Hcalls. unfold Init.port_init_calls.
    destruct (1 <? Init.lcore_count env);
      rewrite ?elem_of_app, ?elem_of_cons, ?elem_of_app, ?elem_of_cons;
      tauto.
  - intros ps ms cmds ch. split_and!.
    + by apply boot_state_inv.
    + reflexivity.
    + reflexivity.
    + simpl. by rewrite Hreg.
    + intros mac. unfold rte_hash_lookup_data. simpl. apply lookup_empty.
Qed.

End BootProperties.

Lemma init_establishes_invariant_witness :
  ∃ h shbuf len,
    Init.init_mac_to_proc (Init.dpdk_init 1073741824 Init.all_well 0)
    = Some h ∧
    h = {| hash_entries := MAC_TO_PROC_ENTRIES; hash_table := ∅ |} ∧
    Init.init_ingress_mbuf_region
      (Init.dpdk_init 1073741824 Init.all_well 0) = Some (shbuf, len) ∧
    len ≤ 1073741824 ∧
    Init.EthPromiscuousEnable 0
    ∈ Init.init_trace (Init.dpdk_init 1073741824 Init.all_well 0) ∧
    ∀ ps ms cmds ch,
      let s := Init.boot_state h
                 (Init.init_ingress_mbuf_region
                    (Init.dpdk_init 1073741824 Init.all_well 0))
                 ps ms cmds ch in
      registry_inv s ∧ dp_array s = true ∧ client_list s = [] ∧
      ingress_mbuf_region_base s = shbuf ∧
      ∀ mac, rte_hash_lookup_data (mac_to_proc s) mac = None.
Proof.
  apply (init_establishes_invariant 1073741824 Init.all_well 0).
  vm_compute. reflexivity.
Defined.
